(** * GeoGame: the whitepaper export route and the download history

    A shallow embedding of
      - [src/app/api/whitepaper/generate/route.ts]: the PDF pagination
        engine [generateWhitepaperPDF], the paragraph segmentation of the
        DOCX and PPTX generators, and the control flow of the [POST]
        handler;
      - the download-history helpers [saveFileToDownloads],
        [getDownloadedFiles] and [deleteDownloadedFile].

    Conventions of the embedding.
      - A JavaScript string is a [list ascii]; a character stands for the
        UTF-16 code unit of the same number (0..255).
      - A JavaScript number that takes part in layout arithmetic is an exact
        rational [Q]: the rounding of the doubles is left out, and the
        properties stated below are those that do not depend on it. Page
        counts and indices are [Z] or [nat].
      - Calls into pdf-lib, OpenAI, Pinecone and Gemini are parameters of the
        sections that use them; pdf-lib's refusal of a character that
        WinAnsi lacks is the parameter [encodingError]. *)

From Stdlib Require Import QArith Qround Lqa ZArith Lia List Ascii String Bool DecimalString.
From stdpp Require Import gmap strings list.

Import ListNotations.
Local Open Scope list_scope.

(* ===================================================================== *)
(** * JavaScript string primitives used by the route                     *)
(* ===================================================================== *)

Module Js.

Definition JsString := list ascii.

(** String literals of the source are written [js "..."]. *)
Definition js (s : string) : JsString := list_ascii_of_string s.

Definition LF : ascii := ascii_of_nat 10.
Definition CR : ascii := ascii_of_nat 13.
Definition TAB : ascii := ascii_of_nat 9.
Definition SP : ascii := ascii_of_nat 32.
Definition HASH : ascii := ascii_of_nat 35.
Definition STAR : ascii := ascii_of_nat 42.
Definition UNDERSCORE : ascii := ascii_of_nat 95.

Definition chr_eqb (a b : ascii) : bool := Ascii.eqb a b.

(** [\s] of a regular expression and the characters [String.prototype.trim]
    strips: TAB, LF, VT, FF, CR, SP and NBSP (the members below 256). *)
Definition isWhiteSpace (c : ascii) : bool :=
  let n := nat_of_ascii c in
  Nat.eqb n 9 || Nat.eqb n 10 || Nat.eqb n 11 || Nat.eqb n 12 ||
  Nat.eqb n 13 || Nat.eqb n 32 || Nat.eqb n 160.

(** The characters [.] does not match: LF and CR. *)
Definition isLineTerminator (c : ascii) : bool :=
  chr_eqb c LF || chr_eqb c CR.

Definition isHash (c : ascii) : bool := chr_eqb c HASH.

(** [span p s]: the longest prefix of [s] satisfying [p], and the rest. *)
Fixpoint span (p : ascii -> bool) (s : JsString) : JsString * JsString :=
  match s with
  | [] => ([], [])
  | c :: r => if p c then let '(a, b) := span p r in (c :: a, b) else ([], s)
  end.

Fixpoint trimStart (s : JsString) : JsString :=
  match s with
  | [] => []
  | c :: r => if isWhiteSpace c then trimStart r else s
  end.

Definition trimEnd (s : JsString) : JsString := rev (trimStart (rev s)).

(** [s.trim()] *)
Definition trim (s : JsString) : JsString := trimEnd (trimStart s).

(** [s.trim().length > 0] *)
Definition nonBlank (s : JsString) : bool :=
  match trim s with [] => false | _ :: _ => true end.

(** [s.includes(c)] for a one-character needle. *)
Definition includesChar (c : ascii) (s : JsString) : bool := existsb (chr_eqb c) s.

(** [s.includes(cc)] for a needle made of twice the same character. *)
Fixpoint includesPair (c : ascii) (s : JsString) : bool :=
  match s with
  | a :: (b :: _) as t => (chr_eqb a c && chr_eqb b c) || includesPair c t
  | _ => false
  end.

(** [s.replace(/c/g, '')] *)
Definition removeChar (c : ascii) (s : JsString) : JsString :=
  List.filter (fun a => negb (chr_eqb a c)) s.

(** [s.replace(/cc/g, '')]: matches are found left to right and do not
    overlap. *)
Fixpoint removePairs (c : ascii) (s : JsString) : JsString :=
  match s with
  | [] => []
  | a :: t =>
      match t with
      | b :: r =>
          if chr_eqb a c && chr_eqb b c then removePairs c r
          else a :: removePairs c t
      | [] => [a]
      end
  end.

(** [s.replace(/c/g, d)] for single characters [c] and [d]. *)
Definition replaceChar (c d : ascii) (s : JsString) : JsString :=
  map (fun a => if chr_eqb a c then d else a) s.

(** [s.replace(/\r\n/g, '\n')] *)
Fixpoint replaceCRLF (s : JsString) : JsString :=
  match s with
  | [] => []
  | a :: t =>
      match t with
      | b :: r =>
          if chr_eqb a CR && chr_eqb b LF then LF :: replaceCRLF r
          else a :: replaceCRLF t
      | [] => [a]
      end
  end.

(** [s.replace(/[\r\n\t]/g, ' ')] *)
Definition blankControl (s : JsString) : JsString :=
  map (fun a => if chr_eqb a CR || chr_eqb a LF || chr_eqb a TAB then SP else a) s.

(** [s.replace(/\s+/g, ' ')]: every maximal run of white space becomes one
    space. [inRun] says that the previous character was white space. *)
Fixpoint collapseWs (inRun : bool) (s : JsString) : JsString :=
  match s with
  | [] => []
  | c :: r =>
      if isWhiteSpace c
      then (if inRun then collapseWs true r else SP :: collapseWs true r)
      else c :: collapseWs false r
  end.

(** [s.split(c)] for a one-character separator; [cur] is the piece being
    read. The result is never empty: [''.split(c)] is [['']]. *)
Fixpoint splitChar (c : ascii) (cur : JsString) (s : JsString) : list JsString :=
  match s with
  | [] => [cur]
  | a :: r => if chr_eqb a c then cur :: splitChar c [] r
              else splitChar c (cur ++ [a]) r
  end.

(** [s.split(/\n\n+/)]: the separators are the maximal runs of two or more
    line feeds; a lone line feed stays inside its piece. [cur] is the piece
    being read and [nl] the number of line feeds just read. *)
Fixpoint splitBlankLines (cur : JsString) (nl : nat) (s : JsString) : list JsString :=
  match s with
  | [] =>
      match nl with
      | 0 => [cur]
      | 1 => [cur ++ [LF]]
      | _ => [cur; []]
      end
  | c :: r =>
      if chr_eqb c LF then splitBlankLines cur (S nl) r
      else
        match nl with
        | 0 => splitBlankLines (cur ++ [c]) 0 r
        | 1 => splitBlankLines (cur ++ [LF; c]) 0 r
        | _ => cur :: splitBlankLines [c] 0 r
        end
  end.

(** [a + ' ' + b] *)
Definition joinSpace (a b : JsString) : JsString := a ++ SP :: b.

(** [s.includes(needle)] *)
Fixpoint startsWith (needle s : JsString) : bool :=
  match needle, s with
  | [], _ => true
  | _ :: _, [] => false
  | a :: needle', b :: s' => chr_eqb a b && startsWith needle' s'
  end.

Fixpoint includes (needle s : JsString) : bool :=
  startsWith needle s ||
  match s with
  | [] => false
  | _ :: r => includes needle r
  end.

(** A number that may be [NaN]: [None] stands for [NaN], and for the
    [undefined] that arithmetic turns into [NaN]. *)
Definition JsNumber := option Z.

(** A number as a comparison reads it: a real number (every finite double
    is one), an infinity, or [NaN]. *)
Inductive JsReal :=
| Real (q : Q)
| PlusInfinity
| MinusInfinity
| NotANumber.

Definition toReal (n : JsNumber) : JsReal :=
  match n with
  | Some z => Real (inject_Z z)
  | None => NotANumber
  end.

(** What a call ends with: a value, or a thrown [Error] with its message. *)
Inductive Outcome (A : Type) :=
| Returned (a : A)
| Thrown (message : JsString).

Arguments Returned {A} a.
Arguments Thrown {A} message.

End Js.
Export Js.

(* ===================================================================== *)
(** * Paragraph segmentation of the three generators                     *)
(* ===================================================================== *)

Module Segmentation.

(** [content.split(/\n\n+/).filter(p => p.trim().length > 0)], the first
    statement of [generateWhitepaperDOCX] (route.ts line 480). *)
Definition docxParagraphs (content : JsString) : list JsString :=
  List.filter nonBlank (splitBlankLines [] 0 content).

(** The same expression in [generateWhitepaperPPT] (route.ts line 570). *)
Definition pptParagraphs (content : JsString) : list JsString :=
  List.filter nonBlank (splitBlankLines [] 0 content).

(** [content.replace(/\r\n/g, '\n').replace(/\r/g, '\n')] *)
Definition normalizeNewlines (content : JsString) : JsString :=
  replaceChar CR LF (replaceCRLF content).

(** [line.match(/^#{1,3}\s/)] *)
Definition isHeadingLine (line : JsString) : bool :=
  let '(hashes, r) := span isHash line in
  (1 <=? length hashes)%nat && (length hashes <=? 3)%nat &&
  match r with c :: _ => isWhiteSpace c | [] => false end.

(** The loop of route.ts lines 170-195 over the non-blank lines: a heading
    line is a paragraph of its own, the other lines are joined with spaces.
    [paragraphs] and [currentParagraph] are the two variables of the loop;
    the empty list closes with the push after the loop. *)
Fixpoint groupLines (lines : list JsString) (paragraphs : list JsString)
    (currentParagraph : JsString) : list JsString :=
  match lines with
  | [] =>
      if nonBlank currentParagraph then paragraphs ++ [trim currentParagraph]
      else paragraphs
  | l :: rest =>
      let line := trim l in
      if isHeadingLine line then
        let paragraphs' :=
          if nonBlank currentParagraph then paragraphs ++ [trim currentParagraph]
          else paragraphs in
        groupLines rest (paragraphs' ++ [line]) []
      else
        match currentParagraph with
        | _ :: _ => groupLines rest paragraphs (joinSpace currentParagraph line)
        | [] => groupLines rest paragraphs line
        end
  end.

(** The re-split of route.ts lines 166-195. *)
Definition regroup (normalizedContent : JsString) : list JsString :=
  groupLines (List.filter nonBlank (splitChar LF [] normalizedContent)) [] [].

(** The paragraphs of [generateWhitepaperPDF] (route.ts lines 154-201). *)
Definition pdfParagraphs (content : JsString) : list JsString :=
  let normalizedContent := normalizeNewlines content in
  let paragraphs := List.filter nonBlank (splitBlankLines [] 0 normalizedContent) in
  let paragraphs :=
    if (length paragraphs <? 5)%nat then regroup normalizedContent else paragraphs in
  if (length paragraphs =? 0)%nat && nonBlank content then [trim content]
  else paragraphs.

End Segmentation.
Export Segmentation.


(* ===================================================================== *)
(** * The PDF pagination engine [generateWhitepaperPDF]                  *)
(* ===================================================================== *)

Module Pdf.

Local Open Scope Q_scope.

(** An entry of the [images] array. *)
Record Image := { pageIndex : nat; base64 : JsString }.

(** The two embedded fonts: [font] and [helveticaBold]. *)
Inductive Font := Helvetica | HelveticaBold.

(** What pdf-lib is asked to draw on a page. *)
Inductive DrawOp :=
| DrawText (text : JsString) (x y size : Q) (font : Font)
| DrawImage (image : Image) (x y imageWidth imageHeight : Q).

(** A page of the document: the size given to [addPage] and the drawing
    calls made on it, oldest first. *)
Record Page := { pageSize : Q * Q; pageOps : list DrawOp }.

(** [pdfDoc.addPage([612, 792])] returns this page. *)
Definition blankPage : Page := {| pageSize := (612, 792); pageOps := [] |}.

(** [currentPage.getSize()] of the first page (route.ts line 124). *)
Definition width : Q := fst (pageSize blankPage).
Definition height : Q := snd (pageSize blankPage).

(** The layout constants of route.ts lines 127-146. *)
Definition margin : Q := 72.
Definition topMargin : Q := 72.
Definition bottomMargin : Q := 72.
Definition fontSize : Q := 12.
Definition headingFontSize : Q := 18.
Definition subHeadingFontSize : Q := 16.
Definition bodyLineHeight : Q := fontSize * 1.5.
Definition headingLineHeight : Q := headingFontSize * 1.2.
Definition subHeadingLineHeight : Q := subHeadingFontSize * 1.3.
Definition paragraphSpacing : Q := 16.
Definition headingTopMargin : Q := 24.
Definition headingBottomMargin : Q := 12.
Definition subHeadingTopMargin : Q := 20.
Definition subHeadingBottomMargin : Q := 10.

(** [a < b] and [a > b] on numbers. *)
Definition Qltb (a b : Q) : bool := negb (Qle_bool b a).
Definition Qgtb (a b : Q) : bool := Qltb b a.

(** The mutable variables of the generator. [pdfDoc] is [donePages] followed
    by [currentPage]: [currentPage] is always the page added last. *)
Record PdfState := {
  donePages : list Page;
  currentPage : Page;
  yPosition : Q;
  currentPageIndex : nat;
  imagesPlacedOnPage : gset nat
}.

(** The pages of [pdfDoc], first page first. *)
Definition pdfPages (st : PdfState) : list Page := donePages st ++ [currentPage st].

(** [currentPage.drawText(...)] and [currentPage.drawImage(...)]. *)
Definition draw (op : DrawOp) (st : PdfState) : PdfState :=
  {| donePages := donePages st;
     currentPage := {| pageSize := pageSize (currentPage st);
                       pageOps := pageOps (currentPage st) ++ [op] |};
     yPosition := yPosition st;
     currentPageIndex := currentPageIndex st;
     imagesPlacedOnPage := imagesPlacedOnPage st |}.

Definition setY (y : Q) (st : PdfState) : PdfState :=
  {| donePages := donePages st;
     currentPage := currentPage st;
     yPosition := y;
     currentPageIndex := currentPageIndex st;
     imagesPlacedOnPage := imagesPlacedOnPage st |}.

(** The three statements
      [currentPage = pdfDoc.addPage([612, 792]);]
      [yPosition = height - topMargin;]
      [currentPageIndex++;] *)
Definition addPage (st : PdfState) : PdfState :=
  {| donePages := donePages st ++ [currentPage st];
     currentPage := blankPage;
     yPosition := height - topMargin;
     currentPageIndex := S (currentPageIndex st);
     imagesPlacedOnPage := imagesPlacedOnPage st |}.

(** [imagesPlacedOnPage.add(pageIndex)] *)
Definition markPlaced (p : nat) (st : PdfState) : PdfState :=
  {| donePages := donePages st;
     currentPage := currentPage st;
     yPosition := yPosition st;
     currentPageIndex := currentPageIndex st;
     imagesPlacedOnPage := {[ p ]} ∪ imagesPlacedOnPage st |}.

(** Lines 249-265: fit the image into the text width and into 40% of the
    page height, keeping its proportions. *)
Definition maxImageWidth : Q := width - margin * 2.
Definition maxImageHeight : Q := height * 0.4.

Definition scaleImage (w h : Q) : Q * Q :=
  let '(w1, h1) :=
    if Qgtb w maxImageWidth
    then let scale := maxImageWidth / w in (w * scale, h * scale)
    else (w, h) in
  if Qgtb h1 maxImageHeight
  then let scale := maxImageHeight / h1 in (w1 * scale, h1 * scale)
  else (w1, h1).

(** ** Markdown detection and cleaning (route.ts lines 299-350) *)

(** [s.match(/^(#{1,3})\s+(.+)$/)]: the two groups of the match. [\s+] takes
    the whole run of white space after the marker; [(.+)$] must then reach
    the end of the string without a line terminator. When nothing follows
    the white space the engine backtracks by one character, which becomes
    the second group. *)
Definition headingMatch (s : JsString) : option (JsString * JsString) :=
  let '(hashes, r) := span isHash s in
  if (1 <=? length hashes)%nat && (length hashes <=? 3)%nat then
    let '(ws, rest) := span isWhiteSpace r in
    match ws with
    | [] => None
    | _ :: _ =>
        match rest with
        | _ :: _ => if existsb isLineTerminator rest then None else Some (hashes, rest)
        | [] =>
            match rev ws with
            | c :: _ :: _ => if isLineTerminator c then None else Some (hashes, [c])
            | _ => None
            end
        end
    end
  else None.

(** [s.replace(/^#+\s*/gm, '')]. The scan is in one of three modes: outside
    a match ([Scan], knowing whether a line starts here), inside the [#+] of
    a match, or inside its [\s*] (knowing whether the character just
    consumed ended a line, so that a new match may start right after). *)
Inductive StripMode :=
| Scan (atLineStart : bool)
| InHashes
| InSpaces (afterTerminator : bool).

Fixpoint stripLineHashes (m : StripMode) (s : JsString) : JsString :=
  match s with
  | [] => []
  | c :: r =>
      match m with
      | Scan atLineStart =>
          if atLineStart && isHash c then stripLineHashes InHashes r
          else c :: stripLineHashes (Scan (isLineTerminator c)) r
      | InHashes =>
          if isHash c then stripLineHashes InHashes r
          else if isWhiteSpace c then stripLineHashes (InSpaces (isLineTerminator c)) r
          else c :: stripLineHashes (Scan (isLineTerminator c)) r
      | InSpaces afterTerminator =>
          if isWhiteSpace c then stripLineHashes (InSpaces (isLineTerminator c)) r
          else if afterTerminator && isHash c then stripLineHashes InHashes r
          else c :: stripLineHashes (Scan (isLineTerminator c)) r
      end
  end.

(** Lines 327-330, applied to headings and body text alike. *)
Definition removeEmphasis (s : JsString) : JsString :=
  replaceChar UNDERSCORE SP
    (removeChar STAR (removePairs UNDERSCORE (removePairs STAR s))).

(** Lines 313-338: the text of the paragraph before the validation step. *)
Definition cleanParagraph (originalParagraph : JsString)
    (headingMatch : option (JsString * JsString)) : JsString :=
  let cleanedParagraph :=
    match headingMatch with
    | Some (_, (_ :: _) as title) => trim title
    | _ => removeChar HASH (stripLineHashes (Scan true) originalParagraph)
    end in
  let cleanedParagraph := removeEmphasis cleanedParagraph in
  let textToRender := trim cleanedParagraph in
  let textToRender := removeChar CR (replaceChar LF SP textToRender) in
  trim (collapseWs false textToRender).

(** Lines 343-350: the forced second cleaning. *)
Definition validateText (textToRender : JsString) : JsString :=
  if includesChar HASH textToRender || includesPair STAR textToRender
     || includesPair UNDERSCORE textToRender
  then trim (removeChar STAR (removePairs UNDERSCORE (removePairs STAR
               (removeChar HASH textToRender))))
  else textToRender.

(** The three flags of lines 308-310. *)
Record Flags := { isHeading : bool; isSubHeading : bool; isSubSubHeading : bool }.

Definition headingFlags (headingMatch : option (JsString * JsString)) : Flags :=
  match headingMatch with
  | Some (hashes, _) =>
      {| isHeading := bool_decide (hashes = js "#");
         isSubHeading := bool_decide (hashes = js "##");
         isSubSubHeading := bool_decide (hashes = js "###") |}
  | None => {| isHeading := false; isSubHeading := false; isSubSubHeading := false |}
  end.

Definition anyHeading (f : Flags) : bool :=
  isHeading f || isSubHeading f || isSubSubHeading f.

(** Lines 381-390 and 392. *)
Definition textSizeOf (f : Flags) : Q :=
  if isHeading f then headingFontSize
  else if isSubHeading f then subHeadingFontSize
  else if isSubSubHeading f then 14
  else fontSize.

Definition lineHeightOf (f : Flags) : Q :=
  if isHeading f then headingLineHeight
  else if isSubHeading f then subHeadingLineHeight
  else bodyLineHeight.

(** Lines 402, 412 and 444. *)
Definition fontOf (f : Flags) : Font :=
  if anyHeading f then HelveticaBold else Helvetica.

(** Line 394. *)
Definition wordsOf (textToRender : JsString) : list JsString :=
  List.filter nonBlank (splitChar SP [] textToRender).

Section Generator.

(** pdf-lib's [font.widthOfTextAtSize(text, size)] for a text the font can
    encode. *)
Variable widthOfTextAtSize : Font -> JsString -> Q -> Q.

(** Both fonts are standard fonts with the WinAnsi encoding, and pdf-lib
    encodes a text before it measures or draws it: the message of the error
    thrown for a character that WinAnsi lacks, [None] for a character it
    has. *)
Variable encodingError : ascii -> option JsString.

(** pdf-lib's [embedPng], then [embedJpg] when that throws: the pixel size
    of the decoded image, or [None] when both throw. *)
Variable embedImage : JsString -> option (N * N).

(** The array [images], a parameter of [generateWhitepaperPDF] that the
    helper below reads. *)
Variable images : list Image.

(** Lines 215-291. *)
Definition placeImageIfNeeded (pageIndex_ : nat) (st : PdfState) : PdfState :=
  if bool_decide (pageIndex_ ∈ imagesPlacedOnPage st) then st
  else
    match List.find (fun img => Nat.eqb (pageIndex img) pageIndex_) images with
    | None => st
    | Some imageForPage =>
        match embedImage (base64 imageForPage) with
        | None => st
        | Some (w, h) =>
            let '(imageWidth, imageHeight) :=
              scaleImage (inject_Z (Z.of_N w)) (inject_Z (Z.of_N h)) in
            let st :=
              if Qltb (yPosition st - imageHeight - paragraphSpacing) bottomMargin
              then addPage st else st in
            let st :=
              draw (DrawImage imageForPage
                      (margin + (maxImageWidth - imageWidth) / 2)
                      (yPosition st - imageHeight) imageWidth imageHeight) st in
            let st := setY (yPosition st - (imageHeight + paragraphSpacing * 1.5)) st in
            markPlaced pageIndex_ st
        end
    end.

(** The page break written out three times in the main loop (lines 357-361,
    370-374 and 425-429): a new page, then the image of that page. *)
Definition breakPage (st : PdfState) : PdfState :=
  let st := addPage st in
  placeImageIfNeeded (currentPageIndex st) st.

(** Lines 367-375, and again lines 423-430 inside the wrapping loop, where
    [lineHeight] is the same expression as [requiredLineHeight]. *)
Definition ensureRoom (f : Flags) (st : PdfState) : PdfState :=
  let requiredLineHeight := lineHeightOf f in
  if Qltb (yPosition st - requiredLineHeight) bottomMargin
  then breakPage st else st.

(** One turn of the line-wrapping loop (lines 397-436). *)
Definition wrapWord (f : Flags) (acc : JsString * PdfState) (word : JsString)
    : JsString * PdfState :=
  let '(currentLine, st) := acc in
  let testLine :=
    match currentLine with _ :: _ => joinSpace currentLine word | [] => word end in
  let cleanTestLine := blankControl testLine in
  let textWidth := widthOfTextAtSize (fontOf f) cleanTestLine (textSizeOf f) in
  if Qgtb textWidth (width - margin * 2) then
    match currentLine with
    | _ :: _ =>
        let cleanLine := trim (blankControl currentLine) in
        let st :=
          match cleanLine with
          | _ :: _ =>
              let st := draw (DrawText cleanLine margin (yPosition st)
                                (textSizeOf f) (fontOf f)) st in
              setY (yPosition st - lineHeightOf f) st
          | [] => st
          end in
        (word, ensureRoom f st)
    | [] => (word, st)
    end
  else (testLine, st).

(** Lines 438-457: the last line of the paragraph. *)
Definition flushLine (f : Flags) (currentLine : JsString) (st : PdfState) : PdfState :=
  match currentLine with
  | _ :: _ =>
      let cleanLine := trim (blankControl currentLine) in
      match cleanLine with
      | _ :: _ =>
          let st := draw (DrawText cleanLine margin (yPosition st)
                            (textSizeOf f) (fontOf f)) st in
          let bottomSpacing :=
            if isHeading f then headingBottomMargin
            else if isSubHeading f || isSubSubHeading f then subHeadingBottomMargin
            else paragraphSpacing in
          setY (yPosition st - (lineHeightOf f + bottomSpacing)) st
      | [] => st
      end
  | [] => st
  end.

(** Lines 353-365: the space above a heading that is not the first
    paragraph. *)
Definition headingSpacing (f : Flags) (i : nat) (st : PdfState) : PdfState :=
  if anyHeading f && (0 <? i)%nat then
    let topSpacing :=
      if isHeading f then headingTopMargin
      else if isSubHeading f || isSubSubHeading f then subHeadingTopMargin
      else 0 in
    if Qltb (yPosition st - topSpacing) (bottomMargin + bodyLineHeight)
    then breakPage st
    else if Qgtb topSpacing 0 then setY (yPosition st - topSpacing) st
    else st
  else st.

(** Lines 352-457 for a paragraph whose text is [textToRender]. *)
Definition renderParagraph (f : Flags) (i : nat) (textToRender : JsString)
    (st : PdfState) : PdfState :=
  let st := headingSpacing f i st in
  let st := ensureRoom f st in
  let words := wordsOf textToRender in
  let '(currentLine, st) := fold_left (wrapWord f) words ([], st) in
  flushLine f currentLine st.

(** The body of the main loop (lines 294-459) for [paragraphs[i]]. *)
Definition processParagraph (i : nat) (paragraph : JsString) (st : PdfState)
    : PdfState :=
  let originalParagraph := trim paragraph in
  let trimmedStart := trimStart originalParagraph in
  let headingMatch := headingMatch trimmedStart in
  let f := headingFlags headingMatch in
  let textToRender := cleanParagraph originalParagraph headingMatch in
  match textToRender with
  | [] => st
  | _ :: _ => renderParagraph f i (validateText textToRender) st
  end.

(** [for (let i = 0; i < paragraphs.length; i++)], entered at index [i] with
    [paragraphs.slice(i)] still to do. *)
Fixpoint paragraphLoop (i : nat) (paragraphs : list JsString) (st : PdfState)
    : PdfState :=
  match paragraphs with
  | [] => st
  | paragraph :: rest => paragraphLoop (S i) rest (processParagraph i paragraph st)
  end.

(** Lines 119-150: one blank page, the cursor below the top margin. *)
Definition initialState : PdfState :=
  {| donePages := [];
     currentPage := blankPage;
     yPosition := height - topMargin;
     currentPageIndex := 0;
     imagesPlacedOnPage := ∅ |}.

(** ** The loop with the encoder of pdf-lib *)

(** The text is encoded character by character; the first character that
    cannot be encoded throws. *)
Fixpoint encodeText (text : JsString) : Outcome unit :=
  match text with
  | [] => Returned tt
  | c :: rest =>
      match encodingError c with
      | Some message => Thrown message
      | None => encodeText rest
      end
  end.

(** A statement that hands [text] to pdf-lib, [widthOfTextAtSize] or
    [drawText], and goes on with [k] when that does not throw. *)
Definition encoded {A} (text : JsString) (k : Outcome A) : Outcome A :=
  match encodeText text with
  | Returned _ => k
  | Thrown message => Thrown message
  end.

(** The functions above, from [wrapWord] to [paragraphLoop], are the
    statements of the loop in a run in which pdf-lib encodes every text.
    Nothing in [generateWhitepaperPDF] catches what [widthOfTextAtSize]
    (line 402) and [drawText] (lines 412 and 444) throw: the functions below
    are the same statements with these throws. *)
Definition wrapWordOrThrow (f : Flags) (acc : JsString * PdfState) (word : JsString)
    : Outcome (JsString * PdfState) :=
  let '(currentLine, st) := acc in
  let testLine :=
    match currentLine with _ :: _ => joinSpace currentLine word | [] => word end in
  let cleanTestLine := blankControl testLine in
  encoded cleanTestLine
    (let textWidth := widthOfTextAtSize (fontOf f) cleanTestLine (textSizeOf f) in
     if Qgtb textWidth (width - margin * 2) then
       match currentLine with
       | _ :: _ =>
           let cleanLine := trim (blankControl currentLine) in
           match cleanLine with
           | _ :: _ => encoded cleanLine (Returned (wrapWord f (currentLine, st) word))
           | [] => Returned (wrapWord f (currentLine, st) word)
           end
       | [] => Returned (wrapWord f (currentLine, st) word)
       end
     else Returned (wrapWord f (currentLine, st) word)).

Definition flushLineOrThrow (f : Flags) (currentLine : JsString) (st : PdfState)
    : Outcome PdfState :=
  match currentLine with
  | _ :: _ =>
      let cleanLine := trim (blankControl currentLine) in
      match cleanLine with
      | _ :: _ => encoded cleanLine (Returned (flushLine f currentLine st))
      | [] => Returned (flushLine f currentLine st)
      end
  | [] => Returned (flushLine f currentLine st)
  end.

(** [for (const word of words)] with a body that may throw. *)
Fixpoint wrapLoopOrThrow (f : Flags) (words : list JsString) (acc : JsString * PdfState)
    : Outcome (JsString * PdfState) :=
  match words with
  | [] => Returned acc
  | word :: rest =>
      match wrapWordOrThrow f acc word with
      | Returned acc' => wrapLoopOrThrow f rest acc'
      | Thrown message => Thrown message
      end
  end.

Definition renderParagraphOrThrow (f : Flags) (i : nat) (textToRender : JsString)
    (st : PdfState) : Outcome PdfState :=
  let st := headingSpacing f i st in
  let st := ensureRoom f st in
  let words := wordsOf textToRender in
  match wrapLoopOrThrow f words ([], st) with
  | Returned (currentLine, st) => flushLineOrThrow f currentLine st
  | Thrown message => Thrown message
  end.

Definition processParagraphOrThrow (i : nat) (paragraph : JsString) (st : PdfState)
    : Outcome PdfState :=
  let originalParagraph := trim paragraph in
  let trimmedStart := trimStart originalParagraph in
  let headingMatch := headingMatch trimmedStart in
  let f := headingFlags headingMatch in
  let textToRender := cleanParagraph originalParagraph headingMatch in
  match textToRender with
  | [] => Returned st
  | _ :: _ => renderParagraphOrThrow f i (validateText textToRender) st
  end.

Fixpoint paragraphLoopOrThrow (i : nat) (paragraphs : list JsString) (st : PdfState)
    : Outcome PdfState :=
  match paragraphs with
  | [] => Returned st
  | paragraph :: rest =>
      match processParagraphOrThrow i paragraph st with
      | Returned st' => paragraphLoopOrThrow (S i) rest st'
      | Thrown message => Thrown message
      end
  end.

(** [generateWhitepaperPDF(content, images, numPages)]. The value returned
    stands for the saved document: its pages. It throws on a blank content
    and when pdf-lib cannot encode a text of the document. *)
Definition generateWhitepaperPDF (content : JsString) (numPages : JsNumber)
    : Outcome (list Page) :=
  if negb (nonBlank content)
  then Thrown (js "Cannot generate PDF: content is empty")
  else
    match paragraphLoopOrThrow 0 (pdfParagraphs content) initialState with
    | Returned st => Returned (pdfPages st)
    | Thrown message => Thrown message
    end.

End Generator.

End Pdf.
Export Pdf.

(* ===================================================================== *)
(** * The DOCX generator [generateWhitepaperDOCX]                        *)
(* ===================================================================== *)

Module Docx.

Local Open Scope Z_scope.

Inductive HeadingLevel := HEADING_1 | HEADING_2.

Inductive AlignmentType := CENTER.

(** [new TextRun({ text, bold, italics, color, size })] *)
Record TextRun := {
  text : JsString;
  bold : bool;
  italics : bool;
  color : option JsString;
  size : Z
}.

(** [new Paragraph({ children: [run], heading, alignment, spacing })] *)
Record Paragraph := {
  run : TextRun;
  heading : option HeadingLevel;
  alignment : option AlignmentType;
  spacingBefore : option Z;
  spacingAfter : Z
}.

(** [n.toString()] for a number of the loop. *)
Definition showNat (n : nat) : JsString :=
  list_ascii_of_string (NilZero.string_of_uint (Nat.to_uint n)).

(** Lines 498-511: the text that stands for an image. *)
Definition placeholder (img : Image) : Paragraph :=
  {| run :=
       {| text := js "[Image " ++ showNat (pageIndex img + 1) ++
                  js ": Visual representation - " ++
                  showNat (pageIndex img * 100 + 50) ++ js "px wide]";
          bold := false;
          italics := true;
          color := Some (js "666666");
          size := 20 |};
     heading := None;
     alignment := Some CENTER;
     spacingBefore := Some 200;
     spacingAfter := 200 |}.

(** [images.forEach(img => ...)] of lines 493-518: a placeholder for every
    image of the estimated page whose page index has none yet. The state is
    [children] and [imagesPlaced]. *)
Fixpoint placeImages (currentEstimatedPage : nat) (images : list Image)
    (children : list Paragraph) (imagesPlaced : gset nat)
    : list Paragraph * gset nat :=
  match images with
  | [] => (children, imagesPlaced)
  | img :: rest =>
      if Nat.eqb (pageIndex img) currentEstimatedPage
         && negb (bool_decide (pageIndex img ∈ imagesPlaced))
      then placeImages currentEstimatedPage rest (children ++ [placeholder img])
             ({[ pageIndex img ]} ∪ imagesPlaced)
      else placeImages currentEstimatedPage rest children imagesPlaced
  end.

(** Lines 521-524. *)
Definition removeMarkdown (paragraph : JsString) : JsString :=
  replaceChar UNDERSCORE SP
    (removeChar STAR (removePairs UNDERSCORE (removePairs STAR paragraph))).

(** [s.trim().startsWith(prefix)] *)
Definition trimmedStartsWith (prefix s : JsString) : bool := startsWith prefix (trim s).

(** [s.replace(/^#+\s*/, '')]: without the [m] flag the expression matches
    at the start of the string only. *)
Definition stripMarker (s : JsString) : JsString :=
  match span isHash s with
  | ([], _) => s
  | (_ :: _, r) => snd (span isWhiteSpace r)
  end.

(** Lines 520-543: the paragraph made from a piece of the content. *)
Definition textParagraph (paragraph : JsString) : Paragraph :=
  let cleanParagraph := removeMarkdown paragraph in
  let isHeading := trimmedStartsWith (js "#") cleanParagraph in
  let isSubHeading := trimmedStartsWith (js "##") cleanParagraph in
  let textToRender := stripMarker cleanParagraph in
  {| run :=
       {| text := textToRender;
          bold := isHeading || isSubHeading;
          italics := false;
          color := None;
          size := if isHeading then 18 else if isSubHeading then 16 else 12 |};
     heading :=
       if isHeading then Some HEADING_1
       else if isSubHeading then Some HEADING_2 else None;
     alignment := None;
     spacingBefore := None;
     spacingAfter := if isHeading then 200 else 100 |}.

(** The main loop (lines 488-551), entered at index [i] with
    [paragraphs.slice(i)] still to do. *)
Fixpoint docxLoop (images : list Image) (i : nat) (paragraphs : list JsString)
    (children : list Paragraph) (imagesPlaced : gset nat) : list Paragraph :=
  match paragraphs with
  | [] => children
  | paragraph :: rest =>
      let currentEstimatedPage := (i / 50)%nat in
      let '(children, imagesPlaced) :=
        placeImages currentEstimatedPage images children imagesPlaced in
      docxLoop images (S i) rest (children ++ [textParagraph paragraph]) imagesPlaced
  end.

(** [generateWhitepaperDOCX(content, images, numPages)]: the [children] of
    the only section of the document. *)
Definition generateWhitepaperDOCX (content : JsString) (images : list Image)
    (numPages : JsNumber) : list Paragraph :=
  docxLoop images 0 (docxParagraphs content) [] ∅.

End Docx.

(* ===================================================================== *)
(** * The PPTX generator [generateWhitepaperPPT]                         *)
(* ===================================================================== *)

Module Pptx.

Local Open Scope Q_scope.

(** What pptxgenjs is asked to put on a slide. *)
Inductive SlideOp :=
| AddText (text : JsString) (x y w h : Q) (fontSize : Z) (bold : bool) (centered : bool)
| AddImage (image : Image) (x y w h : Q).

(** The variables of the generator: the slides added before the current
    one, the calls made on the current [slide], [currentSlideIndex] and
    [imagesPlaced]. *)
Record PptState := {
  doneSlides : list (list SlideOp);
  slide : list SlideOp;
  currentSlideIndex : nat;
  imagesPlaced : gset nat
}.

(** The slides of the presentation, first slide first. *)
Definition slides (st : PptState) : list (list SlideOp) := doneSlides st ++ [slide st].

(** [slide = pptx.addSlide(); currentSlideIndex++;] *)
Definition newSlide (st : PptState) : PptState :=
  {| doneSlides := doneSlides st ++ [slide st];
     slide := [];
     currentSlideIndex := S (currentSlideIndex st);
     imagesPlaced := imagesPlaced st |}.

Definition addOp (op : SlideOp) (st : PptState) : PptState :=
  {| doneSlides := doneSlides st;
     slide := slide st ++ [op];
     currentSlideIndex := currentSlideIndex st;
     imagesPlaced := imagesPlaced st |}.

Definition markPlaced (p : nat) (st : PptState) : PptState :=
  {| doneSlides := doneSlides st;
     slide := slide st;
     currentSlideIndex := currentSlideIndex st;
     imagesPlaced := {[ p ]} ∪ imagesPlaced st |}.

(** Lines 601-605: the image for the current slide. *)
Definition imageForSlide (images : list Image) (st : PptState) : option Image :=
  List.find
    (fun img =>
       Nat.eqb (pageIndex img + 1) (currentSlideIndex st)
       && negb (bool_decide (pageIndex img ∈ imagesPlaced st)))
    images.

(** The body of the main loop (lines 592-643). *)
Definition addParagraph (images : list Image) (paragraph : JsString) (st : PptState)
    : PptState :=
  let st :=
    if Docx.trimmedStartsWith (js "#") paragraph && (0 <? currentSlideIndex st)%nat
    then newSlide st else st in
  let found := imageForSlide images st in
  let st :=
    match found with
    | Some img =>
        if negb (bool_decide (pageIndex img ∈ imagesPlaced st))
        then markPlaced (pageIndex img) (addOp (AddImage img 1 2 8 4.5) st)
        else st
    | None => st
    end in
  let cleanParagraph := Docx.removeMarkdown paragraph in
  let isHeading := Docx.trimmedStartsWith (js "#") cleanParagraph in
  let isSubHeading := Docx.trimmedStartsWith (js "##") cleanParagraph in
  let textToRender := firstn 500 (Docx.stripMarker cleanParagraph) in
  if nonBlank textToRender then
    addOp (AddText textToRender 0.5
             (match found with Some _ => 6.5 | None => if isHeading then 1.5 else 2 end)
             9
             (match found with Some _ => 2 | None => 4 end)
             (if isHeading then 18 else if isSubHeading then 16 else 12)%Z
             (isHeading || isSubHeading) false) st
  else st.

(** [currentSlideIndex < numSlides]: the handler passes the [numPages] of
    the request as it is, so [numSlides] can be any number. *)
Definition indexBelow (currentSlideIndex : nat) (numSlides : JsReal) : bool :=
  match numSlides with
  | Real q => Qltb (inject_Z (Z.of_nat currentSlideIndex)) q
  | PlusInfinity => true
  | MinusInfinity => false
  | NotANumber => false
  end.

(** [for (let i = 0; i < paragraphs.length && currentSlideIndex < numSlides;
    i++)] with [paragraphs.slice(i)] still to do. *)
Fixpoint pptLoop (images : list Image) (numSlides : JsReal)
    (paragraphs : list JsString) (st : PptState) : PptState :=
  match paragraphs with
  | [] => st
  | paragraph :: rest =>
      if indexBelow (currentSlideIndex st) numSlides
      then pptLoop images numSlides rest (addParagraph images paragraph st)
      else st
  end.

(** Lines 572-589: the title slide. *)
Definition titleSlide (paragraphs : list JsString) : PptState :=
  let firstHeading := List.find (Docx.trimmedStartsWith (js "#")) paragraphs in
  {| doneSlides := [];
     slide :=
       match firstHeading with
       | Some h => [AddText (Docx.stripMarker h) 0.5 1.5 9 1.5 44 true true]
       | None => []
       end;
     currentSlideIndex := 1;
     imagesPlaced := ∅ |}.

(** [generateWhitepaperPPT(content, images, numSlides)]: the slides of the
    presentation. *)
Definition generateWhitepaperPPT (content : JsString) (images : list Image)
    (numSlides : JsReal) : list (list SlideOp) :=
  let paragraphs := pptParagraphs content in
  slides (pptLoop images numSlides paragraphs (titleSlide paragraphs)).

End Pptx.

(* ===================================================================== *)
(** * Observations on a generated document                               *)
(* ===================================================================== *)

Module PdfSpec.

Local Open Scope Q_scope.

Definition imageOf (op : DrawOp) : option Image :=
  match op with DrawImage img _ _ _ _ => Some img | DrawText _ _ _ _ _ => None end.

(** The images drawn on a page, in drawing order. *)
Definition pageImages (p : Page) : list Image := omap imageOf (pageOps p).

(** [images.find(img => img.pageIndex === idx)] *)
Definition taggedFor (images : list Image) (idx : nat) : option Image :=
  List.find (fun img => Nat.eqb (pageIndex img) idx) images.

(** The images a page reached by a page break carries: the first image
    tagged with its index, when pdf-lib can decode it. *)
Definition imageAtBreak (embedImage : JsString -> option (N * N))
    (images : list Image) (idx : nat) : list Image :=
  match taggedFor images idx with
  | Some img =>
      match embedImage (base64 img) with Some _ => [img] | None => [] end
  | None => []
  end.

(** The first page is not reached by a page break. *)
Definition imagesOfPage (embedImage : JsString -> option (N * N))
    (images : list Image) (idx : nat) : list Image :=
  match idx with
  | O => []
  | S _ => imageAtBreak embedImage images idx
  end.

(** A text line drawn between the bottom margin and the top margin. *)
Definition textInBounds (op : DrawOp) : Prop :=
  match op with
  | DrawText _ _ y _ _ => 72 <= y /\ y <= 720
  | DrawImage _ _ _ _ _ => True
  end.

Definition letterSize (p : Page) : Prop := pageSize p = (612, 792).

(** What holds of the generator's variables between two statements of the
    main loop. *)
Record Inv (embedImage : JsString -> option (N * N)) (images : list Image)
    (st : PdfState) : Prop := {
  inv_index : currentPageIndex st = length (donePages st);
  inv_cursor : yPosition st <= 720;
  inv_sizes : Forall letterSize (pdfPages st);
  inv_text : Forall (fun p => Forall textInBounds (pageOps p)) (pdfPages st);
  inv_images : forall idx p, pdfPages st !! idx = Some p ->
      pageImages p = imagesOfPage embedImage images idx;
  inv_placed : forall p, p ∈ imagesPlacedOnPage st -> (p <= currentPageIndex st)%nat
}.

(** ** The text of a document *)

(** The text, size and font of a text line; the position is dropped. *)
Definition textOf (op : DrawOp) : option (JsString * Q * Font) :=
  match op with
  | DrawText text _ _ size font => Some (text, size, font)
  | DrawImage _ _ _ _ _ => None
  end.

(** The text lines of a document in reading order: page after page, and on
    a page in drawing order. *)
Definition drawnText (pages : list Page) : list (JsString * Q * Font) :=
  omap textOf (concat (map pageOps pages)).

(** The text lines drawn so far. *)
Definition stateText (st : PdfState) : list (JsString * Q * Font) :=
  drawnText (pdfPages st).


(** The value of [currentLine] after the words of [g] were appended to an
    empty line one by one. *)
Definition joinWords (g : list JsString) : JsString :=
  match g with
  | [] => []
  | w :: ws => fold_left joinSpace ws w
  end.

(** The text drawn for a line made of the words [g] (lines 408 and 440). *)
Definition lineOf (g : list JsString) : JsString := trim (blankControl (joinWords g)).

(** The line drawn for the words [g], if it is not empty. *)
Definition lineEntries (f : Flags) (g : list JsString) : list (JsString * Q * Font) :=
  match lineOf g with
  | [] => []
  | _ :: _ => [(lineOf g, textSizeOf f, fontOf f)]
  end.


Definition paragraphText (paragraph : JsString) : JsString :=
  validateText (cleanParagraph (trim paragraph)
                  (headingMatch (trimStart (trim paragraph)))).





(** White space appears in the text as single space characters only. *)
Definition spacedOnly (s : JsString) : Prop :=
  Forall (fun c => isWhiteSpace c = true -> c = SP) s.

(** A word as the wrapping loop sees it: not empty, no white space. *)
Definition solidWord (w : JsString) : Prop :=
  w <> [] /\ Forall (fun c => isWhiteSpace c = false) w.

End PdfSpec.
Export PdfSpec.

(* ===================================================================== *)
(** * What the segmentations are meant to compute                        *)
(* ===================================================================== *)

Module SegmentationSpec.

(** Two line feeds next to each other. *)
Fixpoint blankLineIn (s : JsString) : Prop :=
  match s with
  | [] => False
  | a :: t =>
      match t with
      | [] => False
      | b :: _ => (a = LF /\ b = LF) \/ blankLineIn t
      end
  end.

(** [pieces] are the pieces of [s] between its runs of two or more line
    feeds: a piece has no two line feeds in a row, and a run is as long as
    it can be, so that the piece before it does not end and the rest after
    it does not begin with a line feed. *)
Inductive splitAtBlankLines : JsString -> list JsString -> Prop :=
| split_end piece :
    ~ blankLineIn piece ->
    splitAtBlankLines piece [piece]
| split_run piece k rest pieces :
    ~ blankLineIn piece -> List.last piece SP <> LF ->
    (2 <= k)%nat ->
    hd SP rest <> LF ->
    splitAtBlankLines rest pieces ->
    splitAtBlankLines (piece ++ repeat LF k ++ rest) (piece :: pieces).

(** A piece made of white space only; the empty piece is one. *)
Definition whitespaceOnly (piece : JsString) : Prop :=
  Forall (fun c => isWhiteSpace c = true) piece.

(** The pieces with [sep] between them. *)
Fixpoint joinWith (sep : ascii) (pieces : list JsString) : JsString :=
  match pieces with
  | [] => []
  | p :: rest =>
      match rest with
      | [] => p
      | _ :: _ => p ++ sep :: joinWith sep rest
      end
  end.

(** [lines] are the lines of [s]: the pieces between its line feeds. *)
Definition splitAtLineFeeds (s : JsString) (lines : list JsString) : Prop :=
  lines <> [] /\ joinWith LF lines = s /\ Forall (Forall (fun c => c <> LF)) lines.

(** A heading line: one to three [#], then a white-space character. *)
Definition headingLine (line : JsString) : Prop :=
  exists k c rest,
    (1 <= k <= 3)%nat /\ line = repeat HASH k ++ c :: rest /\ isWhiteSpace c = true.

(** [paragraphs] groups [lines]: a heading line is a paragraph of its own,
    and a run of lines that are not headings, as long as it can be, is one
    paragraph, its lines joined by single spaces. *)
Inductive grouped : list JsString -> list JsString -> Prop :=
| grouped_nil : grouped [] []
| grouped_heading line rest paragraphs :
    headingLine line ->
    grouped rest paragraphs ->
    grouped (line :: rest) (line :: paragraphs)
| grouped_run run rest paragraphs :
    run <> [] -> Forall (fun line => ~ headingLine line) run ->
    match rest with [] => True | line :: _ => headingLine line end ->
    grouped rest paragraphs ->
    grouped (run ++ rest) (joinWith SP run :: paragraphs).

(** A text without white space at either end; it is not empty. *)
Definition trimmed (s : JsString) : Prop :=
  isWhiteSpace (hd SP s) = false /\ isWhiteSpace (List.last s SP) = false.

(** A report of a title and two lines, without blank lines. *)
Definition titleAndLines : JsString :=
  js "# Title" ++ [LF] ++ js "first line" ++ [LF] ++ js "  second line".

End SegmentationSpec.

(* ===================================================================== *)
(** * Concrete stand-ins for pdf-lib, used to run the generator          *)
(* ===================================================================== *)

Module Fixture.

Local Open Scope Q_scope.

(** A fixed-pitch font: every character is half the font size wide. *)
Definition halfEm (_ : Font) (text : JsString) (size : Q) : Q :=
  inject_Z (Z.of_nat (length text)) * size * 0.5.

(** An encoder that has every character but the control characters below
    the space. *)
Definition printable (c : ascii) : option JsString :=
  if (nat_of_ascii c <? 32)%nat
  then Some (js "WinAnsi cannot encode a control character")
  else None.

(** Every non-empty payload decodes to an 800 x 600 picture. *)
Definition decode800x600 (data : JsString) : option (N * N) :=
  match data with
  | [] => None
  | _ :: _ => Some (800%N, 600%N)
  end.

(** [n] paragraphs, each the word [line], separated by blank lines. *)
Definition paragraphsOf (n : nat) : JsString :=
  concat (repeat (js "line" ++ [LF; LF]) n).

Definition imageFor (p : nat) : Image := {| pageIndex := p; base64 := js "iVBORw0KGgo=" |}.

(** A document of three pages and the images of a request. *)
Definition exampleImages : list Image := [imageFor 1; imageFor 3; imageFor 0; imageFor 1].
Definition exampleContent : JsString := paragraphsOf 45.

Definition examplePages : list Page :=
  match generateWhitepaperPDF halfEm printable decode800x600 exampleImages exampleContent (Some 3%Z) with
  | Returned pages => pages
  | Thrown _ => []
  end.


(** The cursor near the bottom of a page: no room for a body line. *)
Definition lowState : PdfState :=
  {| donePages := [];
     currentPage := blankPage;
     yPosition := 80;
     currentPageIndex := 0;
     imagesPlacedOnPage := ∅ |}.

(** The only page of a document whose text is the word [Hello]. *)
Definition helloPage : Page :=
  {| pageSize := (612, 792);
     pageOps := [DrawText (js "Hello") 72 720 12 Helvetica] |}.

(** Five paragraphs separated by blank lines, the last one of two lines. *)
Definition fiveParagraphs : JsString :=
  js "a" ++ [LF; LF] ++ js "b" ++ [LF; LF; LF] ++ js "c" ++ [LF; LF] ++
  js "d" ++ [LF; LF] ++ js "e" ++ [LF] ++ js "f".

Definition bodyFlags : Flags :=
  {| isHeading := false; isSubHeading := false; isSubSubHeading := false |}.

End Fixture.

(* ===================================================================== *)
(** * The [POST] handler of the whitepaper route                         *)
(* ===================================================================== *)

Module Handler.

Local Open Scope Z_scope.

(** ** Requests *)

(** A JSON value. *)
#[local] Unset Elimination Schemes.
Inductive Json :=
| JNull
| JBool (b : bool)
| JNumber (n : Z)
| JString (s : JsString)
| JArray (items : list Json)
| JObject (fields : list (JsString * Json)).
#[local] Set Elimination Schemes.

(** The properties read by the destructuring of line 666; [None] is
    [undefined]. From [numPages] on, the handler computes with the
    properties: the model covers the bodies whose [numPages] is an integer
    or is missing and whose [frameworks] is an array of strings or is
    missing (the default [[]]). *)
Record Body := {
  prompt : option Json;
  outputFormat : option Json;
  numPages : JsNumber;
  imageFrequency : option Json;
  writingStyle : option Json;
  frameworks : list JsString
}.

(** What [request.json()] does: it throws, or gives [null], or gives a
    value whose properties can be read. *)
Inductive RequestBody :=
| InvalidJson
| JsonNull
| JsonValue (body : Body).

(** [!!v] *)
Definition truthy (v : option Json) : bool :=
  match v with
  | None => false
  | Some JNull => false
  | Some (JBool b) => b
  | Some (JNumber n) => negb (n =? 0)
  | Some (JString s) => match s with [] => false | _ :: _ => true end
  | Some (JArray _) => true
  | Some (JObject _) => true
  end.

(** [v === 'literal'] *)
Definition isString (literal : JsString) (v : option Json) : bool :=
  match v with
  | Some (JString s) => bool_decide (s = literal)
  | _ => false
  end.

(** ** Responses *)

(** The document handed to the client, before its base64 encoding: what
    the PDF, DOCX and PPTX generators built, or the text itself. *)
Inductive Document :=
| PdfDocument (pages : list Page)
| DocxDocument (children : list Docx.Paragraph)
| PptDocument (slides : list (list Pptx.SlideOp))
| TextDocument (content : JsString).

(** The JSON object of a response. Of an error object the model keeps
    [error] and [message]. *)
Inductive ResponseBody :=
| ErrorBody (error : JsString) (message : option JsString)
| SuccessBody (document : Document) (filename mimeType : JsString)
    (content : option JsString) (numPages : JsNumber)
    (writingStyle : option Json) (frameworks : list JsString)
    (imageFrequency : option Json) (imagesGenerated : nat).

Record Response := { status : Z; responseBody : ResponseBody }.

(** [NextResponse.json({ error }, { status })] *)
Definition errorResponse (status_ : Z) (error : JsString) (message : option JsString)
    : Response :=
  {| status := status_; responseBody := ErrorBody error message |}.

(** ** Calls to the outside *)

Inductive Effect :=
| CallGetEmbedding
| CallQueryPinecone
| CallChatCompletion
| CallGenerateImage (pageIndex : Z)
| BuildDocument (format : JsString).

(** A computation that logs its outside calls and may throw. *)
Definition Run (A : Type) : Type := list Effect -> Outcome A * list Effect.

Definition ret {A} (a : A) : Run A := fun log => (Returned a, log).

Definition bind {A B} (m : Run A) (k : A -> Run B) : Run B :=
  fun log =>
    match m log with
    | (Returned a, log') => k a log'
    | (Thrown e, log') => (Thrown e, log')
    end.

Definition raise {A} (message : JsString) : Run A := fun log => (Thrown message, log).

(** A call to the outside: logged, then its outcome. *)
Definition call {A} (e : Effect) (outcome : Outcome A) : Run A :=
  fun log => (outcome, log ++ [e]).

(** [try { m } catch (error) { handler(error) }] *)
Definition tryCatch {A} (m : Run A) (handler : JsString -> Run A) : Run A :=
  fun log =>
    match m log with
    | (Returned a, log') => (Returned a, log')
    | (Thrown e, log') => handler e log'
    end.

Notation "'do' x <- m ; k" := (bind m (fun x => k))
  (at level 10, x name, m at level 100, k at level 200).

(** [for (const x of items) { state = body(x, state) }] *)
Fixpoint forEach {A S} (items : list A) (body : A -> S -> Run S) (state : S) : Run S :=
  match items with
  | [] => ret state
  | x :: rest => do state' <- body x state ; forEach rest body state'
  end.

(** ** The framework table *)

(** The keys of [frameworkQueries] (lines 13-35). *)
Definition frameworkIds : list JsString :=
  map js
    [ "swot"; "pestel"; "porter"; "value-chain"; "business-model-canvas";
      "competitive-analysis"; "stakeholder-map"; "risk-assessment";
      "market-segmentation"; "technology-roadmap";
      "geogame-design-review-matrix"; "failure-taxonomy";
      "standard-case-study-template";
      "comparative-analysis-failures-vs-successes";
      "success-framework-stress-test"; "do-not-build-checklist";
      "total-addressable-market-tam"; "platform-dependency-risk-assessment";
      "core-loop-analysis" ]%string.

(** The properties that [frameworkQueries], an object literal, inherits
    from [Object.prototype]; all of them are functions or objects. *)
Definition inheritedProperties : list JsString :=
  map js
    [ "constructor"; "hasOwnProperty"; "isPrototypeOf"; "propertyIsEnumerable";
      "toLocaleString"; "toString"; "valueOf"; "__proto__";
      "__defineGetter__"; "__defineSetter__"; "__lookupGetter__";
      "__lookupSetter__" ]%string.

(** [frameworkQueries[frameworkId]] is truthy: for the keys of the table,
    whose queries are non-empty strings, and for the inherited
    properties. *)
Definition hasQuery (frameworkId : JsString) : bool :=
  existsb (fun k => bool_decide (k = frameworkId)) (frameworkIds ++ inheritedProperties).

(** ** The image frequency (lines 1120-1125) *)

Definition isDigit (c : ascii) : bool :=
  let n := nat_of_ascii c in (48 <=? n)%nat && (n <=? 57)%nat.

(** Letters compared without case, as the [i] flag does for ASCII. *)
Definition lower (c : ascii) : ascii :=
  let n := nat_of_ascii c in
  if (65 <=? n)%nat && (n <=? 90)%nat then ascii_of_nat (n + 32) else c.

Fixpoint startsWithNoCase (needle s : JsString) : bool :=
  match needle, s with
  | [], _ => true
  | _ :: _, [] => false
  | a :: needle', b :: s' => chr_eqb (lower a) (lower b) && startsWithNoCase needle' s'
  end.

(** [per\s*(\d+)] at the head of [s]: the second group. *)
Definition matchPer (s : JsString) : option JsString :=
  if startsWithNoCase (js "per") s then
    let '(_, r) := span isWhiteSpace (skipn 3 s) in
    match span isDigit r with
    | ([], _) => None
    | (digits, _) => Some digits
    end
  else None.

(** [.*?per\s*(\d+)]: the lazy [.*?] gives up one character at a time and
    never a line terminator. *)
Fixpoint matchLazyPer (s : JsString) : option JsString :=
  match matchPer s with
  | Some digits => Some digits
  | None =>
      match s with
      | [] => None
      | c :: r => if isLineTerminator c then None else matchLazyPer r
      end
  end.

(** [\s*image.*?per\s*(\d+)] after the first group. *)
Definition matchAfterCount (s : JsString) : option JsString :=
  let '(_, r) := span isWhiteSpace s in
  if startsWithNoCase (js "image") r then matchLazyPer (skipn 5 r) else None.

(** [s.match(/(\d+)\s*image.*?per\s*(\d+)/i)]: the two groups of the
    leftmost match. Every position is tried as the start of the match. *)
Fixpoint matchImageFrequency (s : JsString) : option (JsString * JsString) :=
  match s with
  | [] => None
  | c :: r =>
      let retry := matchImageFrequency r in
      if isDigit c then
        let '(digits, rest) := span isDigit s in
        match matchAfterCount rest with
        | Some digits2 => Some (digits, digits2)
        | None => retry
        end
      else retry
  end.

(** The integer that a string of decimal digits denotes. *)
Definition digitsValue (digits : JsString) : Z :=
  fold_left (fun n c => 10 * n + (Z.of_nat (nat_of_ascii c) - 48)) digits 0.

(** The double nearest to a non-negative integer, ties to the even
    significand: an integer below [2^53] is kept, a larger one keeps its 53
    leading bits. *)
Definition toDouble (n : Z) : Z :=
  if n <? 2 ^ 53 then n
  else
    let e := Z.log2 n - 52 in
    let q := Z.shiftr n e in
    let r := Z.land n (Z.ones e) in
    let half := Z.shiftl 1 (e - 1) in
    Z.shiftl (if (half <? r) || ((r =? half) && Z.odd q) then q + 1 else q) e.

(** [parseInt(digits)] for a string of decimal digits: a number, hence the
    double nearest to the integer denoted. (From 21 digits on an engine may
    read the digits after the 20th as zeros, and from [2^1024] on the
    result is [Infinity]; the model keeps the nearest-double rule there.) *)
Definition parseInt (digits : JsString) : Z := toDouble (digitsValue digits).

(** Lines 1121-1125: [imagesPerCount] and [pagesPerImage]. *)
Definition imageCounts (imageFrequency : option Json) : Z * Z :=
  match imageFrequency with
  | Some (JString s) =>
      match s with
      | [] => (0, 0)
      | _ :: _ =>
          match matchImageFrequency s with
          | Some (g1, g2) => (parseInt g1, parseInt g2)
          | None => (0, 0)
          end
      end
  | _ => (0, 0)
  end.

(** [Math.min(numPages, 50)] *)
Definition minWith50 (numPages : JsNumber) : JsNumber :=
  match numPages with
  | Some n => Some (Z.min n 50)
  | None => None
  end.

(** [content.trim().split(/\s+/).length] *)
Definition countWords (content : JsString) : Z :=
  Z.of_nat (length (splitChar SP [] (collapseWs false (trim content)))).

(** [a < b] on numbers: false when one of them is [NaN]. *)
Definition numLt (a b : JsNumber) : bool :=
  match a, b with
  | Some x, Some y => x <? y
  | _, _ => false
  end.

(** [decimal n]: [n.toString()] for an integer. *)
Definition decimal (n : Z) : JsString :=
  list_ascii_of_string (NilZero.string_of_int (Z.to_int n)).

Section Route.

(** pdf-lib, as in the PDF generator. *)
Variable widthOfTextAtSize : Font -> JsString -> Q -> Q.
Variable encodingError : ascii -> option JsString.
Variable embedImage : JsString -> option (N * N).

(** [getEmbedding(text)]: the embedding, or the error thrown. The model of
    an embedding is [unit]. *)
Variable getEmbedding : option Json -> Outcome unit.
Variable getFrameworkEmbedding : JsString -> Outcome unit.

(** [queryPinecone(embedding, 10)] for the prompt and for a framework. *)
Variable queryPinecone : Outcome unit.
Variable queryFramework : JsString -> Outcome unit.

(** [chatCompletion(messages, undefined, options)]: the answer to the first
    request, and to the continuation request of a round given the text so
    far. The messages themselves are not modelled. *)
Variable chatCompletion : Outcome JsString.
Variable chatContinuation : nat -> JsString -> Outcome JsString.

(** The post-processing of lines 1056-1085, a chain of [replace] calls. *)
Variable postProcess : JsString -> JsString.

(** [generateImage(imagePrompt)] for the attempt with this counter: the
    base64 data, or [None] for [null]. It catches its own errors. *)
Variable generateImage : nat -> Z -> option JsString.

(** [Date.now()] *)
Variable now : Z.

(** Lines 675-714: the knowledge-base queries. A failed query is logged and
    skipped; a failed embedding of the prompt is thrown. *)
Definition queryFrameworkContext (frameworkId : JsString) (_ : unit) : Run unit :=
  if hasQuery frameworkId then
    tryCatch
      (do _ <- call CallGetEmbedding (getFrameworkEmbedding frameworkId) ;
       call CallQueryPinecone (queryFramework frameworkId))
      (fun _ => ret tt)
  else ret tt.

Definition retrieveContext (body : Body) : Run unit :=
  do _ <- call CallGetEmbedding (getEmbedding (prompt body)) ;
  do _ <- tryCatch (call CallQueryPinecone queryPinecone) (fun _ => ret tt) ;
  forEach (frameworks body) queryFrameworkContext tt.

(** [Math.round(numPages * 500 * 0.8)] *)
Definition minWordsRequired (body : Body) : JsNumber :=
  match numPages body with
  | Some n => Some (400 * n)
  | None => None
  end.

(** The [while] loop of lines 956-1002, with [rounds] turns left of the ten
    allowed. It ends when the text is long enough, when a continuation is
    blank or fails, or when the rounds are used up. *)
Fixpoint continuations (rounds : nat) (continuationRound : nat) (body : Body)
    (whitepaperContent : JsString) : Run JsString :=
  match rounds with
  | O => ret whitepaperContent
  | S rounds' =>
      if numLt (Some (countWords whitepaperContent)) (minWordsRequired body) then
        do answer <- tryCatch
            (do continuation <- call CallChatCompletion
                                  (chatContinuation continuationRound whitepaperContent) ;
             ret (Some continuation))
            (fun _ => ret None) ;
        match answer with
        | Some continuation =>
            if nonBlank continuation then
              let whitepaperContent := whitepaperContent ++ [LF; LF] ++ continuation in
              if numLt (Some (countWords whitepaperContent)) (minWordsRequired body)
              then continuations rounds' (S continuationRound) body whitepaperContent
              else ret whitepaperContent
            else ret whitepaperContent
        | None => ret whitepaperContent
        end
      else ret whitepaperContent
  end.

(** Lines 926-1008 inside the [try]: the first answer and its
    continuations. *)
Definition generateContent (body : Body) : Run JsString :=
  do whitepaperContent <- call CallChatCompletion chatCompletion ;
  match whitepaperContent with
  | [] => ret whitepaperContent
  | _ :: _ => continuations 10 0 body whitepaperContent
  end.

(** Lines 1163-1201: one turn of the inner loop. The state of the loops is
    [imageCounter] and [images]. *)
Definition generateOne (totalPages : JsNumber) (basePageIndex : Z) (imgInGroup : nat)
    (state : nat * list Image) : Run (nat * list Image) :=
  let '(imageCounter, images) := state in
  let pageIndex_ := basePageIndex + Z.of_nat imgInGroup in
  if numLt (Some pageIndex_) totalPages then
    let imageCounter := S imageCounter in
    do imageBase64 <- call (CallGenerateImage pageIndex_)
                        (Returned (generateImage imageCounter pageIndex_)) ;
    match imageBase64 with
    | Some data =>
        if (100 <? length data)%nat
        then ret (imageCounter,
                  images ++ [{| pageIndex := Z.to_nat pageIndex_; base64 := data |}])
        else ret (imageCounter, images)
    | None => ret (imageCounter, images)
    end
  else ret (imageCounter, images).

(** Lines 1153-1202: one turn of the outer loop. *)
Definition generateGroup (totalPages : JsNumber) (imagesPerCount pagesPerImage : Z)
    (groupIndex : nat) (state : nat * list Image) : Run (nat * list Image) :=
  let basePageIndex := (Z.of_nat groupIndex + 1) * pagesPerImage - 1 in
  forEach (seq 0 (Z.to_nat imagesPerCount)) (generateOne totalPages basePageIndex) state.

(** [Math.floor(totalPages / pagesPerImage)] as a loop bound. *)
Definition numberOfImageGroups (totalPages : JsNumber) (pagesPerImage : Z) : nat :=
  match totalPages with
  | Some t => Z.to_nat (t / pagesPerImage)
  | None => O
  end.

(** Lines 1120-1214. *)
Definition generateImages (body : Body) : Run (list Image) :=
  let '(imagesPerCount, pagesPerImage) := imageCounts (imageFrequency body) in
  if (0 <? imagesPerCount) && (0 <? pagesPerImage) then
    let totalPages := minWith50 (numPages body) in
    do state <- forEach (seq 0 (numberOfImageGroups totalPages pagesPerImage))
                  (generateGroup totalPages imagesPerCount pagesPerImage) (O, []) ;
    ret (snd state)
  else ret [].

(** The format of the request: [outputFormat = 'pdf'] by default. *)
Definition requestedFormat (body : Body) : option Json :=
  match outputFormat body with
  | None => Some (JString (js "pdf"))
  | Some v => Some v
  end.

Definition fileName (extension : string) : JsString :=
  js "whitepaper-" ++ decimal now ++ js "." ++ js extension.

(** Lines 1216-1243: the document, its MIME type and its file name. *)
Definition exportDocument (body : Body) (whitepaperContent : JsString)
    (images : list Image) : Run (Document * JsString * JsString) :=
  let format := requestedFormat body in
  if isString (js "pdf") format then
    do pages <- call (BuildDocument (js "pdf"))
               (generateWhitepaperPDF widthOfTextAtSize encodingError embedImage images
                  whitepaperContent (numPages body)) ;
    ret (PdfDocument pages, js "application/pdf", fileName "pdf")
  else if isString (js "docx") format then
    do children <- call (BuildDocument (js "docx"))
                    (Returned (Docx.generateWhitepaperDOCX whitepaperContent images
                                 (numPages body))) ;
    ret (DocxDocument children,
         js "application/vnd.openxmlformats-officedocument.wordprocessingml.document",
         fileName "docx")
  else if isString (js "ppt") format then
    do slides <- call (BuildDocument (js "ppt"))
                    (Returned (Pptx.generateWhitepaperPPT whitepaperContent images
                                 (toReal (numPages body)))) ;
    ret (PptDocument slides,
         js "application/vnd.openxmlformats-officedocument.presentationml.presentation",
         fileName "pptx")
  else
    ret (TextDocument whitepaperContent, js "text/plain", fileName "txt").

(** Lines 1245-1258. *)
Definition successResponse (body : Body) (whitepaperContent : JsString)
    (images : list Image) (exported : Document * JsString * JsString) : Response :=
  let '(document, mimeType, filename) := exported in
  {| status := 200;
     responseBody :=
       SuccessBody document filename mimeType
         (if isString (js "ppt") (requestedFormat body) then None
          else Some whitepaperContent)
         (minWith50 (numPages body))
         (writingStyle body) (frameworks body) (imageFrequency body)
         (length images) |}.

(** Lines 1260-1293: the message of the final [catch]. *)
Definition failureMessage (message : JsString) : JsString :=
  if includes (js "API key") message then js "OpenAI API key is invalid or missing"
  else if includes (js "rate limit") message then js "API rate limit exceeded"
  else if includes (js "model") message then js "Invalid or unavailable OpenAI model"
  else message.

(** Lines 675-1258, entered with a truthy [prompt]. *)
Definition generateWhitepaper (body : Body) : Run Response :=
  do _ <- retrieveContext body ;
  do generated <- tryCatch
      (do whitepaperContent <- generateContent body ; ret (inl whitepaperContent))
      (fun _ => ret (inr (errorResponse 500
                            (js "Failed to generate whitepaper content") None))) ;
  match generated with
  | inr response => ret response
  | inl whitepaperContent =>
      if negb (nonBlank whitepaperContent) then
        ret (errorResponse 500
               (js "Failed to generate whitepaper content. The AI response was empty.")
               None)
      else
        let whitepaperContent := postProcess whitepaperContent in
        do images <- generateImages body ;
        do exported <- exportDocument body whitepaperContent images ;
        ret (successResponse body whitepaperContent images exported)
  end.

(** Lines 652-673. *)
Definition handle (request : RequestBody) : Run Response :=
  match request with
  | InvalidJson => ret (errorResponse 400 (js "Invalid JSON in request body") None)
  | JsonNull =>
      raise (js "Cannot destructure property 'prompt' of 'body' as it is null.")
  | JsonValue body =>
      if negb (truthy (prompt body))
      then ret (errorResponse 400 (js "Prompt is required") None)
      else generateWhitepaper body
  end.

(** [POST(request)]: the response and the calls made to the outside, in
    order. The outer [catch] answers every error with status 500. *)
Definition POST (request : RequestBody) : Response * list Effect :=
  match handle request [] with
  | (Returned response, log) => (response, log)
  | (Thrown message, log) =>
      (errorResponse 500 (js "Failed to generate whitepaper")
         (Some (failureMessage message)), log)
  end.

End Route.

End Handler.
Export Handler.

(* ===================================================================== *)
(** * The download history kept in [localStorage]                        *)
(* ===================================================================== *)

Module Downloads.

Local Open Scope string_scope.

(** The [format] of a file. *)
Inductive Format := pdf | docx | ppt | txt.

(** [interface DownloadedFile] *)
Record DownloadedFile := {
  id : string;
  filename : string;
  mimeType : string;
  document : string;
  createdAt : string;
  format : Format;
  size : option Z
}.

(** [Omit<DownloadedFile, 'id' | 'createdAt'>], the argument of
    [saveFileToDownloads]. *)
Record FileToSave := {
  saveFilename : string;
  saveMimeType : string;
  saveDocument : string;
  saveFormat : Format;
  saveSize : option Z
}.

Definition STORAGE_KEY : string := "geogame_downloaded_files".

(** The browser's [localStorage]. A stored string is represented by the
    array that [JSON.parse] reads from it, so that [JSON.parse] after
    [JSON.stringify] gives the array back. *)
Abbreviation Storage := (gmap string (list DownloadedFile)).

(** Where the code runs: in a browser with its storage, or on the server,
    where [window] and [localStorage] are not defined. *)
Inductive Env :=
| Browser (localStorage : Storage)
| Server.

(** [getDownloadedFiles()] *)
Definition getDownloadedFiles (env : Env) : list DownloadedFile :=
  match env with
  | Server => []
  | Browser localStorage =>
      match localStorage !! STORAGE_KEY with
      | Some stored => stored
      | None => []
      end
  end.

(** [localStorage.setItem(key, JSON.stringify(value))] *)
Definition setItem (key : string) (value : list DownloadedFile) (env : Env)
    : Outcome Env :=
  match env with
  | Server => Thrown (js "localStorage is not defined")
  | Browser localStorage => Returned (Browser (<[key := value]> localStorage))
  end.

(** [Date.now().toString()] *)
Definition timestamp (now : Z) : string := NilZero.string_of_int (Z.to_int now).

(** [saveFileToDownloads(file)] at the time [now], whose ISO form is
    [isoNow]: the new environment and the value returned. *)
Definition saveFileToDownloads (now : Z) (isoNow : string) (file : FileToSave)
    (env : Env) : Outcome (Env * DownloadedFile) :=
  let files := getDownloadedFiles env in
  let newFile :=
    {| id := timestamp now;
       filename := saveFilename file;
       mimeType := saveMimeType file;
       document := saveDocument file;
       createdAt := isoNow;
       format := saveFormat file;
       size := saveSize file |} in
  let files := newFile :: files in
  let recentFiles := take 50 files in
  match setItem STORAGE_KEY recentFiles env with
  | Returned env' => Returned (env', newFile)
  | Thrown e => Thrown e
  end.

(** [deleteDownloadedFile(fileId)] *)
Definition deleteDownloadedFile (fileId : string) (env : Env) : Outcome Env :=
  let files := getDownloadedFiles env in
  let filtered := List.filter (fun f => negb (String.eqb (id f) fileId)) files in
  setItem STORAGE_KEY filtered env.

End Downloads.

(* ===================================================================== *)
(** * Concrete stand-ins for the services behind the handler             *)
(* ===================================================================== *)

Module Service.

Import Fixture.

Definition embeddingOk (_ : option Json) : Outcome unit := Returned tt.
Definition frameworkEmbeddingOk (_ : JsString) : Outcome unit := Returned tt.
Definition queryOk : Outcome unit := Returned tt.
Definition frameworkQueryOk (_ : JsString) : Outcome unit := Returned tt.

(** The model answers with a short text and has nothing to add. *)
Definition chatAnswer : Outcome JsString := Returned (paragraphsOf 3).
Definition chatNothing (_ : nat) (_ : JsString) : Outcome JsString := Returned [].

Definition keepContent (content : JsString) : JsString := content.

(** Every image request gives 120 characters of data. *)
Definition imageOk (_ : nat) (_ : Z) : option JsString := Some (repeat "A"%char 120).

Definition clock : Z := 1700000000000.

(** A request for [numPages] pages in a given format, one image per two
    pages. *)
Definition requestFor (format : string) (pages : Z) : Body :=
  {| prompt := Some (JString (js "Geolocation games"));
     outputFormat := Some (JString (js format));
     numPages := Some pages;
     imageFrequency := Some (JString (js "1 image per 2 pages"));
     writingStyle := Some (JString (js "professional"));
     frameworks := [js "swot"; js "unknown"] |}.

Definition post : RequestBody -> Response * list Effect :=
  POST halfEm printable decode800x600 embeddingOk frameworkEmbeddingOk queryOk frameworkQueryOk
    chatAnswer chatNothing keepContent imageOk clock.

End Service.

(* ===================================================================== *)
(** * Observations on a run of the handler                               *)
(* ===================================================================== *)

Module HandlerSpec.

Local Open Scope Z_scope.

(** A computation that never throws and whose outside calls all satisfy
    [P]. *)
Definition quiet {A} (P : Effect -> Prop) (m : Run A) : Prop :=
  forall log, exists a new, m log = (Returned a, log ++ new) /\ Forall P new.

(** A computation whose outside calls all satisfy [P], thrown or not. *)
Definition logsOnly {A} (P : Effect -> Prop) (m : Run A) : Prop :=
  forall log, exists new, snd (m log) = log ++ new /\ Forall P new.

Definition notImageCall (e : Effect) : Prop :=
  match e with CallGenerateImage _ => False | _ => True end.

(** The page of the [imgInGroup]-th image of a group, when it is below
    [totalPages] (lines 1160-1167). *)
Definition attemptAt (totalPages : JsNumber) (pageIndex_ : Z) : list Z :=
  if numLt (Some pageIndex_) totalPages then [pageIndex_] else [].

(** The pages for which the two loops of lines 1153-1202 ask for an image,
    in order. *)
Definition plannedPages (totalPages : JsNumber) (imagesPerCount pagesPerImage : Z)
    : list Z :=
  flat_map
    (fun groupIndex =>
       flat_map
         (fun imgInGroup =>
            attemptAt totalPages
              ((Z.of_nat groupIndex + 1) * pagesPerImage - 1 + Z.of_nat imgInGroup))
         (seq 0 (Z.to_nat imagesPerCount)))
    (seq 0 (numberOfImageGroups totalPages pagesPerImage)).

(** The pages for which a request asks for an image. *)
Definition attemptedPages (body : Body) : list Z :=
  let '(imagesPerCount, pagesPerImage) := imageCounts (imageFrequency body) in
  if (0 <? imagesPerCount) && (0 <? pagesPerImage)
  then plannedPages (minWith50 (numPages body)) imagesPerCount pagesPerImage
  else [].

(** Every image is tagged with one of the pages [pages]. *)
Definition taggedWithin (pages : list Z) (images : list Image) : Prop :=
  Forall (fun img => exists p, In p pages /\ 0 <= p /\ pageIndex img = Z.to_nat p) images.

(** The image calls of a log, as pages. *)
Definition imageCalls (log : list Effect) : list Z :=
  omap (fun e => match e with CallGenerateImage p => Some p | _ => None end) log.






Definition responseImagesGenerated (r : Response) : option nat :=
  match responseBody r with
  | SuccessBody _ _ _ _ _ _ _ _ n => Some n
  | ErrorBody _ _ => None
  end.

Definition responseError (r : Response) : option JsString :=
  match responseBody r with
  | SuccessBody _ _ _ _ _ _ _ _ _ => None
  | ErrorBody error _ => Some error
  end.

End HandlerSpec.
Export HandlerSpec.

(* ===================================================================== *)
(** * Further observations                                               *)
(* ===================================================================== *)

Module DownloadsSpec.

Import Downloads.

(** A use of the download history by the page. *)
Inductive Action :=
| Save (now : Z) (isoNow : string) (file : FileToSave)
| Delete (fileId : string).

(** The environment after an action; an action that throws changes
    nothing. *)
Definition perform (a : Action) (env : Env) : Env :=
  match a with
  | Save now isoNow file =>
      match saveFileToDownloads now isoNow file env with
      | Returned (env', _) => env'
      | Thrown _ => env
      end
  | Delete fileId =>
      match deleteDownloadedFile fileId env with
      | Returned env' => env'
      | Thrown _ => env
      end
  end.

Definition performAll (actions : list Action) (env : Env) : Env :=
  fold_left (fun e a => perform a e) actions env.

(** What is stored under a key; nothing on the server. *)
Definition stored (key : string) (env : Env) : option (list DownloadedFile) :=
  match env with
  | Browser localStorage => localStorage !! key
  | Server => None
  end.

(** A generated PDF as the page saves it. *)
Definition reportFile : FileToSave :=
  {| saveFilename := "whitepaper-1700000000000.pdf";
     saveMimeType := "application/pdf";
     saveDocument := "JVBERi0xLjc=";
     saveFormat := pdf;
     saveSize := Some 9%Z |}.

(** A browser whose storage holds one older file and a foreign key. *)
Definition olderFile : DownloadedFile :=
  {| id := "1600000000000";
     filename := "whitepaper-1600000000000.docx";
     mimeType := "application/vnd.openxmlformats-officedocument.wordprocessingml.document";
     document := "UEsDBA==";
     createdAt := "2020-09-13T12:26:40.000Z";
     format := docx;
     size := Some 4%Z |}.

Definition usedBrowser : gmap string (list DownloadedFile) :=
  <[ "theme" := [] ]> (<[ STORAGE_KEY := [olderFile] ]> ∅).

End DownloadsSpec.

(* ===================================================================== *)
(** * The form that calls the route (the whitepaper generator component) *)
(* ===================================================================== *)

Module Form.

(** The [imageFrequency] the form sends, built from the two number inputs
    and the output format:
    [`${imagesPerPages} image per ${pagesForImages} ${outputFormat === 'ppt'
    ? 'slides' : 'pages'}`]. *)
Definition frequencyText (imagesPerPages pagesForImages : JsString) (ppt : bool)
    : JsString :=
  imagesPerPages ++ js " image per " ++ pagesForImages ++
  (if ppt then js " slides" else js " pages").

End Form.

Module HandlerCost.

(** The services behind the outside calls. *)
Inductive Service := Embedding | VectorSearch | Chat | ImageModel | Builder.

Definition serviceOf (e : Effect) : Service :=
  match e with
  | CallGetEmbedding => Embedding
  | CallQueryPinecone => VectorSearch
  | CallChatCompletion => Chat
  | CallGenerateImage _ => ImageModel
  | BuildDocument _ => Builder
  end.

Definition service_eqb (a b : Service) : bool :=
  match a, b with
  | Embedding, Embedding | VectorSearch, VectorSearch | Chat, Chat
  | ImageModel, ImageModel | Builder, Builder => true
  | _, _ => false
  end.

(** The number of calls to a service in a log. *)
Definition calls (s : Service) (log : list Effect) : nat :=
  length (List.filter (fun e => service_eqb (serviceOf e) s) log).

(** One call to [e] counts for the service [s] or not. *)
Definition weight (s : Service) (e : Effect) : nat :=
  if service_eqb (serviceOf e) s then 1 else 0.

(** A computation that makes at most [n] calls to the service [s]. *)
Definition costs {A} (s : Service) (n : nat) (m : Run A) : Prop :=
  forall log, (calls s (snd (m log)) <= calls s log + n)%nat.


End HandlerCost.

(* ===================================================================== *)
(** * Further observations on a generated PDF                            *)
(* ===================================================================== *)

Module PdfLayout.

Local Open Scope Q_scope.

(** The height at which an operation draws: the baseline of a text line,
    the lower edge of an image. *)
Definition opY (op : DrawOp) : Q :=
  match op with
  | DrawText _ _ y _ _ => y
  | DrawImage _ _ y _ _ => y
  end.

(** Every operation is at least 18 points, the height of a body line, below
    all the operations drawn before it. *)
Fixpoint stacked (ops : list DrawOp) : Prop :=
  match ops with
  | [] => True
  | a :: rest => Forall (fun b => opY b + 18 <= opY a) rest /\ stacked rest
  end.

(** A text line begins at the left margin, the literal [margin] of the
    call; an image was decoded by pdf-lib. *)
Definition opInside (embedImage : JsString -> option (N * N)) (op : DrawOp) : Prop :=
  match op with
  | DrawText _ x _ _ _ => x == 72
  | DrawImage img _ _ _ _ => exists W H, embedImage (base64 img) = Some (W, H)
  end.

Definition isText (op : DrawOp) : Prop :=
  match op with
  | DrawText _ _ _ _ _ => True
  | DrawImage _ _ _ _ _ => False
  end.

(** What the generator keeps true of the drawing operations. *)
Record Layout (embedImage : JsString -> option (N * N)) (st : PdfState) : Prop := {
  lay_images : Forall (fun p => Forall (opInside embedImage) (pageOps p)) (pdfPages st);
  lay_stacked : Forall (fun p => stacked (pageOps p)) (pdfPages st);
  lay_below : Forall (fun op => yPosition st + 18 <= opY op) (pageOps (currentPage st));
  lay_first : Forall (fun p => Forall isText (tl (pageOps p))) (pdfPages st)
}.

(** The words [g] of the current line were measured and found no wider
    than the text width; a single word is kept whatever its width. *)
Definition fits (widthOfTextAtSize : Font -> JsString -> Q -> Q) (f : Flags)
    (g : list JsString) : Prop :=
  (length g <= 1)%nat \/
  widthOfTextAtSize (fontOf f) (blankControl (joinWords g)) (textSizeOf f)
    <= width - margin * 2.

(** A text line of the document: words joined by single spaces, in the font
    and the size of a paragraph, and no wider than the text width unless it
    is one word. *)
Definition lineForm (widthOfTextAtSize : Font -> JsString -> Q -> Q)
    (entry : JsString * Q * Font) : Prop :=
  exists f g,
    g <> [] /\ Forall solidWord g /\
    entry = (joinWords g, textSizeOf f, fontOf f) /\
    fits widthOfTextAtSize f g.

End PdfLayout.

(* ===================================================================== *)
(** * Further observations on the DOCX and PPTX builders                 *)
(* ===================================================================== *)

Module OfficeSpec.

(** What the DOCX loop adds at paragraph [i]: before the first paragraph of
    an estimated page, the placeholder of the first image tagged with that
    page; then the paragraph. *)
Definition docxBlock (images : list Image) (i : nat) (paragraph : JsString)
    : list Docx.Paragraph :=
  (if (i mod 50 =? 0)%nat
   then match taggedFor images (i / 50) with
        | Some img => [Docx.placeholder img]
        | None => []
        end
   else []) ++ [Docx.textParagraph paragraph].

Fixpoint docxBlocks (images : list Image) (i : nat) (paragraphs : list JsString)
    : list Docx.Paragraph :=
  match paragraphs with
  | [] => []
  | paragraph :: rest => docxBlock images i paragraph ++ docxBlocks images (S i) rest
  end.

(** The placeholders are the paragraphs set in italics. *)
Definition isPlaceholder (p : Docx.Paragraph) : bool := Docx.italics (Docx.run p).

(** The pictures of a slide. *)
Definition slideImages (ops : list Pptx.SlideOp) : list Image :=
  omap (fun op => match op with
                  | Pptx.AddImage img _ _ _ _ => Some img
                  | Pptx.AddText _ _ _ _ _ _ _ _ => None
                  end) ops.

(** What can stand on a slide: the title of the presentation, the only text
    box set at 44 points; a text box of the loop, of at most 500
    characters, not blank, without [*] and [_], in bold at 18 points or
    plain at 12 points; a picture in the fixed frame. *)
Definition slideOpForm (op : Pptx.SlideOp) : Prop :=
  match op with
  | Pptx.AddText text _ _ _ _ fontSize bold centered =>
      (fontSize = 44%Z /\ bold = true /\ centered = true) \/
      ((length text <= 500)%nat /\ nonBlank text = true /\ centered = false /\
       Forall (fun c => c <> STAR /\ c <> UNDERSCORE) text /\
       ((fontSize = 18%Z /\ bold = true) \/ (fontSize = 12%Z /\ bold = false)))
  | Pptx.AddImage _ x y w h => (x == 1 /\ y == 2 /\ w == 8 /\ h == 4.5)%Q
  end.

(** What the PPTX loop keeps true of its variables. *)
Record PptInv (images : list Image) (st : Pptx.PptState) : Prop := {
  ppt_index : Pptx.currentSlideIndex st = S (length (Pptx.doneSlides st));
  ppt_done : forall k ops img,
      Pptx.doneSlides st !! k = Some ops -> In img (slideImages ops) ->
      pageIndex img = k /\ In img images;
  ppt_current : forall img,
      In img (slideImages (Pptx.slide st)) ->
      S (pageIndex img) = Pptx.currentSlideIndex st /\ In img images /\
      pageIndex img ∈ Pptx.imagesPlaced st;
  ppt_single : Forall (fun ops => (length (slideImages ops) <= 1)%nat) (Pptx.slides st);
  ppt_ops : Forall (Forall slideOpForm) (Pptx.slides st)
}.

(** A short report: a title, a body paragraph and a section. *)
Definition shortReport : JsString :=
  js "# Market" ++ [LF; LF] ++ js "Demand *grows*." ++ [LF; LF] ++ js "## Outlook".

Definition reportImages : list Image := [Fixture.imageFor 0; Fixture.imageFor 1].

Definition exampleDocx : list Docx.Paragraph :=
  Docx.generateWhitepaperDOCX shortReport reportImages (Some 1%Z).

Definition exampleSlides : list (list Pptx.SlideOp) :=
  Pptx.generateWhitepaperPPT shortReport reportImages (Real 5).

End OfficeSpec.

(* ===================================================================== *)
(** * Services that fail                                                 *)
(* ===================================================================== *)

Module Outage.

Import Fixture Service.

Definition embeddingDown (_ : option Json) : Outcome unit :=
  Thrown (js "OpenAI API key must be set").

(** A request without a prompt, and one whose image frequency cannot be
    read. *)
Definition noPrompt : Body :=
  {| prompt := None;
     outputFormat := Some (JString (js "pdf"));
     numPages := Some 4%Z;
     imageFrequency := Some (JString (js "1 image per 2 pages"));
     writingStyle := None;
     frameworks := [] |}.

Definition noFrequency : Body :=
  {| prompt := Some (JString (js "Geolocation games"));
     outputFormat := Some (JString (js "pdf"));
     numPages := Some 4%Z;
     imageFrequency := Some (JString (js "now and then"));
     writingStyle := None;
     frameworks := [] |}.

End Outage.

(* ===================================================================== *)
(** * Unit checks of the string primitives and of the segmentation       *)
(* ===================================================================== *)

Example trim_example : trim (js "  a b  ") = js "a b".
Proof. reflexivity. Qed.

Example splitBlankLines_example :
  splitBlankLines [] 0 (js "a
b


c

") = [js "a
b"; js "c"; js ""].
Proof. reflexivity. Qed.

Example removePairs_example : removePairs UNDERSCORE (js "a___b__") = js "a_b".
Proof. reflexivity. Qed.

Example collapseWs_example : collapseWs false (js "a   b  c ") = js "a b c ".
Proof. reflexivity. Qed.

Example pdfParagraphs_regroup :
  pdfParagraphs (js "# Title
first line
second line
## Sub
body") = [js "# Title"; js "first line second line"; js "## Sub"; js "body"].
Proof. reflexivity. Qed.

Example pdfParagraphs_five :
  pdfParagraphs (js "a

b

c

d

e
f") = [js "a"; js "b"; js "c"; js "d"; js "e
f"].
Proof. reflexivity. Qed.

Example parseInt_rounds :
  parseInt (js "99999999999999999999") = 100000000000000000000%Z /\
  parseInt (js "9007199254740993") = 9007199254740992%Z /\
  parseInt (js "9007199254740991") = 9007199254740991%Z.
Proof. repeat split; vm_compute; reflexivity. Qed.

Example hasQuery_inherited :
  hasQuery (js "swot") = true /\ hasQuery (js "toString") = true /\
  hasQuery (js "unknown") = false.
Proof. repeat split; reflexivity. Qed.

(* ===================================================================== *)
(** * Geometry of the pagination: cursor, page sizes, image placement    *)
(* ===================================================================== *)

Module Geometry.

Local Open Scope Q_scope.

Lemma Qltb_lt a b : Qltb a b = true <-> a < b.
Proof.
  unfold Qltb. rewrite negb_true_iff.
  destruct (Qle_bool b a) eqn:E.
  - apply Qle_bool_iff in E. split; [discriminate | intros H; lra].
  - split; [intros _ | reflexivity].
    destruct (Qlt_le_dec a b) as [H | H]; [exact H |].
    apply Qle_bool_iff in H. congruence.
Qed.

Lemma Qltb_ge a b : Qltb a b = false <-> b <= a.
Proof.
  split; intros H.
  - destruct (Qlt_le_dec a b) as [L | L]; [| exact L].
    apply Qltb_lt in L. congruence.
  - destruct (Qltb a b) eqn:E; [| reflexivity].
    apply Qltb_lt in E. lra.
Qed.

Ltac layout :=
  unfold maxImageHeight, maxImageWidth, width, height, margin, topMargin,
    bottomMargin, bodyLineHeight, headingLineHeight, subHeadingLineHeight,
    paragraphSpacing, headingTopMargin, headingBottomMargin, subHeadingTopMargin,
    subHeadingBottomMargin, fontSize, headingFontSize, subHeadingFontSize,
    blankPage in *; simpl fst in *; simpl snd in *.

Lemma lineHeightOf_bounds f : 18 <= lineHeightOf f /\ lineHeightOf f <= 22.
Proof.
  unfold lineHeightOf. destruct (isHeading f), (isSubHeading f); layout; lra.
Qed.

(** The scaled image is never higher than 40% of the page. *)
Lemma scaleImage_height w h :
  0 <= w -> 0 <= h ->
  0 <= snd (scaleImage w h) /\ snd (scaleImage w h) <= maxImageHeight.
Proof.
  intros Hw Hh. unfold scaleImage, Qgtb.
  assert (Hstep : forall a b : Q, 0 <= b ->
            0 <= snd (if Qltb maxImageHeight b
                      then (a * (maxImageHeight / b), b * (maxImageHeight / b))
                      else (a, b)) /\
            snd (if Qltb maxImageHeight b
                 then (a * (maxImageHeight / b), b * (maxImageHeight / b))
                 else (a, b)) <= maxImageHeight).
  { intros a b Hb. destruct (Qltb maxImageHeight b) eqn:E; simpl.
    - apply Qltb_lt in E.
      assert (Hne : ~ b == 0) by (layout; lra).
      rewrite (Qmult_div_r maxImageHeight b Hne). layout; lra.
    - apply Qltb_ge in E. split; [exact Hb | exact E]. }
  destruct (Qltb maxImageWidth w) eqn:E.
  - apply Qltb_lt in E. apply Hstep.
    apply Qmult_le_0_compat; [exact Hh |].
    unfold Qdiv. apply Qmult_le_0_compat; [layout; lra |].
    apply Qinv_le_0_compat. exact Hw.
  - apply Hstep. exact Hh.
Qed.

Lemma inject_N_nonneg (n : N) : 0 <= inject_Z (Z.of_N n).
Proof. change 0 with (inject_Z 0). rewrite <- Zle_Qle. lia. Qed.

Lemma lookup_pdfPages st idx p :
  pdfPages st !! idx = Some p <->
  donePages st !! idx = Some p \/ (idx = length (donePages st) /\ p = currentPage st).
Proof.
  unfold pdfPages. rewrite lookup_app_Some, list_lookup_singleton_Some.
  split; intros [H | H]; auto; right.
  - destruct H as (Hle & Hz & Hp). split; [lia | congruence].
  - destruct H as [-> ->]. split; [lia |]. split; [lia | reflexivity].
Qed.

Lemma pageImages_app_text (pg : Page) t x y s fnt :
  omap imageOf (pageOps pg ++ [DrawText t x y s fnt]) = pageImages pg.
Proof. unfold pageImages. rewrite omap_app. simpl. apply app_nil_r. Qed.

Section Invariant.

Variable widthOfTextAtSize : Font -> JsString -> Q -> Q.
Variable embedImage : JsString -> option (N * N).
Variable images : list Image.

Local Abbreviation Inv := (Inv embedImage images).
Local Abbreviation breakPage := (breakPage embedImage images).
Local Abbreviation ensureRoom := (ensureRoom embedImage images).

Lemma Inv_initial : Inv initialState.
Proof.
  constructor; simpl.
  - reflexivity.
  - layout; lra.
  - repeat constructor.
  - repeat constructor.
  - intros idx p H. apply lookup_pdfPages in H. simpl in H.
    destruct H as [H | [-> ->]]; [discriminate | reflexivity].
  - intros p H. set_solver.
Qed.

Lemma Inv_setY st y : Inv st -> y <= 720 -> Inv (setY y st).
Proof. intros [H1 H2 H3 H4 H5 H6] Hy. constructor; simpl; auto. Qed.

Lemma Inv_drawText st t x y s fnt :
  Inv st -> 72 <= y -> y <= 720 -> Inv (draw (DrawText t x y s fnt) st).
Proof.
  intros [H1 H2 H3 H4 H5 H6] Hlo Hhi. constructor; simpl; auto.
  - unfold pdfPages in *. simpl. apply Forall_app in H3 as [Hd Hc].
    apply Forall_app. split; [exact Hd |].
    constructor; [| constructor]. inversion_clear Hc. assumption.
  - unfold pdfPages in *. simpl. apply Forall_app in H4 as [Hd Hc].
    apply Forall_app. split; [exact Hd |].
    constructor; [| constructor]. simpl. inversion_clear Hc.
    apply Forall_app. split; [assumption |]. repeat constructor; assumption.
  - intros idx p H. apply lookup_pdfPages in H. simpl in H.
    destruct H as [H | [-> ->]].
    + apply H5. apply lookup_pdfPages. left. exact H.
    + unfold pageImages at 1. simpl. rewrite pageImages_app_text.
      apply H5. apply lookup_pdfPages. right. split; reflexivity.
Qed.

(** A page break lands on a fresh page that carries its image, with the
    cursor still high on the page. *)
Lemma breakPage_Inv st :
  Inv st -> Inv (breakPage st) /\ 379 <= yPosition (breakPage st).
Proof.
  intros [H1 H2 H3 H4 H5 H6].
  unfold Pdf.breakPage, placeImageIfNeeded.
  assert (Hfresh : S (currentPageIndex st) ∉ imagesPlacedOnPage st).
  { intros Hin. apply H6 in Hin. lia. }
  simpl currentPageIndex. simpl imagesPlacedOnPage.
  rewrite bool_decide_eq_false_2 by exact Hfresh.
  assert (Hsizes : Forall letterSize (pdfPages st ++ [blankPage])).
  { apply Forall_app. split; [exact H3 | repeat constructor]. }
  assert (Htext : Forall (fun p => Forall textInBounds (pageOps p))
                    (pdfPages st ++ [blankPage])).
  { apply Forall_app. split; [exact H4 | repeat constructor]. }
  assert (Hlen : length (donePages st ++ [currentPage st]) = S (currentPageIndex st)).
  { rewrite length_app. simpl. lia. }
  assert (Hplaced : forall p, p ∈ imagesPlacedOnPage st -> (p <= S (currentPageIndex st))%nat).
  { intros p Hp. apply H6 in Hp. lia. }
  assert (Hnone : imageAtBreak embedImage images (S (currentPageIndex st)) = [] ->
                  Inv (addPage st) /\ 379 <= yPosition (addPage st)).
  { intros Hexp. split; [| simpl; layout; lra]. constructor; simpl; auto.
    - layout; lra.
    - intros idx p H. apply lookup_pdfPages in H. simpl in H.
      destruct H as [H | [-> ->]].
      + apply H5. exact H.
      + rewrite Hlen. simpl. rewrite Hexp. reflexivity. }
  unfold imageAtBreak, taggedFor in Hnone.
  destruct (List.find _ images) as [img |] eqn:Hfind; [| apply Hnone; reflexivity].
  destruct (embedImage (base64 img)) as [[w h] |] eqn:Hemb; [| apply Hnone; reflexivity].
  clear Hnone.
  pose proof (scaleImage_height (inject_Z (Z.of_N w)) (inject_Z (Z.of_N h))
                (inject_N_nonneg w) (inject_N_nonneg h)) as [Hh0 Hh1].
  destruct (scaleImage _ _) as [iw ih]. simpl in Hh0, Hh1.
  assert (Hroom : Qltb (yPosition (addPage st) - ih - paragraphSpacing) bottomMargin = false).
  { apply Qltb_ge. simpl. layout. lra. }
  rewrite Hroom. split.
  - constructor; simpl; auto.
    + layout; lra.
    + unfold pdfPages. simpl. apply Forall_app. split; [exact H3 | repeat constructor].
    + unfold pdfPages. simpl. apply Forall_app. split; [exact H4 | repeat constructor].
    + intros idx p H. apply lookup_pdfPages in H. simpl in H.
      destruct H as [H | [-> ->]].
      * apply H5. exact H.
      * rewrite Hlen. unfold pageImages. simpl.
        unfold imageAtBreak, taggedFor. rewrite Hfind, Hemb. reflexivity.
    + intros p Hp. apply elem_of_union in Hp as [Hp | Hp].
      * apply elem_of_singleton in Hp. lia.
      * apply Hplaced. exact Hp.
  - simpl. layout. lra.
Qed.

Lemma ensureRoom_Inv f st :
  Inv st ->
  Inv (ensureRoom f st) /\ 72 + lineHeightOf f <= yPosition (ensureRoom f st).
Proof.
  intros HI. unfold Pdf.ensureRoom.
  pose proof (lineHeightOf_bounds f) as [Hl0 Hl1].
  destruct (Qltb _ _) eqn:E.
  - destruct (breakPage_Inv st HI) as [HI' Hy]. split; [exact HI' | lra].
  - apply Qltb_ge in E. split; [exact HI |]. layout. lra.
Qed.

Local Abbreviation wrapWord := (wrapWord widthOfTextAtSize embedImage images).

Lemma wrapWord_Inv f cur st word :
  Inv st -> 72 + lineHeightOf f <= yPosition st ->
  Inv (snd (wrapWord f (cur, st) word)) /\
  72 + lineHeightOf f <= yPosition (snd (wrapWord f (cur, st) word)).
Proof.
  intros HI Hy. unfold Pdf.wrapWord.
  pose proof (lineHeightOf_bounds f) as [Hl0 Hl1].
  destruct (Qgtb _ _); [| simpl; auto].
  destruct cur as [| c cur']; [simpl; auto |].
  generalize (trim (blankControl (c :: cur'))). intros line.
  cbv zeta. unfold snd.
  apply ensureRoom_Inv.
  destruct line; [exact HI |].
  apply Inv_setY.
  - apply Inv_drawText; [exact HI | lra | apply (inv_cursor _ _ _ HI)].
  - simpl. pose proof (inv_cursor _ _ _ HI). lra.
Qed.

Lemma wrapLoop_Inv f words cur st :
  Inv st -> 72 + lineHeightOf f <= yPosition st ->
  Inv (snd (fold_left (wrapWord f) words (cur, st))) /\
  72 + lineHeightOf f <= yPosition (snd (fold_left (wrapWord f) words (cur, st))).
Proof.
  revert cur st. induction words as [| w words IH]; intros cur st HI Hy.
  - simpl. auto.
  - cbn [fold_left].
    destruct (wrapWord_Inv f cur st w HI Hy) as [HI' Hy'].
    destruct (wrapWord f (cur, st) w) as [cur' st']. simpl in HI', Hy'.
    apply IH; assumption.
Qed.

Lemma flushLine_Inv f cur st :
  Inv st -> 72 + lineHeightOf f <= yPosition st -> Inv (flushLine f cur st).
Proof.
  intros HI Hy. unfold flushLine.
  pose proof (lineHeightOf_bounds f) as [Hl0 Hl1].
  pose proof (inv_cursor _ _ _ HI) as Hc.
  destruct cur as [| c cur']; [exact HI |].
  generalize (trim (blankControl (c :: cur'))). intros line.
  destruct line; [exact HI |].
  apply Inv_setY.
  - apply Inv_drawText; [exact HI | lra | exact Hc].
  - simpl.
    destruct (isHeading f); [layout; lra |].
    destruct (isSubHeading f || isSubSubHeading f); layout; lra.
Qed.

Lemma headingSpacing_Inv f i st :
  Inv st -> Inv (headingSpacing embedImage images f i st).
Proof.
  intros HI. unfold headingSpacing.
  pose proof (inv_cursor _ _ _ HI) as Hc.
  destruct (anyHeading f && (0 <? i)%nat); [| exact HI].
  destruct (Qltb _ _); [apply breakPage_Inv; exact HI |].
  destruct (Qgtb _ _) eqn:E; [| exact HI].
  apply Qltb_lt in E. apply Inv_setY; [exact HI | lra].
Qed.

Lemma renderParagraph_Inv f i text st :
  Inv st -> Inv (renderParagraph widthOfTextAtSize embedImage images f i text st).
Proof.
  intros HI. unfold renderParagraph.
  destruct (ensureRoom_Inv f _ (headingSpacing_Inv f i st HI)) as [HI1 Hy1].
  destruct (wrapLoop_Inv f (wordsOf text) [] _ HI1 Hy1) as [HI2 Hy2].
  destruct (fold_left _ _ _) as [cur st2]. simpl in HI2, Hy2.
  apply flushLine_Inv; assumption.
Qed.

Lemma processParagraph_Inv i paragraph st :
  Inv st -> Inv (processParagraph widthOfTextAtSize embedImage images i paragraph st).
Proof.
  intros HI. unfold processParagraph.
  destruct (cleanParagraph _ _); [exact HI |].
  apply renderParagraph_Inv. exact HI.
Qed.

Lemma paragraphLoop_Inv paragraphs i st :
  Inv st -> Inv (paragraphLoop widthOfTextAtSize embedImage images i paragraphs st).
Proof.
  revert i st. induction paragraphs as [| p ps IH]; intros i st HI; simpl.
  - exact HI.
  - apply IH. apply processParagraph_Inv. exact HI.
Qed.

(** The variables of [generateWhitepaperPDF] satisfy [Inv] when the main
    loop is over. *)
Lemma generator_Inv content :
  Inv (paragraphLoop widthOfTextAtSize embedImage images 0
         (pdfParagraphs content) initialState).
Proof. apply paragraphLoop_Inv. apply Inv_initial. Qed.

End Invariant.

End Geometry.

(* ===================================================================== *)
(** * Characters kept and dropped by the string primitives               *)
(* ===================================================================== *)

Module Chars.

Lemma chr_eqb_eq a b : chr_eqb a b = true <-> a = b.
Proof. apply Ascii.eqb_eq. Qed.

Lemma chr_eqb_neq a b : chr_eqb a b = false <-> a <> b.
Proof. apply Ascii.eqb_neq. Qed.

Section Keep.

Variable P : ascii -> Prop.

Lemma trimStart_keeps s : Forall P s -> Forall P (trimStart s).
Proof.
  induction 1 as [| c r Hc Hr IH]; simpl; [constructor |].
  destruct (isWhiteSpace c); [exact IH | constructor; assumption].
Qed.

Lemma trimEnd_keeps s : Forall P s -> Forall P (trimEnd s).
Proof.
  intros H. unfold trimEnd. apply Forall_rev. apply trimStart_keeps.
  apply Forall_rev. exact H.
Qed.

Lemma trim_keeps s : Forall P s -> Forall P (trim s).
Proof. intros H. apply trimEnd_keeps, trimStart_keeps, H. Qed.

Lemma removeChar_keeps c s : Forall P s -> Forall P (removeChar c s).
Proof.
  intros H. unfold removeChar. rewrite List.Forall_forall in *.
  intros x Hx. apply List.filter_In in Hx as [Hx _]. auto.
Qed.

Lemma removePairs_keeps c s : Forall P s -> Forall P (removePairs c s).
Proof.
  assert (Hboth : forall s, (Forall P s -> Forall P (removePairs c s)) /\
            (forall a, Forall P (a :: s) -> Forall P (removePairs c (a :: s)))).
  { intros t. induction t as [| b r [IH1 IH2]].
    - split; [intros _; constructor | intros a Ha; exact Ha].
    - split.
      + intros H. apply IH2. exact H.
      + intros a Ha. inversion_clear Ha as [| ? ? Pa Hbr].
        cbn [removePairs]. destruct (chr_eqb a c && chr_eqb b c).
        * apply IH1. inversion_clear Hbr. assumption.
        * constructor; [exact Pa |]. apply IH2. exact Hbr. }
  apply Hboth.
Qed.

Hypothesis P_space : P SP.

Lemma replaceChar_space_keeps c s : Forall P s -> Forall P (replaceChar c SP s).
Proof.
  intros H. unfold replaceChar. apply Forall_map.
  eapply Forall_impl; [exact H |]. intros a Pa. simpl.
  destruct (chr_eqb a c); assumption.
Qed.

Lemma blankControl_keeps s : Forall P s -> Forall P (blankControl s).
Proof.
  intros H. unfold blankControl. apply Forall_map.
  eapply Forall_impl; [exact H |]. intros a Pa. simpl.
  destruct (_ || _); assumption.
Qed.


Lemma joinSpace_keeps a b : Forall P a -> Forall P b -> Forall P (joinSpace a b).
Proof.
  intros Ha Hb. unfold joinSpace. apply Forall_app. split; [exact Ha |].
  constructor; assumption.
Qed.

End Keep.

Lemma splitChar_keeps (P : ascii -> Prop) c cur s :
  Forall P cur -> Forall P s -> Forall (Forall P) (splitChar c cur s).
Proof.
  intros Hcur Hs. revert cur Hcur.
  induction Hs as [| a r Ha Hr IH]; intros cur Hcur; simpl.
  - constructor; [exact Hcur | constructor].
  - destruct (chr_eqb a c).
    + constructor; [exact Hcur |]. apply IH. constructor.
    + apply IH. apply Forall_app. split; [exact Hcur |]. constructor; [exact Ha | constructor].
Qed.

(** No piece of [s.split(c)] contains [c]. *)
Lemma splitChar_free c cur s :
  Forall (fun a => a <> c) cur ->
  Forall (Forall (fun a => a <> c)) (splitChar c cur s).
Proof.
  revert cur. induction s as [| a r IH]; intros cur Hcur; simpl.
  - constructor; [exact Hcur | constructor].
  - destruct (chr_eqb a c) eqn:E.
    + constructor; [exact Hcur |]. apply IH. constructor.
    + apply IH. apply Forall_app. split; [exact Hcur |].
      constructor; [| constructor]. apply chr_eqb_neq. exact E.
Qed.

Lemma removeChar_free c s : Forall (fun a => a <> c) (removeChar c s).
Proof.
  unfold removeChar. rewrite List.Forall_forall. intros x Hx.
  apply List.filter_In in Hx as [_ Hx]. apply negb_true_iff in Hx.
  apply chr_eqb_neq. exact Hx.
Qed.

Lemma replaceChar_free c d s : d <> c -> Forall (fun a => a <> c) (replaceChar c d s).
Proof.
  intros Hd. unfold replaceChar. apply Forall_map. rewrite List.Forall_forall.
  intros a _. simpl. destruct (chr_eqb a c) eqn:E; [exact Hd |].
  apply chr_eqb_neq. exact E.
Qed.


Lemma collapseWs_spaced b s : spacedOnly (collapseWs b s).
Proof.
  unfold spacedOnly. revert b. induction s as [| c r IH]; intros b; simpl; [constructor |].
  destruct (isWhiteSpace c) eqn:E.
  - destruct b; [apply IH | constructor; [reflexivity | apply IH]].
  - constructor; [congruence | apply IH].
Qed.

Lemma SP_not_HASH : SP <> HASH. Proof. discriminate. Qed.

End Chars.

(* ===================================================================== *)
(** * The text computed for a paragraph                                  *)
(* ===================================================================== *)

Module ParagraphText.

Import Chars.



Lemma validateText_keeps (P : ascii -> Prop) t : Forall P t -> Forall P (validateText t).
Proof.
  intros H. unfold validateText. destruct (_ || _); [| exact H].
  apply trim_keeps, removeChar_keeps, removePairs_keeps, removePairs_keeps,
    removeChar_keeps, H.
Qed.



(** Its white space is made of single spaces. *)
Lemma paragraphText_spaced paragraph : spacedOnly (paragraphText paragraph).
Proof.
  unfold paragraphText. apply validateText_keeps.
  unfold cleanParagraph. apply trim_keeps. apply collapseWs_spaced.
Qed.

End ParagraphText.

(* ===================================================================== *)
(** * What the wrapping loop draws                                       *)
(* ===================================================================== *)

Module Wrap.

Lemma drawnText_app a b : drawnText (a ++ b) = drawnText a ++ drawnText b.
Proof. unfold drawnText. rewrite map_app, concat_app, omap_app. reflexivity. Qed.

Lemma joinWords_snoc g w :
  g <> [] -> joinWords (g ++ [w]) = joinSpace (joinWords g) w.
Proof.
  destruct g as [| w0 ws]; [congruence |]. intros _. simpl.
  rewrite fold_left_app. reflexivity.
Qed.

Lemma joinSpace_fold_nonempty ws w0 : w0 <> [] -> fold_left joinSpace ws w0 <> [].
Proof.
  revert w0. induction ws as [| w ws IH]; intros w0 H0; simpl; [exact H0 |].
  apply IH. unfold joinSpace. destruct w0; discriminate.
Qed.

Lemma joinWords_nonempty g : g <> [] -> Forall (fun w => w <> []) g -> joinWords g <> [].
Proof.
  destruct g as [| w0 ws]; [congruence |]. intros _ H. inversion_clear H.
  simpl. apply joinSpace_fold_nonempty. assumption.
Qed.

Lemma lineEntries_nil f : lineEntries f [] = [].
Proof. reflexivity. Qed.

Section Loop.

Variable widthOfTextAtSize : Font -> JsString -> Q -> Q.
Variable embedImage : JsString -> option (N * N).
Variable images : list Image.

Local Abbreviation wrapWord := (wrapWord widthOfTextAtSize embedImage images).

Lemma stateText_draw op st :
  stateText (draw op st) =
  stateText st ++ match textOf op with Some e => [e] | None => [] end.
Proof.
  unfold stateText, pdfPages, drawnText. simpl.
  rewrite !map_app, !concat_app, !omap_app. simpl.
  rewrite !app_nil_r, omap_app, <- app_assoc. simpl.
  destruct (textOf op); reflexivity.
Qed.

Lemma stateText_addPage st : stateText (addPage st) = stateText st.
Proof.
  unfold stateText, pdfPages. simpl. rewrite drawnText_app.
  apply app_nil_r.
Qed.

Lemma stateText_placeImage p st :
  stateText (placeImageIfNeeded embedImage images p st) = stateText st.
Proof.
  unfold placeImageIfNeeded.
  destruct (bool_decide _); [reflexivity |].
  destruct (List.find _ images) as [img |]; [| reflexivity].
  destruct (embedImage _) as [[w h] |]; [| reflexivity].
  destruct (scaleImage _ _) as [iw ih].
  change (stateText (markPlaced p ?s)) with (stateText s).
  change (stateText (setY ?y ?s)) with (stateText s).
  rewrite stateText_draw. simpl. rewrite app_nil_r.
  destruct (Qltb _ _); [apply stateText_addPage | reflexivity].
Qed.

Lemma stateText_breakPage st :
  stateText (breakPage embedImage images st) = stateText st.
Proof. unfold breakPage. rewrite stateText_placeImage. apply stateText_addPage. Qed.

Lemma stateText_ensureRoom f st :
  stateText (ensureRoom embedImage images f st) = stateText st.
Proof. unfold ensureRoom. destruct (Qltb _ _); [apply stateText_breakPage | reflexivity]. Qed.

Lemma stateText_headingSpacing f i st :
  stateText (headingSpacing embedImage images f i st) = stateText st.
Proof.
  unfold headingSpacing. destruct (_ && _); [| reflexivity].
  destruct (Qltb _ _); [apply stateText_breakPage |].
  destruct (Qgtb _ _); reflexivity.
Qed.



Lemma flushLine_text f g st :
  Forall (fun w => w <> []) g ->
  stateText (flushLine f (joinWords g) st) = stateText st ++ lineEntries f g.
Proof.
  intros Hg. unfold flushLine, lineEntries, lineOf.
  destruct g as [| w0 ws]; [symmetry; apply app_nil_r |].
  assert (Hne : w0 :: ws <> []) by discriminate.
  pose proof (joinWords_nonempty _ Hne Hg) as Hcur.
  destruct (joinWords (w0 :: ws)) as [| c cur]; [congruence |].
  destruct (trim (blankControl (c :: cur))) as [| a line]; [symmetry; apply app_nil_r |].
  change (stateText (setY ?y ?s)) with (stateText s).
  rewrite stateText_draw. reflexivity.
Qed.

Lemma nonBlank_nonempty w : nonBlank w = true -> w <> [].
Proof. intros H ->. discriminate. Qed.

Lemma wordsOf_nonempty t : Forall (fun w => w <> []) (wordsOf t).
Proof.
  unfold wordsOf. rewrite List.Forall_forall. intros w Hw.
  apply List.filter_In in Hw as [_ Hw]. apply nonBlank_nonempty. exact Hw.
Qed.



End Loop.

End Wrap.

(* ===================================================================== *)
(** * Lines made of solid words                                          *)
(* ===================================================================== *)

Module Solid.

Import Chars Wrap.

Lemma trimStart_solid c r : isWhiteSpace c = false -> trimStart (c :: r) = c :: r.
Proof. intros H. simpl. rewrite H. reflexivity. Qed.

Lemma trimEnd_solid s c : isWhiteSpace c = false -> trimEnd (s ++ [c]) = s ++ [c].
Proof.
  intros H. unfold trimEnd. rewrite rev_app_distr. simpl.
  rewrite H. simpl. rewrite rev_involutive. reflexivity.
Qed.

Lemma control_is_space a :
  chr_eqb a CR || chr_eqb a LF || chr_eqb a TAB = true ->
  isWhiteSpace a = true /\ a <> SP.
Proof.
  intros H. apply orb_true_iff in H as [H | H]; [apply orb_true_iff in H as [H | H] |];
    apply chr_eqb_eq in H; subst a; split; (reflexivity || discriminate).
Qed.

(** Nothing to blank in a line made of solid characters and spaces. *)
Lemma blankControl_id s :
  Forall (fun c => isWhiteSpace c = false \/ c = SP) s -> blankControl s = s.
Proof.
  induction 1 as [| a r Ha Hr IH]; simpl; [reflexivity |].
  rewrite IH. destruct (_ || _) eqn:E; [| reflexivity].
  apply control_is_space in E as [E1 E2]. destruct Ha; congruence.
Qed.

Lemma joinWords_unfold w0 ws :
  joinWords (w0 :: ws) = w0 ++ concat (map (cons SP) ws).
Proof.
  simpl. revert w0. induction ws as [| w ws IH]; intros w0; simpl.
  - symmetry. apply app_nil_r.
  - rewrite IH. unfold joinSpace. rewrite <- app_assoc. reflexivity.
Qed.

Lemma joinWords_chars g :
  Forall solidWord g ->
  Forall (fun c => isWhiteSpace c = false \/ c = SP) (joinWords g).
Proof.
  intros Hg. destruct g as [| w0 ws]; [constructor |].
  rewrite joinWords_unfold. inversion_clear Hg as [| ? ? [_ H0] Hws].
  apply Forall_app. split.
  - eapply Forall_impl; [exact H0 |]. intros c Hc. left. exact Hc.
  - induction Hws as [| w ws' [_ Hw] _ IH]; simpl; [constructor |].
    constructor; [right; reflexivity |]. apply Forall_app. split; [| exact IH].
    eapply Forall_impl; [exact Hw |]. intros c Hc. left. exact Hc.
Qed.

Lemma solidWord_last w :
  solidWord w -> exists s c, w = s ++ [c] /\ isWhiteSpace c = false.
Proof.
  intros [Hne Hall]. destruct (exists_last Hne) as (s & c & ->).
  exists s, c. split; [reflexivity |]. apply Forall_app in Hall as [_ Hc].
  inversion_clear Hc. assumption.
Qed.

Lemma joinWords_last g :
  g <> [] -> Forall solidWord g ->
  exists s c, joinWords g = s ++ [c] /\ isWhiteSpace c = false.
Proof.
  intros Hne Hg. destruct (exists_last Hne) as (g' & wl & ->).
  apply Forall_app in Hg as [Hg' Hwl]. inversion_clear Hwl as [| ? ? Hsolid _].
  destruct (solidWord_last wl Hsolid) as (s & c & -> & Hc).
  destruct g' as [| w0 ws].
  - exists s, c. auto.
  - rewrite joinWords_snoc by discriminate. unfold joinSpace.
    exists (joinWords (w0 :: ws) ++ SP :: s), c. split; [| exact Hc].
    rewrite <- app_assoc. reflexivity.
Qed.

Lemma joinWords_first g :
  g <> [] -> Forall solidWord g ->
  exists c r, joinWords g = c :: r /\ isWhiteSpace c = false.
Proof.
  intros Hne Hg. destruct g as [| w0 ws]; [congruence |].
  rewrite joinWords_unfold. inversion_clear Hg as [| ? ? [H0 Hall] _].
  destruct w0 as [| c r]; [congruence |]. inversion_clear Hall.
  exists c, (r ++ concat (map (cons SP) ws)). auto.
Qed.

(** A line of solid words is drawn as it is. *)
Lemma lineOf_solid g : g <> [] -> Forall solidWord g -> lineOf g = joinWords g.
Proof.
  intros Hne Hg. unfold lineOf. rewrite blankControl_id by (apply joinWords_chars, Hg).
  unfold trim.
  destruct (joinWords_first g Hne Hg) as (c & r & E1 & Hc).
  rewrite E1, (trimStart_solid c r Hc), <- E1.
  destruct (joinWords_last g Hne Hg) as (s & d & E2 & Hd).
  rewrite E2. apply trimEnd_solid. exact Hd.
Qed.

Lemma splitChar_app c w : forall cur s,
  Forall (fun a => a <> c) w -> splitChar c cur (w ++ s) = splitChar c (cur ++ w) s.
Proof.
  induction w as [| a w IH]; intros cur s Hw; simpl.
  - rewrite app_nil_r. reflexivity.
  - inversion_clear Hw as [| ? ? Ha Hrest].
    apply chr_eqb_neq in Ha. rewrite Ha, IH by exact Hrest.
    rewrite <- app_assoc. reflexivity.
Qed.

Lemma solidWord_no_space w : solidWord w -> Forall (fun a => a <> SP) w.
Proof.
  intros [_ H]. eapply Forall_impl; [exact H |]. intros a Ha ->. discriminate.
Qed.

Lemma splitChar_joined ws : forall cur w0,
  Forall solidWord (w0 :: ws) ->
  splitChar SP cur (w0 ++ concat (map (cons SP) ws)) = (cur ++ w0) :: ws.
Proof.
  induction ws as [| w1 ws IH]; intros cur w0 H; inversion_clear H as [| ? ? H0 Hws].
  - simpl. rewrite splitChar_app by (apply solidWord_no_space, H0). reflexivity.
  - rewrite splitChar_app by (apply solidWord_no_space, H0). simpl.
    rewrite IH by exact Hws. reflexivity.
Qed.

Lemma solidWord_nonBlank w : solidWord w -> nonBlank w = true.
Proof.
  intros Hw. pose proof Hw as [Hne Hall]. unfold nonBlank, trim.
  destruct w as [| c r]; [congruence |]. inversion Hall as [| ? ? Hc Hr]; subst.
  rewrite (trimStart_solid c r Hc).
  destruct (solidWord_last (c :: r) Hw) as (s & d & E & Hd).
  rewrite E, (trimEnd_solid s d Hd). destruct s; reflexivity.
Qed.

(** Splitting a line of solid words gives the words back. *)
Lemma wordsOf_joinWords g : Forall solidWord g -> wordsOf (joinWords g) = g.
Proof.
  intros Hg. unfold wordsOf. destruct g as [| w0 ws]; [reflexivity |].
  rewrite joinWords_unfold, splitChar_joined by exact Hg. simpl app.
  apply forallb_filter_id. apply forallb_forall. intros w Hw.
  apply solidWord_nonBlank. rewrite List.Forall_forall in Hg. auto.
Qed.

(** The words of a text whose white space is single spaces are solid. *)
Lemma wordsOf_solid t : spacedOnly t -> Forall solidWord (wordsOf t).
Proof.
  intros Ht. unfold wordsOf. rewrite List.Forall_forall. intros w Hw.
  apply List.filter_In in Hw as [Hin Hnb]. split; [apply nonBlank_nonempty, Hnb |].
  pose proof (splitChar_keeps _ SP [] t (List.Forall_nil _) Ht) as H1.
  pose proof (splitChar_free SP [] t (List.Forall_nil _)) as H2.
  rewrite List.Forall_forall in H1, H2. specialize (H1 w Hin). specialize (H2 w Hin).
  rewrite List.Forall_forall in *. intros a Ha.
  destruct (isWhiteSpace a) eqn:E; [| reflexivity].
  exfalso. apply (H2 a Ha). apply (H1 a Ha). exact E.
Qed.

Lemma concat_Forall {A} (P : A -> Prop) (groups : list (list A)) :
  Forall P (concat groups) -> Forall (Forall P) groups.
Proof.
  induction groups as [| g groups IH]; simpl; intros H; [constructor |].
  apply Forall_app in H as [H1 H2]. constructor; [exact H1 | apply IH, H2].
Qed.


End Solid.

(* ===================================================================== *)
(** * The text of the whole document                                     *)
(* ===================================================================== *)

Module DocumentText.

Import Chars ParagraphText Wrap Solid.




Section Document.

Variable widthOfTextAtSize : Font -> JsString -> Q -> Q.
Variable embedImage : JsString -> option (N * N).
Variable images : list Image.

Local Abbreviation processParagraph := (processParagraph widthOfTextAtSize embedImage images).
Local Abbreviation paragraphLoop := (paragraphLoop widthOfTextAtSize embedImage images).



End Document.

(** A text line of a page is one of the text lines of the document. *)
Lemma drawnText_In pages p text x y size font :
  In p pages -> In (DrawText text x y size font) (pageOps p) ->
  In (text, size, font) (drawnText pages).
Proof.
  intros Hp Hop. unfold drawnText.
  apply list_elem_of_In. apply list_elem_of_omap.
  exists (DrawText text x y size font). split; [| reflexivity].
  apply list_elem_of_In. apply in_concat. exists (pageOps p). split; [| exact Hop].
  apply in_map. exact Hp.
Qed.

End DocumentText.

(* ===================================================================== *)
(** * Heading paragraphs                                                 *)
(* ===================================================================== *)

Module Headings.

Import Chars.

Lemma span_app (p : ascii -> bool) a b :
  Forall (fun c => p c = true) a ->
  match b with [] => True | c :: _ => p c = false end ->
  span p (a ++ b) = (a, b).
Proof.
  intros Ha Hb. induction Ha as [| c r Hc _ IH]; simpl.
  - destruct b as [| c r]; [reflexivity |]. simpl. rewrite Hb. reflexivity.
  - rewrite Hc, IH. reflexivity.
Qed.

Lemma whiteSpace_not_hash c : isWhiteSpace c = true -> isHash c = false.
Proof.
  intros H. destruct (isHash c) eqn:E; [| reflexivity].
  apply chr_eqb_eq in E. subst c. discriminate.
Qed.




End Headings.

(* ===================================================================== *)
(** * The loop with the encoder: what is thrown and what is returned     *)
(* ===================================================================== *)

Module Encoder.

Import Chars.

Section Loop.

Variable widthOfTextAtSize : Font -> JsString -> Q -> Q.
Variable encodingError : ascii -> option JsString.
Variable embedImage : JsString -> option (N * N).
Variable images : list Image.

Local Abbreviation encodeText := (encodeText encodingError).
Local Abbreviation wrapWord := (wrapWord widthOfTextAtSize embedImage images).
Local Abbreviation wrapWordOrThrow :=
  (wrapWordOrThrow widthOfTextAtSize encodingError embedImage images).
Local Abbreviation wrapLoopOrThrow :=
  (wrapLoopOrThrow widthOfTextAtSize encodingError embedImage images).
Local Abbreviation renderParagraph := (renderParagraph widthOfTextAtSize embedImage images).
Local Abbreviation renderParagraphOrThrow :=
  (renderParagraphOrThrow widthOfTextAtSize encodingError embedImage images).
Local Abbreviation processParagraph := (processParagraph widthOfTextAtSize embedImage images).
Local Abbreviation processParagraphOrThrow :=
  (processParagraphOrThrow widthOfTextAtSize encodingError embedImage images).
Local Abbreviation paragraphLoop := (paragraphLoop widthOfTextAtSize embedImage images).
Local Abbreviation paragraphLoopOrThrow :=
  (paragraphLoopOrThrow widthOfTextAtSize encodingError embedImage images).

(** The characters of the texts handed to pdf-lib satisfy [R]; [refused e]
    says that [e] is the error of one of them. *)
Variable R : ascii -> Prop.
Hypothesis R_space : R SP.

Definition refused (e : JsString) : Prop := exists c, R c /\ encodingError c = Some e.

Lemma encodeText_cases text :
  Forall R text ->
  encodeText text = Returned tt \/ exists e, refused e /\ encodeText text = Thrown e.
Proof.
  induction 1 as [| c rest Hc Hrest IH]; [left; reflexivity |].
  cbn [Pdf.encodeText]. destruct (encodingError c) as [e |] eqn:E; [| exact IH].
  right. exists e. split; [exists c; split; assumption | reflexivity].
Qed.

Lemma encoded_cases {A} text (k : Outcome A) :
  Forall R text ->
  encoded encodingError text k = k \/
  exists e, refused e /\ encoded encodingError text k = Thrown e.
Proof.
  intros H. unfold encoded.
  destruct (encodeText_cases text H) as [-> | (e & He & ->)]; [left; reflexivity |].
  right. exists e. split; [exact He | reflexivity].
Qed.

(** The current line is made of the characters of the words and of
    spaces. *)
Lemma wrapWord_chars f cur st word :
  Forall R cur -> Forall R word -> Forall R (fst (wrapWord f (cur, st) word)).
Proof.
  intros Hcur Hword. unfold Pdf.wrapWord.
  destruct (Qgtb _ _).
  - destruct cur; exact Hword.
  - destruct cur as [| c cur']; [exact Hword |].
    apply joinSpace_keeps; assumption.
Qed.

Lemma wrapWordOrThrow_cases f cur st word :
  Forall R cur -> Forall R word ->
  wrapWordOrThrow f (cur, st) word = Returned (wrapWord f (cur, st) word) \/
  exists e, refused e /\ wrapWordOrThrow f (cur, st) word = Thrown e.
Proof.
  intros Hcur Hword. unfold Pdf.wrapWordOrThrow.
  assert (Htest : Forall R (blankControl
            match cur with _ :: _ => joinSpace cur word | [] => word end)).
  { apply blankControl_keeps; [exact R_space |].
    destruct cur; [exact Hword | apply joinSpace_keeps; assumption]. }
  set (test := blankControl match cur with _ :: _ => joinSpace cur word | [] => word end)
    in *.
  match goal with
  | |- context [encoded encodingError test ?k] =>
      destruct (encoded_cases test k Htest) as [-> | (e & He & ->)]
  end; [| right; exists e; split; [exact He | reflexivity]].
  destruct (Qgtb _ _); [| left; reflexivity].
  destruct cur as [| c cur']; [left; reflexivity |].
  assert (Hclean : Forall R (trim (blankControl (c :: cur')))).
  { apply trim_keeps, blankControl_keeps; [exact R_space | exact Hcur]. }
  cbv zeta.
  destruct (trim (blankControl (c :: cur'))) as [| a line]; [left; reflexivity |].
  apply encoded_cases. exact Hclean.
Qed.

Lemma wrapLoopOrThrow_cases f words : forall cur st,
  Forall R cur -> Forall (Forall R) words ->
  wrapLoopOrThrow f words (cur, st) = Returned (fold_left (wrapWord f) words (cur, st)) \/
  exists e, refused e /\ wrapLoopOrThrow f words (cur, st) = Thrown e.
Proof.
  induction words as [| word rest IH]; intros cur st Hcur Hwords; [left; reflexivity |].
  inversion_clear Hwords as [| ? ? Hword Hrest].
  cbn [Pdf.wrapLoopOrThrow fold_left].
  pose proof (wrapWord_chars f cur st word Hcur Hword) as Hnext.
  destruct (wrapWordOrThrow_cases f cur st word Hcur Hword) as [-> | (e & He & ->)];
    [| right; exists e; split; [exact He | reflexivity]].
  destruct (wrapWord f (cur, st) word) as [cur' st']. apply IH; assumption.
Qed.

Lemma wrapLoop_chars f words : forall cur st,
  Forall R cur -> Forall (Forall R) words ->
  Forall R (fst (fold_left (wrapWord f) words (cur, st))).
Proof.
  induction words as [| word rest IH]; intros cur st Hcur Hwords; [exact Hcur |].
  inversion_clear Hwords as [| ? ? Hword Hrest]. cbn [fold_left].
  pose proof (wrapWord_chars f cur st word Hcur Hword) as Hnext.
  destruct (wrapWord f (cur, st) word) as [cur' st']. apply IH; assumption.
Qed.

Lemma flushLineOrThrow_cases f cur st :
  Forall R cur ->
  flushLineOrThrow encodingError f cur st = Returned (flushLine f cur st) \/
  exists e, refused e /\ flushLineOrThrow encodingError f cur st = Thrown e.
Proof.
  intros Hcur. unfold flushLineOrThrow.
  destruct cur as [| c cur']; [left; reflexivity |].
  assert (Hclean : Forall R (trim (blankControl (c :: cur')))).
  { apply trim_keeps, blankControl_keeps; [exact R_space | exact Hcur]. }
  cbv zeta.
  destruct (trim (blankControl (c :: cur'))) as [| a line]; [left; reflexivity |].
  apply encoded_cases. exact Hclean.
Qed.

Lemma renderParagraphOrThrow_cases f i text st :
  Forall (Forall R) (wordsOf text) ->
  renderParagraphOrThrow f i text st = Returned (renderParagraph f i text st) \/
  exists e, refused e /\ renderParagraphOrThrow f i text st = Thrown e.
Proof.
  intros Hwords. unfold Pdf.renderParagraphOrThrow, Pdf.renderParagraph.
  set (st1 := ensureRoom embedImage images f (headingSpacing embedImage images f i st)).
  pose proof (wrapLoop_chars f (wordsOf text) [] st1 (List.Forall_nil _) Hwords) as Hcur.
  destruct (wrapLoopOrThrow_cases f (wordsOf text) [] st1 (List.Forall_nil _) Hwords)
    as [-> | (e & He & ->)]; [| right; exists e; split; [exact He | reflexivity]].
  destruct (fold_left _ _ _) as [cur st2]. apply flushLineOrThrow_cases. exact Hcur.
Qed.

Lemma processParagraphOrThrow_cases i paragraph st :
  Forall (Forall R) (wordsOf (paragraphText paragraph)) ->
  processParagraphOrThrow i paragraph st = Returned (processParagraph i paragraph st) \/
  exists e, refused e /\ processParagraphOrThrow i paragraph st = Thrown e.
Proof.
  unfold paragraphText, Pdf.processParagraphOrThrow, Pdf.processParagraph.
  destruct (cleanParagraph _ _) as [| c t] eqn:E; [left; reflexivity |].
  apply renderParagraphOrThrow_cases.
Qed.

Lemma paragraphLoopOrThrow_cases paragraphs : forall i st,
  Forall (fun p => Forall (Forall R) (wordsOf (paragraphText p))) paragraphs ->
  paragraphLoopOrThrow i paragraphs st = Returned (paragraphLoop i paragraphs st) \/
  exists e, refused e /\ paragraphLoopOrThrow i paragraphs st = Thrown e.
Proof.
  induction paragraphs as [| p rest IH]; intros i st Hall; [left; reflexivity |].
  inversion_clear Hall as [| ? ? Hp Hrest].
  cbn [Pdf.paragraphLoopOrThrow Pdf.paragraphLoop].
  destruct (processParagraphOrThrow_cases i p st Hp) as [-> | (e & He & ->)];
    [| right; exists e; split; [exact He | reflexivity]].
  apply IH. exact Hrest.
Qed.

End Loop.


(** Every list of words is made of some characters. *)
Lemma all_words (paragraphs : list JsString) :
  Forall (fun p => Forall (Forall (fun _ : ascii => True)) (wordsOf (paragraphText p)))
    paragraphs.
Proof.
  rewrite List.Forall_forall. intros p _. rewrite List.Forall_forall. intros w _.
  rewrite List.Forall_forall. intros c _. exact I.
Qed.

Section Generator.

Variable widthOfTextAtSize : Font -> JsString -> Q -> Q.
Variable encodingError : ascii -> option JsString.
Variable embedImage : JsString -> option (N * N).
Variable images : list Image.

(** A document that is returned is the one of the loop without throws. *)
Lemma generator_returned content numPages pages :
  generateWhitepaperPDF widthOfTextAtSize encodingError embedImage images content numPages
    = Returned pages ->
  nonBlank content = true /\
  pages = pdfPages (paragraphLoop widthOfTextAtSize embedImage images 0
                      (pdfParagraphs content) initialState).
Proof.
  unfold generateWhitepaperPDF. destruct (nonBlank content); [| discriminate].
  cbn [negb].
  destruct (paragraphLoopOrThrow_cases widthOfTextAtSize encodingError embedImage images
              (fun _ => True) I (pdfParagraphs content) 0%nat initialState
              (all_words _)) as [-> | (e & _ & ->)]; [| discriminate].
  intros [= <-]. split; reflexivity.
Qed.







End Generator.

End Encoder.

(* ===================================================================== *)
(** * Blank and non-blank text                                           *)
(* ===================================================================== *)

Module Blank.

Lemma trimStart_nil_iff s : trimStart s = [] <-> Forall (fun c => isWhiteSpace c = true) s.
Proof.
  induction s as [| c r IH]; simpl.
  - split; [constructor | reflexivity].
  - destruct (isWhiteSpace c) eqn:E.
    + rewrite IH. split; intros H; [constructor; assumption | inversion H; assumption].
    + split; [discriminate |]. intros H. inversion H. congruence.
Qed.

Lemma nonBlank_false_iff s : nonBlank s = false <-> Forall (fun c => isWhiteSpace c = true) s.
Proof.
  unfold nonBlank, trim, trimEnd.
  assert (Hrev : forall t, rev (trimStart (rev t)) = [] <->
                           Forall (fun c => isWhiteSpace c = true) t).
  { intros t. split; intros H.
    - apply (f_equal (@rev ascii)) in H. rewrite rev_involutive in H. cbn [rev] in H.
      apply trimStart_nil_iff in H. apply List.Forall_rev in H.
      rewrite rev_involutive in H. exact H.
    - apply List.Forall_rev in H. apply trimStart_nil_iff in H. rewrite H. reflexivity. }
  split.
  - intros H. destruct (rev (trimStart (rev (trimStart s)))) eqn:E; [| discriminate].
    apply Hrev in E. apply trimStart_nil_iff.
    destruct (trimStart s) as [| c r] eqn:Es; [reflexivity |].
    exfalso. inversion E as [| ? ? Hc _]; subst.
    assert (Hhead : forall t c r, trimStart t = c :: r -> isWhiteSpace c = false).
    { induction t as [| a t IHt]; simpl; [discriminate |].
      intros c0 r0. destruct (isWhiteSpace a) eqn:Ea; [apply IHt |].
      intros [= <- <-]. exact Ea. }
    rewrite (Hhead s c r Es) in Hc. discriminate.
  - intros H. apply trimStart_nil_iff in H. rewrite H. reflexivity.
Qed.


End Blank.

(* ===================================================================== *)
(** * Segmentation: content without carriage returns                     *)
(* ===================================================================== *)

Module SegmentationLemmas.

Import Chars.

Lemma replaceCRLF_id s : Forall (fun c => c <> CR) s -> replaceCRLF s = s.
Proof.
  induction 1 as [| a t Ha Ht IH]; [reflexivity |].
  cbn [replaceCRLF]. destruct t as [| b r]; [reflexivity |].
  apply chr_eqb_neq in Ha. rewrite Ha. cbn [andb]. rewrite IH. reflexivity.
Qed.

Lemma replaceChar_id c d s : Forall (fun a => a <> c) s -> replaceChar c d s = s.
Proof.
  induction 1 as [| a t Ha Ht IH]; [reflexivity |].
  unfold replaceChar in *. cbn [map]. rewrite IH.
  apply chr_eqb_neq in Ha. rewrite Ha. reflexivity.
Qed.

(** Without carriage returns the normalisation changes nothing. *)
Lemma normalizeNewlines_id content :
  Forall (fun c => c <> CR) content -> normalizeNewlines content = content.
Proof.
  intros H. unfold normalizeNewlines. rewrite (replaceCRLF_id content H).
  apply replaceChar_id. exact H.
Qed.

(** ** The split at the blank lines *)

Import SegmentationSpec.

Lemma blankLineIn_snoc cur c :
  ~ blankLineIn cur -> List.last cur SP <> LF \/ c <> LF -> ~ blankLineIn (cur ++ [c]).
Proof.
  induction cur as [| a t IH]; intros Hcur Hc; [intros [] |].
  destruct t as [| b t'].
  - cbn. intros [[-> ->] | []]. destruct Hc as [Hc | Hc]; apply Hc; reflexivity.
  - change ((a :: b :: t') ++ [c]) with (a :: b :: (t' ++ [c])).
    cbn [blankLineIn] in *. intros [Hab | Hrest].
    + apply Hcur. left. exact Hab.
    + revert Hrest. apply IH; [intros H; apply Hcur; right; exact H |].
      exact Hc.
Qed.

Lemma repeat_snoc (n : nat) (r : JsString) :
  repeat LF n ++ LF :: r = repeat LF (S n) ++ r.
Proof.
  change (LF :: r) with ([LF] ++ r). rewrite app_assoc, <- repeat_cons. reflexivity.
Qed.

(** [split(/\n\n+/)] cuts the string at its runs of two or more line
    feeds. *)
Lemma splitBlankLines_spec s : forall cur nl,
  ~ blankLineIn cur -> List.last cur SP <> LF ->
  splitAtBlankLines (cur ++ repeat LF nl ++ s) (splitBlankLines cur nl s).
Proof.
  induction s as [| c r IH]; intros cur nl Hcur Hlast.
  - cbn [splitBlankLines]. rewrite app_nil_r.
    destruct nl as [| [| n]].
    + cbn [repeat]. rewrite app_nil_r. apply split_end. exact Hcur.
    + cbn [repeat]. apply split_end. apply blankLineIn_snoc; [exact Hcur | left; exact Hlast].
    + rewrite <- (app_nil_r (repeat LF (S (S n)))).
      apply split_run; [exact Hcur | exact Hlast | lia | discriminate |].
      apply split_end. intros [].
  - cbn [splitBlankLines]. destruct (chr_eqb c LF) eqn:E.
    + apply chr_eqb_eq in E. subst c. rewrite repeat_snoc. apply IH; assumption.
    + apply chr_eqb_neq in E. destruct nl as [| [| n]].
      * cbn [repeat app].
        replace (cur ++ c :: r) with ((cur ++ [c]) ++ repeat LF 0 ++ r)
          by (rewrite <- app_assoc; reflexivity).
        apply IH.
        -- apply blankLineIn_snoc; [exact Hcur | right; exact E].
        -- rewrite last_last. exact E.
      * cbn [repeat app].
        replace (cur ++ LF :: c :: r) with ((cur ++ [LF; c]) ++ repeat LF 0 ++ r)
          by (rewrite <- app_assoc; reflexivity).
        apply IH.
        -- change [LF; c] with ([LF] ++ [c]). rewrite app_assoc.
           apply blankLineIn_snoc; [| right; exact E].
           apply blankLineIn_snoc; [exact Hcur | left; exact Hlast].
        -- change [LF; c] with ([LF] ++ [c]). rewrite app_assoc, last_last. exact E.
      * apply split_run; [exact Hcur | exact Hlast | lia | exact E |].
        apply (IH [c] 0%nat); [intros [] | exact E].
Qed.

(** ** The split at the line feeds *)

Lemma splitChar_nonempty c s : forall cur, splitChar c cur s <> [].
Proof.
  induction s as [| a r IH]; intros cur; cbn [splitChar]; [discriminate |].
  destruct (chr_eqb a c); [discriminate | apply IH].
Qed.

Lemma splitChar_join c s : forall cur, joinWith c (splitChar c cur s) = cur ++ s.
Proof.
  induction s as [| a r IH]; intros cur; cbn [splitChar].
  - cbn. symmetry. apply app_nil_r.
  - destruct (chr_eqb a c) eqn:E.
    + apply chr_eqb_eq in E. subst a. cbn [joinWith].
      pose proof (splitChar_nonempty c r []) as Hne. specialize (IH []).
      destruct (splitChar c [] r) as [| p rest]; [congruence |].
      rewrite IH. reflexivity.
    + rewrite IH, <- app_assoc. reflexivity.
Qed.

Lemma splitChar_lines s : splitAtLineFeeds s (splitChar LF [] s).
Proof.
  split; [apply splitChar_nonempty |]. split; [apply splitChar_join |].
  apply splitChar_free. constructor.
Qed.

(** ** Heading lines *)

Lemma span_split (p : ascii -> bool) s :
  s = fst (span p s) ++ snd (span p s) /\
  Forall (fun c => p c = true) (fst (span p s)).
Proof.
  induction s as [| c r [IH1 IH2]]; cbn [span]; [split; [reflexivity | constructor] |].
  destruct (p c) eqn:E; [| split; [reflexivity | constructor]].
  destruct (span p r) as [a b]. cbn [fst snd] in *. split.
  - rewrite IH1 at 1. reflexivity.
  - constructor; assumption.
Qed.

Lemma isHeadingLine_spec line : isHeadingLine line = true <-> headingLine line.
Proof.
  unfold isHeadingLine, headingLine. split.
  - intros H. destruct (span_split isHash line) as [Hline Hhash].
    destruct (span isHash line) as [hashes r]. cbn [fst snd] in *.
    apply andb_true_iff in H as [H Hws]. apply andb_true_iff in H as [H1 H3].
    apply Nat.leb_le in H1, H3.
    destruct r as [| c rest]; [discriminate |].
    exists (length hashes), c, rest. split; [lia |]. split; [| exact Hws].
    rewrite Hline. f_equal.
    clear - Hhash. induction Hhash as [| a t Ha _ IH]; [reflexivity |].
    apply chr_eqb_eq in Ha. subst a. cbn [length repeat]. rewrite <- IH. reflexivity.
  - intros (k & c & rest & Hk & -> & Hws).
    rewrite (Headings.span_app isHash (repeat HASH k) (c :: rest)).
    + rewrite repeat_length, Hws.
      replace ((1 <=? k)%nat && (k <=? 3)%nat) with true
        by (symmetry; apply andb_true_iff; split; apply Nat.leb_le; lia).
      reflexivity.
    + rewrite List.Forall_forall. intros a Ha. apply repeat_spec in Ha. subst a. reflexivity.
    + apply Headings.whiteSpace_not_hash. exact Hws.
Qed.

(** ** Text without white space at its ends *)

Lemma trimStart_split s :
  exists ws, s = ws ++ trimStart s /\
             (trimStart s = [] \/ isWhiteSpace (hd SP (trimStart s)) = false).
Proof.
  induction s as [| c r (ws & IH1 & IH2)]; [exists []; split; [reflexivity | left; reflexivity] |].
  cbn [trimStart]. destruct (isWhiteSpace c) eqn:E.
  - exists (c :: ws). split; [cbn; rewrite <- IH1; reflexivity | exact IH2].
  - exists []. split; [reflexivity | right; exact E].
Qed.

Lemma last_rev (s : JsString) d : List.last (rev s) d = hd d s.
Proof. destruct s as [| c r]; [reflexivity |]. cbn [rev hd]. apply last_last. Qed.

Lemma hd_app (a b : JsString) d : a <> [] -> hd d (a ++ b) = hd d a.
Proof. destruct a; [congruence | reflexivity]. Qed.

Lemma last_app_r (a b : JsString) d : b <> [] -> List.last (a ++ b) d = List.last b d.
Proof.
  intros Hb. destruct (exists_last Hb) as (b' & c & ->).
  rewrite app_assoc, !last_last. reflexivity.
Qed.

Lemma trimmed_trim s : nonBlank s = true -> trimmed (trim s).
Proof.
  unfold nonBlank, trim, trimEnd, trimmed. intros Hnb.
  destruct (trimStart_split s) as (ws1 & _ & Hhead).
  set (t := trimStart s) in *.
  destruct (trimStart_split (rev t)) as (ws2 & Hrev & Hlast).
  set (u := trimStart (rev t)) in *.
  assert (Hu : u <> []) by (intros E; rewrite E in Hnb; discriminate).
  destruct Hlast as [Hlast | Hlast]; [congruence |].
  assert (Ht : t = rev u ++ rev ws2).
  { rewrite <- (rev_involutive t), Hrev, rev_app_distr. reflexivity. }
  assert (Hru : rev u <> []).
  { intros E. apply (f_equal (@rev ascii)) in E. rewrite rev_involutive in E.
    exact (Hu E). }
  split.
  - destruct Hhead as [Hhead | Hhead].
    + rewrite Hhead in Ht. destruct (rev u); [congruence | discriminate].
    + rewrite Ht, hd_app in Hhead by exact Hru. exact Hhead.
  - rewrite last_rev. exact Hlast.
Qed.

Lemma trim_trimmed s : trimmed s -> trim s = s.
Proof.
  intros [Hhd Hlast]. unfold trim.
  destruct s as [| c r]; [discriminate |]. cbn [hd] in Hhd.
  rewrite (Solid.trimStart_solid c r Hhd).
  destruct (@exists_last _ (c :: r) ltac:(discriminate)) as (r' & d & E).
  rewrite E in *. rewrite last_last in Hlast. apply Solid.trimEnd_solid. exact Hlast.
Qed.

Lemma trimmed_nonempty s : trimmed s -> s <> [].
Proof. intros [H _] ->. discriminate. Qed.

Lemma trimmed_nonBlank s : trimmed s -> nonBlank s = true.
Proof.
  intros H. unfold nonBlank. rewrite (trim_trimmed s H).
  pose proof (trimmed_nonempty s H). destruct s; [congruence | reflexivity].
Qed.

Lemma trimmed_joinSpace a b : trimmed a -> trimmed b -> trimmed (joinSpace a b).
Proof.
  intros Ha Hb. unfold joinSpace, trimmed.
  rewrite hd_app by (apply trimmed_nonempty; exact Ha).
  change (SP :: b) with ([SP] ++ b).
  rewrite (last_app_r a ([SP] ++ b)) by discriminate.
  rewrite (last_app_r [SP] b) by (apply trimmed_nonempty; exact Hb).
  split; [apply Ha | apply Hb].
Qed.

(** ** The grouping of the lines *)

Lemma joinWith_snoc run line :
  run <> [] -> joinWith SP (run ++ [line]) = joinSpace (joinWith SP run) line.
Proof.
  induction run as [| l rest IH]; intros Hne; [congruence |].
  destruct rest as [| l' rest']; [reflexivity |].
  specialize (IH ltac:(discriminate)).
  change (joinWith SP ((l :: l' :: rest') ++ [line]))
    with (l ++ SP :: joinWith SP ((l' :: rest') ++ [line])).
  change (joinWith SP (l :: l' :: rest')) with (l ++ SP :: joinWith SP (l' :: rest')).
  rewrite IH. unfold joinSpace. rewrite <- app_assoc. reflexivity.
Qed.

Lemma joinWith_trimmed run :
  run <> [] -> Forall trimmed run -> trimmed (joinWith SP run).
Proof.
  intros Hne Hall. destruct (exists_last Hne) as (run' & l & ->). clear Hne.
  revert l Hall. induction run' as [| a run'' IH] using rev_ind; intros l Hall.
  - inversion_clear Hall. assumption.
  - apply Forall_app in Hall as [Hall Hl]. inversion_clear Hl as [| ? ? Hl' _].
    rewrite joinWith_snoc by (destruct run''; discriminate).
    apply trimmed_joinSpace; [apply IH; exact Hall | exact Hl'].
Qed.

(** The loop over the lines: the paragraphs pushed are those of the
    grouping of the lines still in [currentParagraph] and of the lines
    still to read. *)
Lemma groupLines_spec lines : forall run paragraphs,
  Forall (fun l => nonBlank l = true) lines ->
  Forall trimmed run -> Forall (fun line => ~ headingLine line) run ->
  exists pushed,
    groupLines lines paragraphs (joinWith SP run) = paragraphs ++ pushed /\
    grouped (run ++ map trim lines) pushed.
Proof.
  induction lines as [| l rest IH]; intros run paragraphs Hlines Hrun Hplain.
  - cbn [groupLines map]. rewrite app_nil_r.
    destruct run as [| r0 run'].
    + exists []. rewrite app_nil_r. split; [reflexivity | constructor].
    + pose proof (joinWith_trimmed (r0 :: run') ltac:(discriminate) Hrun) as Ht.
      rewrite (trimmed_nonBlank _ Ht), (trim_trimmed _ Ht).
      exists [joinWith SP (r0 :: run')]. split; [reflexivity |].
      rewrite <- (app_nil_r (r0 :: run')) at 1.
      apply grouped_run; [discriminate | exact Hplain | exact I | constructor].
  - inversion_clear Hlines as [| ? ? Hl Hrest].
    pose proof (trimmed_trim l Hl) as Hline.
    cbn [groupLines map]. cbv zeta.
    destruct (isHeadingLine (trim l)) eqn:Eh.
    + apply isHeadingLine_spec in Eh.
      destruct run as [| r0 run'].
      * destruct (IH [] (paragraphs ++ [trim l]) Hrest (List.Forall_nil _) (List.Forall_nil _))
          as (pushed & E & G).
        exists (trim l :: pushed). change (joinWith SP []) with (@nil ascii) in *.
        change (nonBlank []) with false. cbv iota. rewrite E, <- app_assoc.
        split; [reflexivity |]. apply grouped_heading; assumption.
      * pose proof (joinWith_trimmed (r0 :: run') ltac:(discriminate) Hrun) as Ht.
        rewrite (trimmed_nonBlank _ Ht), (trim_trimmed _ Ht).
        destruct (IH [] ((paragraphs ++ [joinWith SP (r0 :: run')]) ++ [trim l]) Hrest
                    (List.Forall_nil _) (List.Forall_nil _)) as (pushed & E & G).
        exists (joinWith SP (r0 :: run') :: trim l :: pushed).
        change (joinWith SP []) with (@nil ascii) in E. rewrite E, <- !app_assoc.
        split; [reflexivity |].
        apply grouped_run; [discriminate | exact Hplain | exact Eh |].
        apply grouped_heading; assumption.
    + assert (Hnot : ~ headingLine (trim l)).
      { intros H. apply isHeadingLine_spec in H. congruence. }
      assert (Hrun' : Forall trimmed (run ++ [trim l])).
      { apply Forall_app. split; [exact Hrun | constructor; [exact Hline | constructor]]. }
      assert (Hplain' : Forall (fun line => ~ headingLine line) (run ++ [trim l])).
      { apply Forall_app. split; [exact Hplain | constructor; [exact Hnot | constructor]]. }
      destruct (IH (run ++ [trim l]) paragraphs Hrest Hrun' Hplain') as (pushed & E & G).
      exists pushed. rewrite <- app_assoc in G. split; [| exact G].
      destruct run as [| r0 run'].
      * change (joinWith SP []) with (@nil ascii). exact E.
      * pose proof (trimmed_nonempty _
                      (joinWith_trimmed (r0 :: run') ltac:(discriminate) Hrun)) as Hne.
        rewrite joinWith_snoc in E by discriminate.
        destruct (joinWith SP (r0 :: run')); [congruence | exact E].
Qed.

(** ** The two specifications determine their result *)

Lemma blankLineIn_run a k b : (2 <= k)%nat -> blankLineIn (a ++ repeat LF k ++ b).
Proof.
  intros Hk. destruct k as [| [| n]]; [lia | lia |]. clear Hk.
  induction a as [| x a' IH].
  - cbn. left. split; reflexivity.
  - change ((x :: a') ++ repeat LF (S (S n)) ++ b)
      with (x :: (a' ++ repeat LF (S (S n)) ++ b)).
    destruct (a' ++ repeat LF (S (S n)) ++ b) as [| y t] eqn:E; [destruct IH |].
    cbn [blankLineIn]. right. exact IH.
Qed.

Lemma blankLineIn_tail x (p : JsString) : ~ blankLineIn (x :: p) -> ~ blankLineIn p.
Proof.
  intros H Hp. apply H. destruct p as [| y t]; [destruct Hp |].
  right. exact Hp.
Qed.

Lemma last_tail x (p : JsString) : List.last (x :: p) SP <> LF -> List.last p SP <> LF.
Proof. destruct p as [| y t]; [discriminate | intros H; exact H]. Qed.

Lemma run_unique k : forall k' (r r' : JsString),
  hd SP r <> LF -> hd SP r' <> LF ->
  repeat LF k ++ r = repeat LF k' ++ r' -> k = k' /\ r = r'.
Proof.
  induction k as [| k IH]; intros [| k'] r r' Hr Hr' E; cbn [repeat app] in E.
  - split; [reflexivity | exact E].
  - subst r. exfalso. apply Hr. reflexivity.
  - subst r'. exfalso. apply Hr'. reflexivity.
  - injection E as E. destruct (IH k' r r' Hr Hr' E) as [-> ->]. split; reflexivity.
Qed.

Lemma run_not_piece (p : JsString) k r t :
  p <> [] -> ~ blankLineIn p -> List.last p SP <> LF -> (2 <= k)%nat ->
  repeat LF k ++ r = p ++ t -> False.
Proof.
  intros Hp Hblank Hlast Hk E. destruct k as [| [| n]]; [lia | lia |].
  cbn [repeat app] in E. destruct p as [| x [| y p']]; [congruence | |].
  - injection E as <- _. apply Hlast. reflexivity.
  - injection E as <- <- _. apply Hblank. left. split; reflexivity.
Qed.

Lemma piece_unique (p : JsString) : forall p' k k' r r',
  ~ blankLineIn p -> List.last p SP <> LF -> (2 <= k)%nat -> hd SP r <> LF ->
  ~ blankLineIn p' -> List.last p' SP <> LF -> (2 <= k')%nat -> hd SP r' <> LF ->
  p ++ repeat LF k ++ r = p' ++ repeat LF k' ++ r' ->
  p = p' /\ k = k' /\ r = r'.
Proof.
  induction p as [| x p0 IH]; intros p' k k' r r' Hb Hl Hk Hr Hb' Hl' Hk' Hr' E.
  - destruct p' as [| x' p0'].
    + destruct (run_unique k k' r r' Hr Hr' E) as [-> ->]. repeat split.
    + exfalso. cbn [app] in E.
      apply (run_not_piece (x' :: p0') k r (repeat LF k' ++ r')); try assumption.
      discriminate.
  - destruct p' as [| x' p0'].
    + exfalso. cbn [app] in E. symmetry in E.
      apply (run_not_piece (x :: p0) k' r' (repeat LF k ++ r)); try assumption.
      discriminate.
    + injection E as <- E.
      destruct (IH p0' k k' r r') as (-> & -> & ->); try assumption;
        eauto using blankLineIn_tail, last_tail.
Qed.

(** The pieces between the runs of line feeds are determined by the
    string. *)
Lemma splitAtBlankLines_unique s pieces :
  splitAtBlankLines s pieces -> forall pieces', splitAtBlankLines s pieces' ->
  pieces = pieces'.
Proof.
  induction 1 as [piece Hb | piece k rest pieces Hb Hl Hk Hr Hrest IH];
    intros pieces' H'.
  - inversion H' as [? Hb' | piece' k' rest' ps' Hb' Hl' Hk' Hr' Hrest' E]; subst;
      [reflexivity |].
    exfalso. apply Hb. apply blankLineIn_run. exact Hk'.
  - inversion H' as [? Hb' | piece' k' rest' ps' Hb' Hl' Hk' Hr' Hrest' E]; subst.
    + exfalso. apply Hb'. apply blankLineIn_run. exact Hk.
    + destruct (piece_unique piece' piece k' k rest' rest) as (-> & -> & ->);
        try assumption.
      f_equal. apply IH. exact Hrest'.
Qed.

Lemma joinWith_unique (lines : list JsString) : forall lines',
  lines <> [] -> lines' <> [] ->
  Forall (Forall (fun c => c <> LF)) lines -> Forall (Forall (fun c => c <> LF)) lines' ->
  joinWith LF lines = joinWith LF lines' -> lines = lines'.
Proof.
  assert (Hline : forall (l l' t t' : JsString),
             Forall (fun c => c <> LF) l -> Forall (fun c => c <> LF) l' ->
             (t = [] \/ hd SP t = LF) -> (t' = [] \/ hd SP t' = LF) ->
             l ++ t = l' ++ t' -> l = l' /\ t = t').
  { induction l as [| c l IHl]; intros [| c' l'] t t' Hl Hl' Ht Ht' E; cbn [app] in E.
    - split; [reflexivity | exact E].
    - exfalso. subst t. inversion_clear Hl' as [| ? ? Hc _].
      destruct Ht as [Ht | Ht]; [discriminate | exact (Hc Ht)].
    - exfalso. subst t'. inversion_clear Hl as [| ? ? Hc _].
      destruct Ht' as [Ht' | Ht']; [discriminate | exact (Hc Ht')].
    - injection E as <- E. inversion_clear Hl. inversion_clear Hl'.
      destruct (IHl l' t t') as [-> ->]; try assumption. split; reflexivity. }
  assert (Hshape : forall l rest, joinWith LF (l :: rest) =
                     l ++ match rest with [] => [] | _ :: _ => LF :: joinWith LF rest end).
  { intros l [| l2 rest]; [cbn; symmetry; apply app_nil_r | reflexivity]. }
  induction lines as [| l rest IH]; intros [| l' rest'] Hne Hne' Hall Hall' E;
    try congruence.
  inversion_clear Hall as [| ? ? Hl Hrest]. inversion_clear Hall' as [| ? ? Hl' Hrest'].
  rewrite !Hshape in E.
  apply Hline in E as [-> E]; try assumption;
    try (match goal with |- context [match ?r with _ => _ end] => destruct r end;
         [left; reflexivity | right; reflexivity]).
  f_equal. destruct rest as [| l2 rest], rest' as [| l2' rest']; try discriminate;
    [reflexivity |].
  injection E as E. apply IH; try assumption; discriminate.
Qed.

(** The lines of a string are determined by the string. *)
Lemma splitAtLineFeeds_unique s lines lines' :
  splitAtLineFeeds s lines -> splitAtLineFeeds s lines' -> lines = lines'.
Proof.
  intros (Hne & Hjoin & Hall) (Hne' & Hjoin' & Hall').
  apply joinWith_unique; try assumption. congruence.
Qed.

Lemma run_split_unique (run : list JsString) : forall run' rest rest',
  Forall (fun line => ~ headingLine line) run ->
  Forall (fun line => ~ headingLine line) run' ->
  match rest with [] => True | line :: _ => headingLine line end ->
  match rest' with [] => True | line :: _ => headingLine line end ->
  run ++ rest = run' ++ rest' -> run = run' /\ rest = rest'.
Proof.
  induction run as [| l run IH]; intros [| l' run'] rest rest' Hr Hr' Hh Hh' E;
    cbn [app] in E.
  - split; [reflexivity | exact E].
  - exfalso. subst rest. inversion_clear Hr' as [| ? ? Hl _]. exact (Hl Hh).
  - exfalso. subst rest'. inversion_clear Hr as [| ? ? Hl _]. exact (Hl Hh').
  - injection E as <- E. inversion_clear Hr. inversion_clear Hr'.
    destruct (IH run' rest rest') as [-> ->]; try assumption. split; reflexivity.
Qed.

(** The grouping of the lines is determined by the lines. *)
Lemma grouped_unique lines paragraphs :
  grouped lines paragraphs -> forall paragraphs', grouped lines paragraphs' ->
  paragraphs = paragraphs'.
Proof.
  induction 1 as [| line rest paragraphs Hh Hrest IH
                  | run rest paragraphs Hne Hplain Hh Hrest IH]; intros paragraphs' H'.
  - inversion H' as [| | run' rest' ps' Hne' Hplain' Hh' Hrest' E]; [reflexivity |].
    destruct run'; [congruence | discriminate].
  - inversion H' as [| line' rest' ps' Hh' Hrest'
                     | run' rest' ps' Hne' Hplain' Hh' Hrest' E]; subst.
    + f_equal. apply IH. exact Hrest'.
    + exfalso. destruct run' as [| l run']; [congruence |].
      injection E as -> _. inversion_clear Hplain' as [| ? ? Hl _]. exact (Hl Hh).
  - inversion H' as [E | line' rest' ps' Hh' Hrest' E
                     | run' rest' ps' Hne' Hplain' Hh' Hrest' E]; subst.
    + exfalso. destruct run; [congruence | discriminate].
    + exfalso. destruct run as [| l run]; [congruence |].
      injection E as <- _. inversion_clear Hplain as [| ? ? Hl _]. exact (Hl Hh').
    + destruct (run_split_unique run' run rest' rest) as [-> ->]; try assumption.
      f_equal. apply IH. exact Hrest'.
Qed.

(** ** Blank content has no paragraph, other content has one *)

Lemma grouped_nil_inv lines : grouped lines [] -> lines = [].
Proof. intros H. inversion H. reflexivity. Qed.

Lemma joinWith_whitespaceOnly lines :
  Forall whitespaceOnly lines -> whitespaceOnly (joinWith LF lines).
Proof.
  induction 1 as [| l rest Hl Hrest IH]; [constructor |].
  destruct rest as [| l2 rest]; [exact Hl |].
  change (joinWith LF (l :: l2 :: rest)) with (l ++ LF :: joinWith LF (l2 :: rest)).
  apply Forall_app. split; [exact Hl |]. constructor; [reflexivity | exact IH].
Qed.

Lemma filter_nonBlank_nil lines :
  List.filter nonBlank lines = [] -> Forall whitespaceOnly lines.
Proof.
  intros H. rewrite List.Forall_forall. intros l Hl.
  apply Blank.nonBlank_false_iff. destruct (nonBlank l) eqn:E; [| reflexivity].
  assert (Hin : In l (List.filter nonBlank lines)) by (apply filter_In; split; assumption).
  rewrite H in Hin. destruct Hin.
Qed.

(** The re-split: the lines of the content, the blank ones dropped, the
    others trimmed and grouped. *)
Lemma regroup_spec content :
  exists paragraphs,
    regroup content = paragraphs /\
    grouped (map trim (List.filter nonBlank (splitChar LF [] content))) paragraphs /\
    (paragraphs = [] -> nonBlank content = false).
Proof.
  unfold regroup.
  destruct (groupLines_spec (List.filter nonBlank (splitChar LF [] content)) [] [])
    as (pushed & E & G); try constructor.
  { rewrite List.Forall_forall. intros l Hl. apply filter_In in Hl. apply Hl. }
  exists pushed. split; [exact E |]. split; [exact G |].
  intros ->. apply grouped_nil_inv in G. cbn [app] in G. apply map_eq_nil in G.
  apply filter_nonBlank_nil, joinWith_whitespaceOnly in G.
  rewrite splitChar_join in G. apply Blank.nonBlank_false_iff. exact G.
Qed.

End SegmentationLemmas.

(* ===================================================================== *)
(** * Runs of the handler                                                *)
(* ===================================================================== *)

Module Runs.

Local Open Scope Z_scope.

Section Combinators.

Context {A B : Type}.
Variable P : Effect -> Prop.

Lemma quiet_ret (a : A) : quiet P (ret a).
Proof.
  intros log. exists a, []. split; [| constructor].
  unfold ret. rewrite app_nil_r. reflexivity.
Qed.

Lemma quiet_bind (m : Run A) (k : A -> Run B) :
  quiet P m -> (forall a, quiet P (k a)) -> quiet P (bind m k).
Proof.
  intros Hm Hk log. destruct (Hm log) as (a & new1 & E1 & F1).
  destruct (Hk a (log ++ new1)) as (b & new2 & E2 & F2).
  exists b, (new1 ++ new2). unfold bind. rewrite E1, E2, <- app_assoc.
  split; [reflexivity |]. apply Forall_app. split; assumption.
Qed.

Lemma quiet_call (e : Effect) (a : A) : P e -> quiet P (call e (Returned a)).
Proof.
  intros He log. exists a, [e]. split; [reflexivity |].
  constructor; [exact He | constructor].
Qed.

Lemma logsOnly_call (e : Effect) (o : Outcome A) : P e -> logsOnly P (call e o).
Proof.
  intros He log. exists [e]. split; [reflexivity |].
  constructor; [exact He | constructor].
Qed.

Lemma quiet_logsOnly (m : Run A) : quiet P m -> logsOnly P m.
Proof.
  intros Hm log. destruct (Hm log) as (a & new & E & F).
  exists new. rewrite E. split; [reflexivity | exact F].
Qed.

Lemma logsOnly_bind (m : Run A) (k : A -> Run B) :
  logsOnly P m -> (forall a, logsOnly P (k a)) -> logsOnly P (bind m k).
Proof.
  intros Hm Hk log. destruct (Hm log) as (new1 & E1 & F1). unfold bind.
  destruct (m log) as [[a | e] log1]; simpl in E1; subst log1.
  - destruct (Hk a (log ++ new1)) as (new2 & E2 & F2).
    exists (new1 ++ new2). rewrite E2, <- app_assoc.
    split; [reflexivity |]. apply Forall_app. split; assumption.
  - exists new1. split; [reflexivity | exact F1].
Qed.

(** A [try] whose handler is quiet never throws. *)
Lemma quiet_tryCatch (m : Run A) (handler : JsString -> Run A) :
  logsOnly P m -> (forall e, quiet P (handler e)) -> quiet P (tryCatch m handler).
Proof.
  intros Hm Hh log. destruct (Hm log) as (new1 & E1 & F1). unfold tryCatch.
  destruct (m log) as [[a | e] log1]; simpl in E1; subst log1.
  - exists a, new1. split; [reflexivity | exact F1].
  - destruct (Hh e (log ++ new1)) as (a & new2 & E2 & F2).
    exists a, (new1 ++ new2). rewrite E2, <- app_assoc.
    split; [reflexivity |]. apply Forall_app. split; assumption.
Qed.

End Combinators.

Lemma bind_returned {A B} (m : Run A) (k : A -> Run B) log a log' :
  m log = (Returned a, log') -> bind m k log = k a log'.
Proof. intros E. unfold bind. rewrite E. reflexivity. Qed.

Lemma bind_thrown {A B} (m : Run A) (k : A -> Run B) log e log' :
  m log = (Thrown e, log') -> bind m k log = (Thrown e, log').
Proof. intros E. unfold bind. rewrite E. reflexivity. Qed.

Lemma quiet_forEach {A S} (P : Effect -> Prop) (body : A -> S -> Run S) items :
  (forall x s, quiet P (body x s)) -> forall s, quiet P (forEach items body s).
Proof.
  intros Hbody. induction items as [| x rest IH]; intros s; cbn [forEach].
  - apply quiet_ret.
  - apply quiet_bind; [apply Hbody | exact IH].
Qed.

(** A loop whose turns each ask for the images of the pages [f x]: the
    loop asks for the pages of all its turns, in order, and keeps what the
    turns keep. *)
Lemma forEach_collect {A S} (f : A -> list Z) (Keeps : list Z -> S -> Prop)
    (body : A -> S -> Run S) items :
  (forall x s log, exists s',
      body x s log = (Returned s', log ++ map CallGenerateImage (f x)) /\
      forall pages, Keeps pages s -> Keeps (pages ++ f x) s') ->
  forall s log, exists s',
      forEach items body s log =
        (Returned s', log ++ map CallGenerateImage (flat_map f items)) /\
      forall pages, Keeps pages s -> Keeps (pages ++ flat_map f items) s'.
Proof.
  intros Hbody. induction items as [| x rest IH]; intros s log; cbn [forEach flat_map].
  - exists s. unfold ret. cbn [map]. rewrite app_nil_r. split; [reflexivity |].
    intros pages H. rewrite app_nil_r. exact H.
  - destruct (Hbody x s log) as (s1 & E1 & K1).
    destruct (IH s1 (log ++ map CallGenerateImage (f x))) as (s2 & E2 & K2).
    exists s2. unfold bind. rewrite E1, E2, map_app, <- app_assoc.
    split; [reflexivity |]. intros pages H. rewrite app_assoc. apply K2, K1, H.
Qed.

Lemma taggedWithin_app_l pages more images :
  taggedWithin pages images -> taggedWithin (pages ++ more) images.
Proof.
  unfold taggedWithin. intros H. eapply Forall_impl; [exact H |].
  intros img (p & Hp & H0 & E). exists p. split; [| auto].
  apply in_or_app. left. exact Hp.
Qed.

Section Route.

Variable widthOfTextAtSize : Font -> JsString -> Q -> Q.
Variable encodingError : ascii -> option JsString.
Variable embedImage : JsString -> option (N * N).
Variable getEmbedding : option Json -> Outcome unit.
Variable getFrameworkEmbedding : JsString -> Outcome unit.
Variable queryPinecone : Outcome unit.
Variable queryFramework : JsString -> Outcome unit.
Variable chatCompletion : Outcome JsString.
Variable chatContinuation : nat -> JsString -> Outcome JsString.
Variable postProcess : JsString -> JsString.
Variable generateImage : nat -> Z -> option JsString.
Variable now : Z.

Local Abbreviation generateOne := (generateOne generateImage).
Local Abbreviation generateGroup := (generateGroup generateImage).
Local Abbreviation generateImages := (generateImages generateImage).
Local Abbreviation continuations := (continuations chatContinuation).
Local Abbreviation generateContent := (generateContent chatCompletion chatContinuation).
Local Abbreviation retrieveContext :=
  (retrieveContext getEmbedding getFrameworkEmbedding queryPinecone queryFramework).
Local Abbreviation exportDocument := (exportDocument widthOfTextAtSize encodingError embedImage now).
Local Abbreviation generateWhitepaper :=
  (generateWhitepaper widthOfTextAtSize encodingError embedImage getEmbedding getFrameworkEmbedding
     queryPinecone queryFramework chatCompletion chatContinuation postProcess
     generateImage now).
Local Abbreviation POST :=
  (POST widthOfTextAtSize encodingError embedImage getEmbedding getFrameworkEmbedding
     queryPinecone queryFramework chatCompletion chatContinuation postProcess
     generateImage now).

(** ** The image loops *)

Lemma generateOne_run totalPages basePageIndex imgInGroup state log :
  exists state',
    generateOne totalPages basePageIndex imgInGroup state log =
      (Returned state',
       log ++ map CallGenerateImage
                (attemptAt totalPages (basePageIndex + Z.of_nat imgInGroup))) /\
    forall pages,
      (0 <= basePageIndex -> taggedWithin pages (snd state) ->
       taggedWithin (pages ++ attemptAt totalPages (basePageIndex + Z.of_nat imgInGroup))
         (snd state')).
Proof.
  destruct state as [imageCounter images]. unfold Handler.generateOne, attemptAt.
  destruct (numLt _ _).
  - unfold bind, call. cbn [map].
    destruct (generateImage _ _) as [data |].
    + destruct (100 <? length data)%nat.
      * eexists. unfold ret. split; [reflexivity |]. cbn [snd].
        intros pages Hbase Hin. apply Forall_app. split.
        -- apply taggedWithin_app_l. exact Hin.
        -- constructor; [| constructor].
           exists (basePageIndex + Z.of_nat imgInGroup). split; [| split; [lia | reflexivity]].
           apply in_or_app. right. left. reflexivity.
      * eexists. unfold ret. split; [reflexivity |]. cbn [snd].
        intros pages _ Hin. apply taggedWithin_app_l. exact Hin.
    + eexists. unfold ret. split; [reflexivity |]. cbn [snd].
      intros pages _ Hin. apply taggedWithin_app_l. exact Hin.
  - eexists. unfold ret. cbn [map]. rewrite app_nil_r. split; [reflexivity |].
    cbn [snd]. intros pages _ Hin. rewrite app_nil_r. exact Hin.
Qed.

(** The loops ask for the planned pages, in order, and every image kept is
    tagged with one of them. *)
Lemma imageLoops_run totalPages imagesPerCount pagesPerImage log :
  0 < pagesPerImage ->
  exists state,
    forEach (seq 0 (numberOfImageGroups totalPages pagesPerImage))
      (generateGroup totalPages imagesPerCount pagesPerImage) (O, []) log =
      (Returned state,
       log ++ map CallGenerateImage (plannedPages totalPages imagesPerCount pagesPerImage)) /\
    taggedWithin (plannedPages totalPages imagesPerCount pagesPerImage) (snd state).
Proof.
  intros HM.
  destruct (forEach_collect
              (fun groupIndex =>
                 flat_map
                   (fun imgInGroup =>
                      attemptAt totalPages
                        ((Z.of_nat groupIndex + 1) * pagesPerImage - 1 + Z.of_nat imgInGroup))
                   (seq 0 (Z.to_nat imagesPerCount)))
              (fun pages state => taggedWithin pages (snd state))
              (generateGroup totalPages imagesPerCount pagesPerImage)
              (seq 0 (numberOfImageGroups totalPages pagesPerImage))) with (s := (O, @nil Image)) (log := log)
    as (state & E & K).
  - intros groupIndex s log0. unfold Handler.generateGroup.
    apply (forEach_collect
             (fun imgInGroup =>
                attemptAt totalPages
                  ((Z.of_nat groupIndex + 1) * pagesPerImage - 1 + Z.of_nat imgInGroup))
             (fun pages state => taggedWithin pages (snd state))).
    intros imgInGroup s0 log1.
    destruct (generateOne_run totalPages ((Z.of_nat groupIndex + 1) * pagesPerImage - 1)
                imgInGroup s0 log1) as (s1 & E1 & K1).
    exists s1. split; [exact E1 |]. intros pages Hin. apply K1; [nia | exact Hin].
  - exists state. split; [exact E |].
    apply (K []). constructor.
Qed.

Lemma generateImages_run body log :
  exists images,
    generateImages body log =
      (Returned images, log ++ map CallGenerateImage (attemptedPages body)) /\
    taggedWithin (attemptedPages body) images.
Proof.
  unfold Handler.generateImages, attemptedPages.
  destruct (imageCounts (imageFrequency body)) as [imagesPerCount pagesPerImage].
  destruct ((0 <? imagesPerCount) && (0 <? pagesPerImage)) eqn:E.
  - apply andb_true_iff in E as [_ HM]. apply Z.ltb_lt in HM.
    destruct (imageLoops_run (minWith50 (numPages body)) imagesPerCount pagesPerImage
                log HM) as (state & E & K).
    exists (snd state). unfold bind. rewrite E. split; [reflexivity | exact K].
  - exists []. unfold ret. cbn [map]. rewrite app_nil_r. split; [reflexivity | constructor].
Qed.


Lemma imageCalls_app a b : imageCalls (a ++ b) = imageCalls a ++ imageCalls b.
Proof. unfold imageCalls. apply omap_app. Qed.

Lemma imageCalls_planned pages : imageCalls (map CallGenerateImage pages) = pages.
Proof.
  induction pages as [| p pages IH]; [reflexivity |].
  unfold imageCalls in *. cbn. rewrite IH. reflexivity.
Qed.

Lemma imageCalls_none log : Forall notImageCall log -> imageCalls log = [].
Proof.
  induction 1 as [| e log He _ IH]; [reflexivity |].
  unfold imageCalls in *. cbn. destruct e; try exact IH. destruct He.
Qed.

(** ** The other stages *)

Lemma queryFrameworkContext_quiet frameworkId u :
  quiet notImageCall
    (queryFrameworkContext getFrameworkEmbedding queryFramework frameworkId u).
Proof.
  unfold queryFrameworkContext. destruct (hasQuery frameworkId); [| apply quiet_ret].
  apply quiet_tryCatch; [| intros e; apply quiet_ret].
  apply logsOnly_bind; [apply logsOnly_call; exact I |].
  intros _. apply logsOnly_call. exact I.
Qed.

(** Once the prompt is embedded the knowledge-base stage cannot fail. *)
Lemma retrieveContext_run body log :
  match getEmbedding (prompt body) with
  | Thrown e => retrieveContext body log = (Thrown e, log ++ [CallGetEmbedding])
  | Returned _ =>
      exists new, retrieveContext body log = (Returned tt, log ++ CallGetEmbedding :: new) /\
                  Forall notImageCall new
  end.
Proof.
  unfold Handler.retrieveContext, bind at 1, call at 1.
  destruct (getEmbedding (prompt body)) as [u | e]; [| reflexivity].
  assert (Hrest : quiet notImageCall
            (do _ <- tryCatch (call CallQueryPinecone queryPinecone) (fun _ => ret tt) ;
             forEach (frameworks body)
               (queryFrameworkContext getFrameworkEmbedding queryFramework) tt)).
  { apply quiet_bind.
    - apply quiet_tryCatch; [apply logsOnly_call; exact I | intros e; apply quiet_ret].
    - intros _. apply quiet_forEach. intros x s. apply queryFrameworkContext_quiet. }
  destruct (Hrest (log ++ [CallGetEmbedding])) as ([] & new & E & F).
  exists new. rewrite E, <- app_assoc. split; [reflexivity | exact F].
Qed.

Lemma continuations_quiet rounds : forall continuationRound body content,
  quiet notImageCall (continuations rounds continuationRound body content).
Proof.
  induction rounds as [| rounds IH]; intros continuationRound body content;
    cbn [Handler.continuations]; [apply quiet_ret |].
  destruct (numLt _ _); [| apply quiet_ret].
  apply quiet_bind.
  - apply quiet_tryCatch; [| intros e; apply quiet_ret].
    apply logsOnly_bind; [apply logsOnly_call; exact I |].
    intros a. apply quiet_logsOnly, quiet_ret.
  - intros [continuation |]; [| apply quiet_ret].
    destruct (nonBlank continuation); [| apply quiet_ret].
    destruct (numLt _ _); [apply IH | apply quiet_ret].
Qed.

Lemma generateContent_logs body : logsOnly notImageCall (generateContent body).
Proof.
  unfold Handler.generateContent. apply logsOnly_bind; [apply logsOnly_call; exact I |].
  intros [| c content]; apply quiet_logsOnly; [apply quiet_ret | apply continuations_quiet].
Qed.

Lemma exportDocument_logs body content images :
  logsOnly notImageCall (exportDocument body content images).
Proof.
  unfold Handler.exportDocument.
  destruct (isString (js "pdf") _).
  { apply logsOnly_bind; [apply logsOnly_call; exact I |].
    intros a. apply quiet_logsOnly, quiet_ret. }
  destruct (isString (js "docx") _).
  { apply logsOnly_bind; [apply logsOnly_call; exact I |].
    intros a. apply quiet_logsOnly, quiet_ret. }
  destruct (isString (js "ppt") _).
  { apply logsOnly_bind; [apply logsOnly_call; exact I |].
    intros a. apply quiet_logsOnly, quiet_ret. }
  apply quiet_logsOnly, quiet_ret.
Qed.

(** ** The whole handler *)

(** The run of the handler after the prompt check, stage by stage. *)
Lemma generateWhitepaper_run body log :
  match getEmbedding (prompt body) with
  | Thrown e => generateWhitepaper body log = (Thrown e, log ++ [CallGetEmbedding])
  | Returned _ =>
      exists pre, Forall notImageCall pre /\
        ((exists error,
            generateWhitepaper body log =
              (Returned (errorResponse 500 error None), log ++ pre)) \/
         (exists content images post outcome,
            nonBlank content = true /\
            taggedWithin (attemptedPages body) images /\
            Forall notImageCall post /\
            exportDocument body (postProcess content) images
              (log ++ pre ++ map CallGenerateImage (attemptedPages body)) =
              (outcome, log ++ pre ++ map CallGenerateImage (attemptedPages body) ++ post) /\
            generateWhitepaper body log =
              (match outcome with
               | Returned exported =>
                   Returned (successResponse body (postProcess content) images exported)
               | Thrown e => Thrown e
               end,
               log ++ pre ++ map CallGenerateImage (attemptedPages body) ++ post)))
  end.
Proof.
  pose proof (retrieveContext_run body log) as Hctx.
  destruct (getEmbedding (prompt body)) as [u | e].
  2:{ unfold Handler.generateWhitepaper. rewrite (bind_thrown _ _ _ _ _ Hctx). reflexivity. }
  destruct Hctx as (new1 & E1 & F1).
  unfold Handler.generateWhitepaper. rewrite (bind_returned _ _ _ _ _ E1).
  set (log1 := log ++ CallGetEmbedding :: new1) in *.
  destruct (generateContent_logs body log1) as (new2 & E2 & F2).
  assert (Hpre : Forall notImageCall (CallGetEmbedding :: new1 ++ new2)).
  { constructor; [exact I |]. apply Forall_app. split; assumption. }
  assert (Hlog : log1 ++ new2 = log ++ CallGetEmbedding :: new1 ++ new2).
  { unfold log1. rewrite <- app_assoc. reflexivity. }
  exists (CallGetEmbedding :: new1 ++ new2). split; [exact Hpre |].
  destruct (generateContent body log1) as [[content | e] log2] eqn:Egen;
    simpl in E2; subst log2.
  - erewrite bind_returned
      by (unfold tryCatch; erewrite bind_returned by exact Egen; reflexivity).
    cbv beta iota.
    destruct (nonBlank content) eqn:Hnb; cbn [negb]; cbv beta iota.
    + right.
      destruct (generateImages_run body (log1 ++ new2)) as (images & E3 & K3).
      rewrite (bind_returned _ _ _ _ _ E3).
      set (log3 := (log1 ++ new2) ++ map CallGenerateImage (attemptedPages body)) in *.
      destruct (exportDocument_logs body (postProcess content) images log3)
        as (post & E4 & F4).
      assert (Hlog3 : log3 = log ++ (CallGetEmbedding :: new1 ++ new2) ++
                             map CallGenerateImage (attemptedPages body)).
      { unfold log3. rewrite Hlog, <- app_assoc. reflexivity. }
      assert (Hlog4 : log3 ++ post = log ++ (CallGetEmbedding :: new1 ++ new2) ++
                             map CallGenerateImage (attemptedPages body) ++ post).
      { rewrite Hlog3, <- !app_assoc. reflexivity. }
      exists content, images, post.
      exists (fst (exportDocument body (postProcess content) images log3)).
      split; [exact Hnb |]. split; [exact K3 |]. split; [exact F4 |].
      rewrite <- Hlog3, <- Hlog4.
      destruct (exportDocument body (postProcess content) images log3)
        as [[exported | e] log4] eqn:Eexp; simpl in E4; subst log4.
      * split; [reflexivity |]. rewrite (bind_returned _ _ _ _ _ Eexp). reflexivity.
      * split; [reflexivity |]. rewrite (bind_thrown _ _ _ _ _ Eexp). reflexivity.
    + left. eexists. unfold ret. rewrite Hlog. reflexivity.
  - erewrite bind_returned
      by (unfold tryCatch; erewrite bind_thrown by exact Egen; reflexivity).
    cbv beta iota. left. eexists. unfold ret. rewrite Hlog. reflexivity.
Qed.

End Route.

End Runs.

(* ===================================================================== *)
(** * Properties of the PDF generator                                    *)
(* ===================================================================== *)

Section PdfClaims.

Local Open Scope Q_scope.

Variable widthOfTextAtSize : Font -> JsString -> Q -> Q.
Variable encodingError : ascii -> option JsString.
Variable embedImage : JsString -> option (N * N).

(** C1, as amended. An image that is embedded is the only image of its
    page, that page is the generated page whose index equals the image's
    [pageIndex], and the image is the first one of the list tagged with that
    index; and every generated page with index [idx >= 1] carries the first
    image tagged [idx] whenever pdf-lib can decode it. Images tagged with a
    page that is never generated, later images with the same tag and images
    that cannot be decoded are not embedded. *)
Theorem C1_images_on_their_pages images content numPages pages :
  generateWhitepaperPDF widthOfTextAtSize encodingError embedImage images content numPages = Returned pages ->
  forall idx p, pages !! idx = Some p ->
    (forall img, In img (pageImages p) ->
       pageImages p = [img] /\ pageIndex img = idx /\
       taggedFor images idx = Some img) /\
    ((1 <= idx)%nat -> pageImages p = imageAtBreak embedImage images idx).
Proof.
  intros Hgen idx p Hp.
  apply Encoder.generator_returned in Hgen as [_ ->].
  pose proof (Geometry.generator_Inv widthOfTextAtSize embedImage images content) as HI.
  pose proof (inv_images _ _ _ HI idx p Hp) as Himg.
  split.
  - rewrite Himg. destruct idx as [| k]; [intros img [] |].
    simpl. unfold imageAtBreak.
    destruct (taggedFor images (S k)) as [img0 |] eqn:Hfind; [| intros img []].
    destruct (embedImage (base64 img0)); [| intros img []].
    intros img [<- | []]. split; [reflexivity |]. split; [| reflexivity].
    unfold taggedFor in Hfind. apply find_some in Hfind as [_ Heq].
    apply Nat.eqb_eq in Heq. exact Heq.
  - intros Hidx. rewrite Himg. destruct idx; [lia | reflexivity].
Qed.

(** C2. When a text line would cross the bottom margin (cursor minus line
    height below 72) a page is added and the cursor is reset to 720 before
    the image of the new page, if any, is placed; and every text line of the
    generated document is drawn at a height between 72 and 720. *)
Theorem C2_text_within_margins :
  (forall images f st,
     yPosition st - lineHeightOf f < 72 ->
     pdfPages (addPage st) = pdfPages st ++ [blankPage] /\
     yPosition (addPage st) == 720 /\
     ensureRoom embedImage images f st =
       placeImageIfNeeded embedImage images (S (currentPageIndex st)) (addPage st)) /\
  (forall images content numPages pages,
     generateWhitepaperPDF widthOfTextAtSize encodingError embedImage images content numPages = Returned pages ->
     forall p text x y size font,
       In p pages -> In (DrawText text x y size font) (pageOps p) ->
       72 <= y /\ y <= 720).
Proof.
  split.
  - intros images f st Hy. split; [reflexivity |]. split; [simpl; Geometry.layout; lra |].
    unfold ensureRoom. apply Geometry.Qltb_lt in Hy. unfold bottomMargin. rewrite Hy.
    reflexivity.
  - intros images content numPages pages.
    intros Hgen p text x y size font Hp Hop.
    apply Encoder.generator_returned in Hgen as [_ ->].
    pose proof (Geometry.generator_Inv widthOfTextAtSize embedImage images content) as HI.
    pose proof (inv_text _ _ _ HI) as Htext.
    rewrite List.Forall_forall in Htext. specialize (Htext p Hp).
    rewrite List.Forall_forall in Htext. exact (Htext _ Hop).
Qed.

(** C3. Every page of the generated document is 612 by 792 points. *)
Theorem C3_pages_are_612_by_792 images content numPages pages :
  generateWhitepaperPDF widthOfTextAtSize encodingError embedImage images content numPages = Returned pages ->
  forall p, In p pages -> pageSize p = (612, 792).
Proof.
  intros Hgen p Hp.
  apply Encoder.generator_returned in Hgen as [_ ->].
  pose proof (Geometry.generator_Inv widthOfTextAtSize embedImage images content) as HI.
  pose proof (inv_sizes _ _ _ HI) as Hs.
  rewrite List.Forall_forall in Hs. exact (Hs p Hp).
Qed.



End PdfClaims.

(** ** The claims at concrete inputs *)

Import Fixture.

(** C1 on the three-page example: the second page carries the first image
    tagged 1. *)
Lemma C1_images_on_their_pages_witness :
  generateWhitepaperPDF halfEm printable decode800x600 exampleImages exampleContent (Some 3%Z)
    = Returned examplePages /\
  pageImages (nth 1 examplePages blankPage) = [imageFor 1].
Proof.
  assert (Hgen : generateWhitepaperPDF halfEm printable decode800x600 exampleImages
                   exampleContent (Some 3%Z) = Returned examplePages)
    by (vm_compute; reflexivity).
  split; [exact Hgen |].
  assert (Hp : examplePages !! 1%nat = Some (nth 1 examplePages blankPage))
    by (vm_compute; reflexivity).
  destruct (C1_images_on_their_pages halfEm printable decode800x600 exampleImages exampleContent
              (Some 3%Z) examplePages Hgen 1%nat _ Hp) as [_ H].
  rewrite H by lia. vm_compute. reflexivity.
Defined.

(** C1 as first stated fails: an image tagged with page 3 stays out of a
    document that has only one page. *)
Lemma C1_counterexample :
  generateWhitepaperPDF halfEm printable decode800x600 [imageFor 3] (js "Hello") (Some 1%Z)
    = Returned [helloPage] /\
  In (imageFor 3) [imageFor 3] /\
  ~ (exists p, [helloPage] !! pageIndex (imageFor 3) = Some p /\
               In (imageFor 3) (pageImages p)).
Proof.
  split; [vm_compute; reflexivity |]. split; [left; reflexivity |].
  intros (p & Hp & _). vm_compute in Hp. discriminate.
Qed.

(** C2 on the example: with the cursor at 80 a body line calls for a new
    page, and the first line of the document is drawn at 720. *)
Lemma C2_text_within_margins_witness :
  yPosition (addPage lowState) == 720 /\
  (72 <= 720 /\ 720 <= 720)%Q.
Proof.
  destruct (C2_text_within_margins halfEm printable decode800x600) as [Hbreak Hdraw].
  split.
  - destruct (Hbreak exampleImages bodyFlags lowState) as (_ & Hy & _);
      [vm_compute; reflexivity | exact Hy].
  - apply (Hdraw exampleImages exampleContent (Some 3%Z) examplePages
             ltac:(vm_compute; reflexivity)
             (nth 0 examplePages blankPage) (js "line") 72%Q 720%Q 12%Q Helvetica).
    + vm_compute. left. reflexivity.
    + vm_compute. left. reflexivity.
Defined.

(** C3 on the example: the third page has the fixed size. *)
Lemma C3_pages_are_612_by_792_witness :
  pageSize (nth 2 examplePages blankPage) = (612%Q, 792%Q).
Proof.
  apply (C3_pages_are_612_by_792 halfEm printable decode800x600 exampleImages exampleContent
           (Some 3%Z) examplePages); [vm_compute; reflexivity |].
  vm_compute. right. right. left. reflexivity.
Defined.




(* ===================================================================== *)
(** * Properties of the paragraph segmentation                           *)
(* ===================================================================== *)

(** C7. The DOCX and the PPTX generator split the content in the same
    way: both keep, of the pieces between the runs of two or more line
    feeds, those that are not made of white space only. For a content
    without carriage returns the PDF generator has those very paragraphs
    when there are five or more; with fewer it takes the lines between
    the single line feeds, drops the blank ones, trims the others and
    groups them, a heading line alone and each longest run of other
    lines joined by spaces. The pieces, the lines and the grouping are
    determined by the content ([splitAtBlankLines_unique],
    [splitAtLineFeeds_unique], [grouped_unique]). *)
Theorem C7_segmentations_agree content :
  (exists pieces,
     SegmentationSpec.splitAtBlankLines content pieces /\
     docxParagraphs content = List.filter nonBlank pieces /\
     pptParagraphs content = List.filter nonBlank pieces) /\
  (forall piece, nonBlank piece = false <-> SegmentationSpec.whitespaceOnly piece) /\
  (Forall (fun c => c <> CR) content ->
   ((5 <= length (docxParagraphs content))%nat ->
    pdfParagraphs content = docxParagraphs content) /\
   ((length (docxParagraphs content) < 5)%nat ->
    exists lines paragraphs,
      SegmentationSpec.splitAtLineFeeds content lines /\
      SegmentationSpec.grouped (map trim (List.filter nonBlank lines)) paragraphs /\
      pdfParagraphs content = paragraphs)).
Proof.
  split; [| split].
  - exists (splitBlankLines [] 0 content). split; [| split; reflexivity].
    exact (SegmentationLemmas.splitBlankLines_spec content [] 0 (fun H => H)
             ltac:(discriminate)).
  - exact Blank.nonBlank_false_iff.
  - intros Hcr.
    unfold pdfParagraphs. rewrite (SegmentationLemmas.normalizeNewlines_id content Hcr).
    fold (docxParagraphs content). split; intros Hlen.
    + replace (length (docxParagraphs content) <? 5)%nat with false
        by (symmetry; apply Nat.ltb_ge; exact Hlen).
      replace (length (docxParagraphs content) =? 0)%nat with false
        by (symmetry; apply Nat.eqb_neq; lia).
      reflexivity.
    + replace (length (docxParagraphs content) <? 5)%nat with true
        by (symmetry; apply Nat.ltb_lt; exact Hlen).
      destruct (SegmentationLemmas.regroup_spec content) as (paragraphs & E & G & Hnil).
      exists (splitChar LF [] content), paragraphs.
      split; [apply SegmentationLemmas.splitChar_lines |]. split; [exact G |].
      rewrite E. destruct paragraphs as [| p rest]; [| reflexivity].
      rewrite (Hnil eq_refl). reflexivity.
Qed.

(** C7 on a content of five paragraphs, where the three generators agree,
    and on a title followed by two lines, which the PDF generator
    regroups. *)
Lemma C7_segmentations_agree_witness :
  pdfParagraphs Fixture.fiveParagraphs = docxParagraphs Fixture.fiveParagraphs /\
  exists lines paragraphs,
    SegmentationSpec.splitAtLineFeeds SegmentationSpec.titleAndLines lines /\
    SegmentationSpec.grouped (map trim (List.filter nonBlank lines)) paragraphs /\
    pdfParagraphs SegmentationSpec.titleAndLines = paragraphs.
Proof.
  split.
  - apply (C7_segmentations_agree Fixture.fiveParagraphs).
    + repeat constructor; discriminate.
    + vm_compute. lia.
  - apply (C7_segmentations_agree SegmentationSpec.titleAndLines).
    + repeat constructor; discriminate.
    + vm_compute. lia.
Defined.

(* ===================================================================== *)
(** * Properties of the [POST] handler                                   *)
(* ===================================================================== *)

Module HandlerLemmas.

Import Runs.

Local Open Scope Z_scope.



Section Route.

Variable widthOfTextAtSize : Font -> JsString -> Q -> Q.
Variable encodingError : ascii -> option JsString.
Variable embedImage : JsString -> option (N * N).
Variable getEmbedding : option Json -> Outcome unit.
Variable getFrameworkEmbedding : JsString -> Outcome unit.
Variable queryPinecone : Outcome unit.
Variable queryFramework : JsString -> Outcome unit.
Variable chatCompletion : Outcome JsString.
Variable chatContinuation : nat -> JsString -> Outcome JsString.
Variable postProcess : JsString -> JsString.
Variable generateImage : nat -> Z -> option JsString.
Variable now : Z.

Local Abbreviation exportDocument := (exportDocument widthOfTextAtSize encodingError embedImage now).
Local Abbreviation POST :=
  (POST widthOfTextAtSize encodingError embedImage getEmbedding getFrameworkEmbedding
     queryPinecone queryFramework chatCompletion chatContinuation postProcess
     generateImage now).




End Route.

End HandlerLemmas.

Section HandlerClaims.

Local Open Scope Z_scope.

Variable widthOfTextAtSize : Font -> JsString -> Q -> Q.
Variable encodingError : ascii -> option JsString.
Variable embedImage : JsString -> option (N * N).
Variable getEmbedding : option Json -> Outcome unit.
Variable getFrameworkEmbedding : JsString -> Outcome unit.
Variable queryPinecone : Outcome unit.
Variable queryFramework : JsString -> Outcome unit.
Variable chatCompletion : Outcome JsString.
Variable chatContinuation : nat -> JsString -> Outcome JsString.
Variable postProcess : JsString -> JsString.
Variable generateImage : nat -> Z -> option JsString.
Variable now : Z.

Local Abbreviation POST :=
  (POST widthOfTextAtSize encodingError embedImage getEmbedding getFrameworkEmbedding
     queryPinecone queryFramework chatCompletion chatContinuation postProcess
     generateImage now).


(** C8 fails on the body [null]: it is valid JSON without a prompt, the
    destructuring of line 666 throws, and the final [catch] answers with
    status 500 instead of 400. No call to the outside is made. *)
Theorem C8_null_body_is_answered_500 :
  POST JsonNull =
    (errorResponse 500 (js "Failed to generate whitepaper")
       (Some (js "Cannot destructure property 'prompt' of 'body' as it is null.")),
     []).
Proof. reflexivity. Qed.


End HandlerClaims.

(** ** The handler claims at concrete requests *)




(* ===================================================================== *)
(** * Properties of the download history                                 *)
(* ===================================================================== *)

Module DownloadsLemmas.

Import Downloads.

(** Reading the history back after it was stored. *)
Lemma get_after_setItem files env env' :
  setItem STORAGE_KEY files env = Returned env' -> getDownloadedFiles env' = files.
Proof.
  destruct env as [localStorage |]; [| discriminate].
  intros [= <-]. unfold getDownloadedFiles. rewrite lookup_insert_eq. reflexivity.
Qed.

End DownloadsLemmas.

(** C10. In a browser, [saveFileToDownloads] returns the file it was given
    with the time as [id] and [createdAt], and stores under
    [geogame_downloaded_files], and under that key only, this new file
    followed by the entries stored before, in their order, cut at 50
    entries; [getDownloadedFiles] then returns that list.
    [deleteDownloadedFile] stores under the same key the former history
    without the entries whose [id] is the argument, the others in their
    order. *)
Theorem C10_download_history now isoNow file fileId
    (localStorage : gmap string (list Downloads.DownloadedFile)) :
  let env := Downloads.Browser localStorage in
  let before := Downloads.getDownloadedFiles env in
  let newFile :=
    {| Downloads.id := Downloads.timestamp now;
       Downloads.filename := Downloads.saveFilename file;
       Downloads.mimeType := Downloads.saveMimeType file;
       Downloads.document := Downloads.saveDocument file;
       Downloads.createdAt := isoNow;
       Downloads.format := Downloads.saveFormat file;
       Downloads.size := Downloads.saveSize file |} in
  let saved := <[Downloads.STORAGE_KEY := take 50 (newFile :: before)]> localStorage in
  let kept := List.filter (fun f => negb (String.eqb (Downloads.id f) fileId)) before in
  (Downloads.saveFileToDownloads now isoNow file env
     = Returned (Downloads.Browser saved, newFile) /\
   saved !! Downloads.STORAGE_KEY = Some (newFile :: take 49 before) /\
   Downloads.getDownloadedFiles (Downloads.Browser saved) = newFile :: take 49 before /\
   (length (Downloads.getDownloadedFiles (Downloads.Browser saved)) <= 50)%nat) /\
  (Downloads.deleteDownloadedFile fileId env
     = Returned (Downloads.Browser (<[Downloads.STORAGE_KEY := kept]> localStorage)) /\
   Downloads.getDownloadedFiles
     (Downloads.Browser (<[Downloads.STORAGE_KEY := kept]> localStorage)) = kept /\
   (forall f, In f kept <-> In f before /\ Downloads.id f <> fileId)).
Proof.
  intros env before newFile saved kept. split.
  - split; [reflexivity |].
    split; [apply lookup_insert_eq |]. split.
    + unfold Downloads.getDownloadedFiles at 1. unfold saved.
      rewrite lookup_insert_eq. reflexivity.
    + unfold Downloads.getDownloadedFiles at 1. unfold saved.
      rewrite lookup_insert_eq, length_take. lia.
  - split; [reflexivity |]. split.
    + unfold Downloads.getDownloadedFiles at 1. rewrite lookup_insert_eq. reflexivity.
    + intros f. unfold kept. rewrite List.filter_In, negb_true_iff, String.eqb_neq.
      reflexivity.
Qed.

(* ===================================================================== *)
(** * Further properties of the download history                         *)
(* ===================================================================== *)

Module DownloadsExtras.

Import Downloads DownloadsSpec.

Lemma id_eqb_false (f : DownloadedFile) fileId :
  negb (String.eqb (id f) fileId) = true <-> id f <> fileId.
Proof.
  rewrite negb_true_iff. split; intros H.
  - apply String.eqb_neq. exact H.
  - apply String.eqb_neq. exact H.
Qed.

Lemma get_after_perform_delete fileId env :
  getDownloadedFiles (perform (Delete fileId) env) =
  List.filter (fun f => negb (String.eqb (id f) fileId)) (getDownloadedFiles env).
Proof.
  destruct env as [localStorage |]; [| reflexivity].
  cbn [perform deleteDownloadedFile setItem].
  unfold getDownloadedFiles at 1. rewrite lookup_insert_eq. reflexivity.
Qed.

Lemma get_after_perform_save now isoNow file localStorage :
  exists newFile,
    id newFile = timestamp now /\
    getDownloadedFiles (perform (Save now isoNow file) (Browser localStorage)) =
      take 50 (newFile :: getDownloadedFiles (Browser localStorage)).
Proof.
  eexists. split; [| cbn [perform saveFileToDownloads setItem];
                     unfold getDownloadedFiles at 1; rewrite lookup_insert_eq; reflexivity].
  reflexivity.
Qed.

(** Saving and deleting touch no other key of [localStorage]. *)
Theorem other_keys_untouched (a : Action) (env : Env) (key : string) :
  key <> STORAGE_KEY -> stored key (perform a env) = stored key env.
Proof.
  intros Hkey. destruct env as [localStorage |]; [| destruct a; reflexivity].
  destruct a as [now isoNow file | fileId];
    cbn [perform saveFileToDownloads deleteDownloadedFile setItem stored];
    apply lookup_insert_ne; congruence.
Qed.

(** After a delete no stored file has the deleted id, and a file with
    another id is stored after it exactly when it was stored before. *)
Theorem delete_removes_exactly (fileId : string) (env : Env) (f : DownloadedFile) :
  In f (getDownloadedFiles (perform (Delete fileId) env)) <->
  In f (getDownloadedFiles env) /\ id f <> fileId.
Proof.
  rewrite get_after_perform_delete, List.filter_In, id_eqb_false. reflexivity.
Qed.

(** Deleting the file that was just saved gives the former history back,
    when that had fewer than 50 entries and no entry with the id of the new
    file. *)
Theorem save_then_delete now isoNow file (localStorage : gmap string (list DownloadedFile)) :
  (length (getDownloadedFiles (Browser localStorage)) < 50)%nat ->
  Forall (fun f => id f <> timestamp now) (getDownloadedFiles (Browser localStorage)) ->
  getDownloadedFiles
    (perform (Delete (timestamp now))
       (perform (Save now isoNow file) (Browser localStorage)))
  = getDownloadedFiles (Browser localStorage).
Proof.
  intros Hlen Hfresh. rewrite get_after_perform_delete.
  destruct (get_after_perform_save now isoNow file localStorage) as (newFile & Hid & ->).
  rewrite take_ge by (cbn [length]; lia).
  cbn [List.filter]. rewrite Hid, String.eqb_refl. cbn [negb].
  apply forallb_filter_id. apply forallb_forall. intros f Hf.
  apply id_eqb_false. rewrite List.Forall_forall in Hfresh. exact (Hfresh f Hf).
Qed.

(** A history of at most 50 entries stays so under every sequence of saves
    and deletes. *)
Theorem history_stays_within_50 (actions : list Action) (env : Env) :
  (length (getDownloadedFiles env) <= 50)%nat ->
  (length (getDownloadedFiles (performAll actions env)) <= 50)%nat.
Proof.
  unfold performAll. revert env.
  induction actions as [| a actions IH]; intros env Hlen; [exact Hlen |].
  cbn [fold_left]. apply IH.
  destruct a as [now isoNow file | fileId].
  - destruct env as [localStorage |]; [| exact Hlen].
    destruct (get_after_perform_save now isoNow file localStorage) as (newFile & _ & ->).
    rewrite length_take. lia.
  - rewrite get_after_perform_delete.
    etransitivity; [apply filter_length_le | exact Hlen].
Qed.

(** The same at concrete storages. *)

Lemma other_keys_untouched_witness :
  stored "theme"
    (perform (Save 1700000000000 "2023-11-14T22:13:20.000Z" reportFile) (Browser usedBrowser))
  = stored "theme" (Browser usedBrowser).
Proof. apply other_keys_untouched. discriminate. Defined.

Lemma delete_removes_exactly_witness :
  In olderFile (getDownloadedFiles (perform (Delete "1700000000000") (Browser usedBrowser))).
Proof.
  apply (proj2 (delete_removes_exactly "1700000000000" (Browser usedBrowser) olderFile)).
  split; [vm_compute; left; reflexivity | discriminate].
Defined.

Lemma save_then_delete_witness :
  getDownloadedFiles
    (perform (Delete (timestamp 1700000000000))
       (perform (Save 1700000000000 "2023-11-14T22:13:20.000Z" reportFile)
          (Browser usedBrowser)))
  = getDownloadedFiles (Browser usedBrowser).
Proof.
  apply save_then_delete.
  - vm_compute. lia.
  - vm_compute. repeat constructor; discriminate.
Defined.

Lemma history_stays_within_50_witness :
  (length (getDownloadedFiles
             (performAll [Save 1700000000000 "2023-11-14T22:13:20.000Z" reportFile;
                          Delete "1600000000000"] (Browser usedBrowser))) <= 50)%nat.
Proof. apply history_stays_within_50. vm_compute. lia. Defined.

End DownloadsExtras.

(* ===================================================================== *)
(** * Further properties of the PDF generator                            *)
(* ===================================================================== *)

Module PdfExtras.

Import Geometry PdfLayout.

Local Open Scope Q_scope.

(** ** Operations stacked down the page *)

Lemma stacked_snoc ops op :
  stacked ops -> Forall (fun a => opY op + 18 <= opY a) ops -> stacked (ops ++ [op]).
Proof.
  induction ops as [| a rest IH]; intros Hs Hall; cbn [stacked app].
  - split; constructor.
  - destruct Hs as [Ha Hrest]. inversion_clear Hall as [| ? ? Hop Hall'].
    split; [| apply IH; assumption].
    apply Forall_app. split; [exact Ha | constructor; [exact Hop | constructor]].
Qed.

Section Invariant.

Variable widthOfTextAtSize : Font -> JsString -> Q -> Q.
Variable encodingError : ascii -> option JsString.
Variable embedImage : JsString -> option (N * N).
Variable images : list Image.

Local Abbreviation Inv := (Inv embedImage images).
Local Abbreviation Layout := (Layout embedImage).
Local Abbreviation breakPage := (breakPage embedImage images).
Local Abbreviation ensureRoom := (ensureRoom embedImage images).
Local Abbreviation wrapWord := (wrapWord widthOfTextAtSize embedImage images).

Lemma Layout_initial : Layout initialState.
Proof. constructor; cbn; repeat constructor. Qed.

Lemma Layout_setY st y : Layout st -> y <= yPosition st -> Layout (setY y st).
Proof.
  intros [H1 H2 H3 H4] Hy. constructor; [exact H1 | exact H2 | | exact H4]. cbn.
  eapply Forall_impl; [exact H3 |]. intros op Hop. cbn in Hop. lra.
Qed.

Lemma tl_snoc_text (ops : list DrawOp) op :
  Forall isText (tl ops) -> isText op -> Forall isText (tl (ops ++ [op])).
Proof.
  intros H Hop. destruct ops as [| a rest]; [constructor |].
  cbn [app tl] in *. apply Forall_app. split; [exact H | constructor; [exact Hop | constructor]].
Qed.

(** A text line drawn at the cursor, the cursor then moved down by at least
    18 points. *)
Lemma Layout_drawText st text size font y :
  Layout st -> y + 18 <= yPosition st ->
  Layout (setY y (draw (DrawText text margin (yPosition st) size font) st)).
Proof.
  intros [H1 H2 H3 H4] Hy. unfold pdfPages in *.
  apply Forall_app in H1 as [H1d H1c]. apply Forall_app in H2 as [H2d H2c].
  apply Forall_app in H4 as [H4d H4c].
  inversion_clear H1c as [| ? ? H1c' _]. inversion_clear H2c as [| ? ? H2c' _].
  inversion_clear H4c as [| ? ? H4c' _].
  constructor; cbn.
  - apply Forall_app. split; [exact H1d |]. constructor; [| constructor]. cbn.
    apply Forall_app. split; [exact H1c' | constructor; [reflexivity | constructor]].
  - apply Forall_app. split; [exact H2d |]. constructor; [| constructor]. cbn.
    apply stacked_snoc; [exact H2c' |].
    eapply Forall_impl; [exact H3 |]. intros op Hop. cbn in *. lra.
  - apply Forall_app. split.
    + eapply Forall_impl; [exact H3 |]. intros op Hop. cbn in *. lra.
    + constructor; [cbn; lra | constructor].
  - apply Forall_app. split; [exact H4d |]. constructor; [| constructor]. cbn.
    apply tl_snoc_text; [exact H4c' | exact I].
Qed.

Lemma Layout_breakPage st : Inv st -> Layout st -> Layout (breakPage st).
Proof.
  intros [I1 I2 I3 I4 I5 I6] [H1 H2 H3 H4].
  unfold Pdf.breakPage, placeImageIfNeeded.
  assert (Hfresh : S (currentPageIndex st) ∉ imagesPlacedOnPage st).
  { intros Hin. apply I6 in Hin. lia. }
  cbn [currentPageIndex imagesPlacedOnPage addPage].
  rewrite bool_decide_eq_false_2 by exact Hfresh.
  assert (Hplain : Layout (addPage st)).
  { constructor; cbn.
    - unfold pdfPages. cbn. apply Forall_app. split; [exact H1 | repeat constructor].
    - unfold pdfPages. cbn. apply Forall_app. split; [exact H2 | repeat constructor].
    - constructor.
    - unfold pdfPages. cbn. apply Forall_app. split; [exact H4 | repeat constructor]. }
  destruct (List.find _ images) as [img |]; [| exact Hplain].
  destruct (embedImage (base64 img)) as [[W H] |] eqn:Hemb; [| exact Hplain].
  pose proof (scaleImage_height (inject_Z (Z.of_N W)) (inject_Z (Z.of_N H))
                (inject_N_nonneg W) (inject_N_nonneg H)) as [Hh0 Hh1].
  destruct (scaleImage _ _) as [iw ih]. cbn [fst snd] in *.
  assert (Hroom : Qltb (yPosition (addPage st) - ih - paragraphSpacing) bottomMargin = false).
  { apply Qltb_ge. cbn. layout. lra. }
  rewrite Hroom. constructor; cbn.
  - unfold pdfPages. cbn. apply Forall_app. split; [exact H1 |].
    constructor; [| constructor]. cbn. constructor; [| constructor].
    cbn. exists W, H. exact Hemb.
  - unfold pdfPages. cbn. apply Forall_app. split; [exact H2 |].
    constructor; [| constructor]. cbn. split; constructor.
  - constructor; [| constructor]. cbn. layout. lra.
  - unfold pdfPages. cbn. apply Forall_app. split; [exact H4 | repeat constructor].
Qed.

Lemma Layout_ensureRoom f st : Inv st -> Layout st -> Layout (ensureRoom f st).
Proof.
  intros HI HL. unfold Pdf.ensureRoom.
  destruct (Qltb _ _); [apply Layout_breakPage; assumption | exact HL].
Qed.

Lemma Layout_wrapWord f cur st word :
  Inv st -> 72 + lineHeightOf f <= yPosition st -> Layout st ->
  Layout (snd (wrapWord f (cur, st) word)).
Proof.
  intros HI Hy HL. unfold Pdf.wrapWord.
  pose proof (lineHeightOf_bounds f) as [Hl0 Hl1].
  destruct (Qgtb _ _); [| exact HL].
  destruct cur as [| c cur']; [exact HL |].
  generalize (trim (blankControl (c :: cur'))). intros line.
  cbv zeta. unfold snd.
  destruct line as [| a line]; [apply Layout_ensureRoom; assumption |].
  apply Layout_ensureRoom.
  - apply Inv_setY.
    + apply Inv_drawText; [exact HI | lra | apply (inv_cursor _ _ _ HI)].
    + cbn. pose proof (inv_cursor _ _ _ HI). lra.
  - apply Layout_drawText; [exact HL | cbn; lra].
Qed.

Lemma Layout_wrapLoop f words : forall cur st,
  Inv st -> 72 + lineHeightOf f <= yPosition st -> Layout st ->
  Layout (snd (fold_left (wrapWord f) words (cur, st))).
Proof.
  induction words as [| w words IH]; intros cur st HI Hy HL; [exact HL |].
  cbn [fold_left].
  destruct (wrapWord_Inv widthOfTextAtSize embedImage images f cur st w HI Hy) as [HI' Hy'].
  pose proof (Layout_wrapWord f cur st w HI Hy HL) as HL'.
  destruct (wrapWord f (cur, st) w) as [cur' st']. cbn [snd] in *.
  apply IH; assumption.
Qed.

Lemma Layout_flushLine f cur st : Layout st -> Layout (flushLine f cur st).
Proof.
  intros HL. unfold flushLine.
  pose proof (lineHeightOf_bounds f) as [Hl0 Hl1].
  destruct cur as [| c cur']; [exact HL |].
  generalize (trim (blankControl (c :: cur'))). intros line.
  destruct line; [exact HL |].
  apply Layout_drawText; [exact HL |]. cbn.
  destruct (isHeading f); [layout; lra |].
  destruct (isSubHeading f || isSubSubHeading f); layout; lra.
Qed.

Lemma Layout_headingSpacing f i st :
  Inv st -> Layout st -> Layout (headingSpacing embedImage images f i st).
Proof.
  intros HI HL. unfold headingSpacing.
  destruct (anyHeading f && (0 <? i)%nat); [| exact HL].
  destruct (Qltb _ _); [apply Layout_breakPage; assumption |].
  destruct (Qgtb _ _) eqn:E; [| exact HL].
  apply Qltb_lt in E. apply Layout_setY; [exact HL | lra].
Qed.

Lemma Layout_processParagraph i paragraph st :
  Inv st -> Layout st ->
  Layout (processParagraph widthOfTextAtSize embedImage images i paragraph st).
Proof.
  intros HI HL. unfold processParagraph.
  destruct (cleanParagraph _ _); [exact HL |].
  unfold renderParagraph.
  set (f := headingFlags _). set (text := validateText _).
  pose proof (headingSpacing_Inv embedImage images f i st HI) as HI1.
  pose proof (Layout_headingSpacing f i st HI HL) as HL1.
  destruct (ensureRoom_Inv embedImage images f _ HI1) as [HI2 Hy2].
  pose proof (Layout_ensureRoom f _ HI1 HL1) as HL2.
  pose proof (Layout_wrapLoop f (wordsOf text) [] _ HI2 Hy2 HL2) as HL3.
  destruct (fold_left _ _ _) as [cur st3]. cbn [snd] in HL3.
  apply Layout_flushLine. exact HL3.
Qed.

Lemma Layout_paragraphLoop paragraphs : forall i st,
  Inv st -> Layout st ->
  Layout (paragraphLoop widthOfTextAtSize embedImage images i paragraphs st).
Proof.
  induction paragraphs as [| p ps IH]; intros i st HI HL; [exact HL |].
  cbn [paragraphLoop]. apply IH.
  - apply processParagraph_Inv. exact HI.
  - apply Layout_processParagraph; assumption.
Qed.

Lemma generator_Layout content :
  Layout (paragraphLoop widthOfTextAtSize embedImage images 0
            (pdfParagraphs content) initialState).
Proof. apply Layout_paragraphLoop; [apply Inv_initial | apply Layout_initial]. Qed.

End Invariant.

(** ** The form of the text lines *)

Section Lines.

Import Wrap Solid ParagraphText.

Variable widthOfTextAtSize : Font -> JsString -> Q -> Q.
Variable encodingError : ascii -> option JsString.
Variable embedImage : JsString -> option (N * N).
Variable images : list Image.

Local Abbreviation wrapWord := (wrapWord widthOfTextAtSize embedImage images).
Local Abbreviation fits := (fits widthOfTextAtSize).
Local Abbreviation lineForm := (lineForm widthOfTextAtSize).

(** One word: the line it joins was measured with it. *)
Lemma wrapWord_fits f (g : list JsString) st (w : JsString) :
  Forall (fun w => w <> []) g -> w <> [] ->
  (fst (wrapWord f (joinWords g, st) w) = joinWords (g ++ [w]) /\
   stateText (snd (wrapWord f (joinWords g, st) w)) = stateText st /\
   fits f (g ++ [w])) \/
  (g <> [] /\
   fst (wrapWord f (joinWords g, st) w) = joinWords [w] /\
   stateText (snd (wrapWord f (joinWords g, st) w)) = stateText st ++ lineEntries f g).
Proof.
  intros Hg Hw.
  destruct g as [| w0 ws].
  - left. unfold Pdf.wrapWord. simpl.
    destruct (Qgtb _ _); (split; [reflexivity |]); (split; [reflexivity |]);
      left; simpl; lia.
  - assert (Hne : w0 :: ws <> []) by discriminate.
    pose proof (joinWords_nonempty _ Hne Hg) as Hcur.
    pose proof (joinWords_snoc (w0 :: ws) w Hne) as Hsnoc.
    unfold Pdf.wrapWord, PdfLayout.fits. unfold lineEntries, lineOf.
    rewrite Hsnoc.
    destruct (joinWords (w0 :: ws)) as [| c cur] eqn:Ecur; [congruence |].
    destruct (Qgtb _ _) eqn:E.
    + right. split; [exact Hne |]. split; [reflexivity |].
      cbv zeta. unfold snd. rewrite stateText_ensureRoom.
      destruct (trim (blankControl (c :: cur))) as [| a line]; [symmetry; apply app_nil_r |].
      change (stateText (setY ?y ?s)) with (stateText s).
      rewrite stateText_draw. reflexivity.
    + left. split; [reflexivity |]. split; [reflexivity |]. right.
      unfold Qgtb in E. apply Qltb_ge in E. exact E.
Qed.

Lemma wrapLoop_fits f (words : list JsString) : forall (g : list JsString) st,
  Forall (fun w => w <> []) g -> Forall (fun w => w <> []) words -> fits f g ->
  exists groups glast,
    concat groups ++ glast = g ++ words /\
    Forall (fun g => g <> []) groups /\
    Forall (fits f) groups /\ fits f glast /\
    fst (fold_left (wrapWord f) words (joinWords g, st)) = joinWords glast /\
    stateText (snd (fold_left (wrapWord f) words (joinWords g, st))) =
      stateText st ++ flat_map (lineEntries f) groups.
Proof.
  induction words as [| w words IH]; intros g st Hg Hwords Hfit.
  - exists [], g. simpl. rewrite !app_nil_r.
    split; [reflexivity |]. split; [constructor |]. split; [constructor |]. auto.
  - inversion_clear Hwords as [| ? ? Hw Hrest]. cbn [fold_left].
    destruct (wrapWord_fits f g st w Hg Hw) as [(Hcur & Htext & Hfit') | (Hne & Hcur & Htext)];
      destruct (wrapWord f (joinWords g, st) w) as [cur' st']; cbn [fst snd] in Hcur, Htext;
      subst cur'.
    + destruct (IH (g ++ [w]) st') as (groups & glast & Hcat & Hgroups & Hfits & Hlast & Hfst & Hsnd).
      { apply Forall_app. split; [exact Hg | constructor; [exact Hw | constructor]]. }
      { exact Hrest. }
      { exact Hfit'. }
      exists groups, glast. rewrite Hfst, Hsnd, Htext, Hcat, <- app_assoc.
      auto 7.
    + destruct (IH [w] st') as (groups & glast & Hcat & Hgroups & Hfits & Hlast & Hfst & Hsnd).
      { constructor; [exact Hw | constructor]. }
      { exact Hrest. }
      { left. simpl. lia. }
      exists (g :: groups), glast. rewrite Hfst, Hsnd, Htext.
      cbn [concat flat_map]. rewrite <- !app_assoc, Hcat.
      split; [reflexivity |]. split; [constructor; assumption |].
      split; [constructor; assumption |]. auto.
Qed.

(** The line drawn for a group of solid words. *)
Lemma lineEntries_solid f g :
  g <> [] -> Forall solidWord g ->
  lineEntries f g = [(joinWords g, textSizeOf f, fontOf f)].
Proof.
  intros Hne Hg. unfold lineEntries. rewrite (lineOf_solid g Hne Hg).
  assert (Hjoin : joinWords g <> []).
  { apply joinWords_nonempty; [exact Hne |].
    eapply Forall_impl; [exact Hg |]. intros w [Hw _]. exact Hw. }
  destruct (joinWords g); [congruence | reflexivity].
Qed.

Lemma renderParagraph_form f i text st :
  spacedOnly text ->
  exists lines,
    stateText (renderParagraph widthOfTextAtSize embedImage images f i text st) =
      stateText st ++ lines /\
    Forall lineForm lines.
Proof.
  intros Hspaced. unfold renderParagraph.
  set (st1 := ensureRoom embedImage images f (headingSpacing embedImage images f i st)).
  assert (H1 : stateText st1 = stateText st).
  { unfold st1. rewrite stateText_ensureRoom. apply stateText_headingSpacing. }
  assert (Hnil : fits f []) by (left; simpl; lia).
  destruct (wrapLoop_fits f (wordsOf text) [] st1 (List.Forall_nil _) (wordsOf_nonempty text) Hnil)
    as (groups & glast & Hcat & Hgroups & Hfits & Hlast & Hfst & Hsnd).
  change (joinWords []) with (@nil ascii) in Hfst, Hsnd.
  destruct (fold_left _ _ _) as [cur st2]. cbn [fst snd] in Hfst, Hsnd. subst cur.
  pose proof (wordsOf_solid text Hspaced) as Hsolid.
  cbn [app] in Hcat. rewrite <- Hcat in Hsolid.
  apply Forall_app in Hsolid as [Hsg Hsl]. apply concat_Forall in Hsg.
  assert (Hne : Forall (fun w : JsString => w <> []) glast).
  { eapply Forall_impl; [exact Hsl |]. intros w [Hw _]. exact Hw. }
  rewrite flushLine_text by exact Hne.
  rewrite Hsnd, H1, <- app_assoc.
  eexists. split; [reflexivity |].
  apply Forall_app. split.
  - clear Hcat Hsnd. induction groups as [| g groups IH]; [constructor |].
    inversion_clear Hgroups. inversion_clear Hfits. inversion_clear Hsg.
    cbn [flat_map]. apply Forall_app. split; [| apply IH; assumption].
    rewrite lineEntries_solid by assumption.
    constructor; [| constructor]. exists f, g. auto.
  - destruct glast as [| w0 ws]; [constructor |].
    rewrite lineEntries_solid by (discriminate || assumption).
    constructor; [| constructor]. exists f, (w0 :: ws).
    split; [discriminate |]. auto.
Qed.

Lemma processParagraph_form i paragraph st :
  exists lines,
    stateText (processParagraph widthOfTextAtSize embedImage images i paragraph st) =
      stateText st ++ lines /\
    Forall lineForm lines.
Proof.
  unfold processParagraph.
  destruct (cleanParagraph _ _) as [| c t] eqn:E.
  - exists []. rewrite app_nil_r. split; [reflexivity | constructor].
  - rewrite <- E. apply renderParagraph_form. apply paragraphText_spaced.
Qed.

Lemma paragraphLoop_form paragraphs : forall i st,
  Forall lineForm (stateText st) ->
  Forall lineForm
    (stateText (paragraphLoop widthOfTextAtSize embedImage images i paragraphs st)).
Proof.
  induction paragraphs as [| p ps IH]; intros i st Hst; [exact Hst |].
  cbn [paragraphLoop]. apply IH.
  destruct (processParagraph_form i p st) as (lines & -> & Hl).
  apply Forall_app. split; assumption.
Qed.

Lemma generator_form content :
  Forall lineForm
    (stateText (paragraphLoop widthOfTextAtSize embedImage images 0
                  (pdfParagraphs content) initialState)).
Proof. apply paragraphLoop_form. constructor. Qed.

End Lines.

Lemma stacked_app a b : stacked (a ++ b) -> stacked b.
Proof.
  induction a as [| x a IH]; [trivial |]. cbn [app stacked]. intros [_ H]. auto.
Qed.

Lemma stacked_pair before a between b after :
  stacked (before ++ a :: between ++ b :: after) -> opY b + 18 <= opY a.
Proof.
  intros H. apply stacked_app in H. cbn [stacked] in H. destruct H as [H _].
  apply Forall_app in H as [_ H]. inversion_clear H. assumption.
Qed.

(** ** The generated document *)

Section Document.

Variable widthOfTextAtSize : Font -> JsString -> Q -> Q.
Variable encodingError : ascii -> option JsString.
Variable embedImage : JsString -> option (N * N).

(** An image opens its page: it is the first operation of the page that
    carries it, every operation after it is a text line, and pdf-lib could
    decode it. *)
Theorem images_open_their_pages images content numPages pages :
  generateWhitepaperPDF widthOfTextAtSize encodingError embedImage images content numPages
    = Returned pages ->
  forall p before img x y w h after,
    In p pages -> pageOps p = before ++ DrawImage img x y w h :: after ->
    before = [] /\
    Forall (fun op => textOf op <> None) after /\
    exists W H, embedImage (base64 img) = Some (W, H).
Proof.
  intros Hgen p before img x y w h after Hp Hops.
  apply Encoder.generator_returned in Hgen as [_ ->].
  pose proof (generator_Layout widthOfTextAtSize embedImage images content) as HL.
  pose proof (lay_images _ _ HL) as Hall. pose proof (lay_first _ _ HL) as Hfirst.
  rewrite List.Forall_forall in Hall, Hfirst.
  specialize (Hall p Hp). specialize (Hfirst p Hp). rewrite Hops in Hall, Hfirst.
  apply Forall_app in Hall as [_ Hall]. inversion_clear Hall as [| ? ? Himg _].
  destruct before as [| a before'].
  - cbn [app tl] in Hfirst. split; [reflexivity |]. split; [| exact Himg].
    eapply Forall_impl; [exact Hfirst |]. intros [] Hop; [discriminate | destruct Hop].
  - exfalso. cbn [app tl] in Hfirst. apply Forall_app in Hfirst as [_ Hfirst].
    inversion_clear Hfirst as [| ? ? Hop _]. exact Hop.
Qed.

(** On every page the operations go down the page: whatever is drawn after
    an image or a text line is drawn at least 18 points, the height of a
    body line, below it. *)
Theorem operations_go_down_the_page images content numPages pages :
  generateWhitepaperPDF widthOfTextAtSize encodingError embedImage images content numPages = Returned pages ->
  forall p before a between b after,
    In p pages -> pageOps p = before ++ a :: between ++ b :: after ->
    opY b + 18 <= opY a.
Proof.
  intros Hgen p before a between b after Hp Hops.
  apply Encoder.generator_returned in Hgen as [_ ->].
  pose proof (lay_stacked _ _ (generator_Layout widthOfTextAtSize embedImage images content))
    as Hall.
  rewrite List.Forall_forall in Hall. specialize (Hall p Hp).
  rewrite Hops in Hall. exact (stacked_pair _ _ _ _ _ Hall).
Qed.

(** A generated document has a first page, and that page carries no image,
    whatever the tags of the images are: the image of a page is placed when
    a page break creates the page. *)
Theorem first_page_carries_no_image images content numPages pages :
  generateWhitepaperPDF widthOfTextAtSize encodingError embedImage images content numPages = Returned pages ->
  exists p rest, pages = p :: rest /\ pageImages p = [].
Proof.
  intros Hgen.
  apply Encoder.generator_returned in Hgen as [_ ->].
  pose proof (Geometry.generator_Inv widthOfTextAtSize embedImage images content) as HI.
  pose proof (inv_images _ _ _ HI 0%nat) as Himg.
  destruct (pdfPages _) as [| p rest] eqn:E.
  - unfold pdfPages in E. destruct (donePages _); discriminate.
  - exists p, rest. split; [reflexivity |]. exact (Himg p eq_refl).
Qed.

(** Every text line of a generated document is a sequence of words joined
    by single spaces: it is not empty, has no white space at either end and
    no white space other than single spaces between its words. *)
Theorem text_lines_are_spaced_words images content numPages pages :
  generateWhitepaperPDF widthOfTextAtSize encodingError embedImage images content numPages = Returned pages ->
  forall p text x y size font,
    In p pages -> In (DrawText text x y size font) (pageOps p) ->
    exists g, g <> [] /\ Forall solidWord g /\ text = joinWords g /\ wordsOf text = g.
Proof.
  intros Hgen p text x y size font Hp Hop.
  apply Encoder.generator_returned in Hgen as [_ ->].
  pose proof (generator_form widthOfTextAtSize embedImage images content) as Hall.
  rewrite List.Forall_forall in Hall.
  destruct (Hall _ (DocumentText.drawnText_In _ _ _ _ _ _ _ Hp Hop))
    as (f & g & Hne & Hsolid & [= -> _ _] & _).
  exists g. split; [exact Hne |]. split; [exact Hsolid |]. split; [reflexivity |].
  apply Solid.wordsOf_joinWords. exact Hsolid.
Qed.

(** Every text line begins at the left margin, and it ends before the right
    margin, as pdf-lib measures it, unless it is a single word. *)
Theorem text_lines_fit_the_width images content numPages pages :
  generateWhitepaperPDF widthOfTextAtSize encodingError embedImage images content numPages = Returned pages ->
  forall p text x y size font,
    In p pages -> In (DrawText text x y size font) (pageOps p) ->
    x == 72 /\
    (wordsOf text = [text] \/ x + widthOfTextAtSize font text size <= 540).
Proof.
  intros Hgen p text x y size font Hp Hop.
  apply Encoder.generator_returned in Hgen as [_ ->].
  assert (Hx : x == 72).
  { pose proof (lay_images _ _ (generator_Layout widthOfTextAtSize embedImage images content))
      as Hall.
    rewrite List.Forall_forall in Hall. specialize (Hall p Hp).
    rewrite List.Forall_forall in Hall. exact (Hall _ Hop). }
  split; [exact Hx |].
  pose proof (generator_form widthOfTextAtSize embedImage images content) as Hall.
  rewrite List.Forall_forall in Hall.
  destruct (Hall _ (DocumentText.drawnText_In _ _ _ _ _ _ _ Hp Hop))
    as (f & g & Hne & Hsolid & [= -> -> ->] & [Hone | Hfit]).
  - left. rewrite (Solid.wordsOf_joinWords g Hsolid).
    destruct g as [| w [| w' g']]; [congruence | reflexivity | simpl in Hone; lia].
  - right. rewrite Solid.blankControl_id in Hfit by (apply Solid.joinWords_chars, Hsolid).
    revert Hfit. layout. intros Hfit. lra.
Qed.

(** Body text is drawn in Helvetica at 12 points; bold is used at 18, 16
    and 14 points only, the sizes of the three heading levels. *)
Theorem bold_only_at_heading_sizes images content numPages pages :
  generateWhitepaperPDF widthOfTextAtSize encodingError embedImage images content numPages = Returned pages ->
  forall p text x y size font,
    In p pages -> In (DrawText text x y size font) (pageOps p) ->
    (font = Helvetica /\ size = 12) \/
    (font = HelveticaBold /\ (size = 18 \/ size = 16 \/ size = 14)).
Proof.
  intros Hgen p text x y size font Hp Hop.
  apply Encoder.generator_returned in Hgen as [_ ->].
  pose proof (generator_form widthOfTextAtSize embedImage images content) as Hall.
  rewrite List.Forall_forall in Hall.
  destruct (Hall _ (DocumentText.drawnText_In _ _ _ _ _ _ _ Hp Hop))
    as (f & g & _ & _ & [= _ -> ->] & _).
  unfold fontOf, textSizeOf, anyHeading.
  destruct (isHeading f), (isSubHeading f), (isSubSubHeading f); cbn; auto.
Qed.

End Document.

(** The image of the second page of the example is its first operation. *)
Lemma images_open_their_pages_witness :
  pageImages (nth 1 examplePages blankPage) = [imageFor 1] /\
  textOf (nth 0 (pageOps (nth 1 examplePages blankPage)) (DrawText [] 0 0 0 Helvetica))
    = None /\
  Forall (fun op => textOf op <> None) (tl (pageOps (nth 1 examplePages blankPage))).
Proof.
  split; [vm_compute; reflexivity |]. split; [vm_compute; reflexivity |].
  assert (Hops : exists img x y w h,
             pageOps (nth 1 examplePages blankPage) =
               [] ++ DrawImage img x y w h :: tl (pageOps (nth 1 examplePages blankPage))).
  { do 5 eexists. vm_compute. reflexivity. }
  destruct Hops as (img & x & y & w & h & Hops).
  destruct (images_open_their_pages halfEm printable decode800x600 exampleImages
              exampleContent (Some 3%Z) examplePages ltac:(vm_compute; reflexivity)
              (nth 1 examplePages blankPage) [] img x y w h
              (tl (pageOps (nth 1 examplePages blankPage))))
    as (_ & Hafter & _).
  - vm_compute. right. left. reflexivity.
  - exact Hops.
  - exact Hafter.
Defined.

(** The second line of the example is drawn below the first one. *)
Lemma operations_go_down_the_page_witness :
  opY (nth 1 (pageOps (nth 0 examplePages blankPage)) (DrawText [] 0 0 0 Helvetica)) + 18
  <= opY (nth 0 (pageOps (nth 0 examplePages blankPage)) (DrawText [] 0 0 0 Helvetica)).
Proof.
  apply (operations_go_down_the_page halfEm printable decode800x600 exampleImages exampleContent
           (Some 3%Z) examplePages ltac:(vm_compute; reflexivity)
           (nth 0 examplePages blankPage) [] _ [] _
           (skipn 2 (pageOps (nth 0 examplePages blankPage)))).
  - vm_compute. left. reflexivity.
  - vm_compute. reflexivity.
Defined.

(** The example has an image tagged with page 0; its first page has none. *)
Lemma first_page_carries_no_image_witness :
  In (imageFor 0) exampleImages /\
  exists p rest, examplePages = p :: rest /\ pageImages p = [].
Proof.
  split; [vm_compute; auto |].
  apply (first_page_carries_no_image halfEm printable decode800x600 exampleImages exampleContent
           (Some 3%Z) examplePages).
  vm_compute. reflexivity.
Defined.

(** The first line of the example. *)
Lemma text_lines_are_spaced_words_witness :
  exists g, g <> [] /\ Forall solidWord g /\ js "line" = joinWords g /\
            wordsOf (js "line") = g.
Proof.
  apply (text_lines_are_spaced_words halfEm printable decode800x600 exampleImages exampleContent
           (Some 3%Z) examplePages ltac:(vm_compute; reflexivity)
           (nth 0 examplePages blankPage) (js "line") 72 720 12 Helvetica).
  - vm_compute. left. reflexivity.
  - vm_compute. left. reflexivity.
Defined.

Lemma text_lines_fit_the_width_witness :
  72 == 72 /\
  (wordsOf (js "line") = [js "line"] \/ 72 + halfEm Helvetica (js "line") 12 <= 540).
Proof.
  apply (text_lines_fit_the_width halfEm printable decode800x600 exampleImages exampleContent
           (Some 3%Z) examplePages ltac:(vm_compute; reflexivity)
           (nth 0 examplePages blankPage) (js "line") 72 720 12 Helvetica).
  - vm_compute. left. reflexivity.
  - vm_compute. left. reflexivity.
Defined.

Lemma bold_only_at_heading_sizes_witness :
  (Helvetica = Helvetica /\ 12 = 12) \/
  (Helvetica = HelveticaBold /\ (12 = 18 \/ 12 = 16 \/ 12 = 14)).
Proof.
  apply (bold_only_at_heading_sizes halfEm printable decode800x600 exampleImages exampleContent
           (Some 3%Z) examplePages ltac:(vm_compute; reflexivity)
           (nth 0 examplePages blankPage) (js "line") 72 720 12 Helvetica).
  - vm_compute. left. reflexivity.
  - vm_compute. left. reflexivity.
Defined.

End PdfExtras.

(* ===================================================================== *)
(** * Further properties of the [POST] handler                           *)
(* ===================================================================== *)

Module HandlerExtras.

Import Runs HandlerCost Blank.

Local Open Scope Z_scope.

(** ** Counting calls *)

Lemma calls_app s a b : calls s (a ++ b) = (calls s a + calls s b)%nat.
Proof. unfold calls. rewrite List.filter_app, length_app. reflexivity. Qed.

Lemma calls_one s e : calls s [e] = weight s e.
Proof. unfold calls, weight. cbn. destruct (service_eqb _ _); reflexivity. Qed.

Section Costs.

Context {A B : Type}.
Variable s : Service.

Lemma costs_ret (a : A) : costs s 0 (ret a).
Proof. intros log. unfold ret. cbn [snd]. lia. Qed.

Lemma costs_raise e : costs s 0 (@raise A e).
Proof. intros log. unfold raise. cbn [snd]. lia. Qed.

Lemma costs_call e (o : Outcome A) : costs s (weight s e) (call e o).
Proof. intros log. unfold call. cbn [snd]. rewrite calls_app, calls_one. lia. Qed.

Lemma costs_weaken n n' (m : Run A) : (n <= n')%nat -> costs s n m -> costs s n' m.
Proof. intros Hle H log. specialize (H log). lia. Qed.

Lemma costs_bind n1 n2 (m : Run A) (k : A -> Run B) :
  costs s n1 m -> (forall a, costs s n2 (k a)) -> costs s (n1 + n2) (bind m k).
Proof.
  intros Hm Hk log. specialize (Hm log). unfold bind.
  destruct (m log) as [[a | e] log1]; cbn [snd] in *.
  - specialize (Hk a log1). lia.
  - lia.
Qed.

Lemma costs_tryCatch n1 n2 (m : Run A) (handler : JsString -> Run A) :
  costs s n1 m -> (forall e, costs s n2 (handler e)) ->
  costs s (n1 + n2) (tryCatch m handler).
Proof.
  intros Hm Hh log. specialize (Hm log). unfold tryCatch.
  destruct (m log) as [[a | e] log1]; cbn [snd] in *.
  - lia.
  - specialize (Hh e log1). lia.
Qed.

End Costs.

Lemma costs_forEach {A St} s n (body : A -> St -> Run St) items :
  (forall x st, costs s n (body x st)) ->
  forall st, costs s (length items * n) (forEach items body st).
Proof.
  intros Hbody. induction items as [| x rest IH]; intros st; cbn [forEach length].
  - apply costs_ret.
  - replace (S (length rest) * n)%nat with (n + length rest * n)%nat by lia.
    apply costs_bind; [apply Hbody | exact IH].
Qed.

Section Route.

Variable widthOfTextAtSize : Font -> JsString -> Q -> Q.
Variable encodingError : ascii -> option JsString.
Variable embedImage : JsString -> option (N * N).
Variable getEmbedding : option Json -> Outcome unit.
Variable getFrameworkEmbedding : JsString -> Outcome unit.
Variable queryPinecone : Outcome unit.
Variable queryFramework : JsString -> Outcome unit.
Variable chatCompletion : Outcome JsString.
Variable chatContinuation : nat -> JsString -> Outcome JsString.
Variable postProcess : JsString -> JsString.
Variable generateImage : nat -> Z -> option JsString.
Variable now : Z.

Local Abbreviation generateOne := (generateOne generateImage).
Local Abbreviation generateGroup := (generateGroup generateImage).
Local Abbreviation generateImages := (generateImages generateImage).
Local Abbreviation continuations := (continuations chatContinuation).
Local Abbreviation generateContent := (generateContent chatCompletion chatContinuation).
Local Abbreviation retrieveContext :=
  (retrieveContext getEmbedding getFrameworkEmbedding queryPinecone queryFramework).
Local Abbreviation exportDocument := (exportDocument widthOfTextAtSize encodingError embedImage now).
Local Abbreviation generateWhitepaper :=
  (generateWhitepaper widthOfTextAtSize encodingError embedImage getEmbedding getFrameworkEmbedding
     queryPinecone queryFramework chatCompletion chatContinuation postProcess
     generateImage now).
Local Abbreviation POST :=
  (POST widthOfTextAtSize encodingError embedImage getEmbedding getFrameworkEmbedding
     queryPinecone queryFramework chatCompletion chatContinuation postProcess
     generateImage now).

(** ** Requests that are turned down *)

(** A body that is not JSON, and a body other than [null] without a truthy
    prompt, are answered 400 before any call to the outside. *)
Theorem invalid_requests_answered_400 body :
  POST InvalidJson =
    (errorResponse 400 (js "Invalid JSON in request body") None, []) /\
  (truthy (prompt body) = false ->
   POST (JsonValue body) = (errorResponse 400 (js "Prompt is required") None, [])).
Proof.
  split; [reflexivity |]. intros H. unfold Handler.POST, handle. rewrite H. reflexivity.
Qed.

(** When the embedding of the prompt fails the handler stops there: the
    answer is 500 with the message of the error (or what [failureMessage]
    makes of it) and the embedding call is the only call made. *)
Theorem embedding_failure_answered_500 body e :
  truthy (prompt body) = true -> getEmbedding (prompt body) = Thrown e ->
  POST (JsonValue body) =
    (errorResponse 500 (js "Failed to generate whitepaper") (Some (failureMessage e)),
     [CallGetEmbedding]).
Proof.
  intros Ht He. unfold Handler.POST, handle. rewrite Ht. cbn [negb].
  pose proof (generateWhitepaper_run widthOfTextAtSize encodingError embedImage getEmbedding
                getFrameworkEmbedding queryPinecone queryFramework chatCompletion
                chatContinuation postProcess generateImage now body []) as Hrun.
  rewrite He in Hrun. rewrite Hrun. reflexivity.
Qed.

(** ** The knowledge-base stage *)



(** ** The content stage *)






(** ** How many calls a request can cost *)

Section Bounds.

Variable s : Service.

Local Abbreviation W := (weight s).

Lemma weight_image p : W (CallGenerateImage p) = W (CallGenerateImage 0).
Proof. reflexivity. Qed.

Lemma weight_build x : W (BuildDocument x) = W (BuildDocument []).
Proof. reflexivity. Qed.

Lemma queryFrameworkContext_costs frameworkId u :
  costs s (W CallGetEmbedding + W CallQueryPinecone)
    (queryFrameworkContext getFrameworkEmbedding queryFramework frameworkId u).
Proof.
  unfold queryFrameworkContext. destruct (hasQuery frameworkId).
  - eapply costs_weaken; [| apply costs_tryCatch;
      [apply costs_bind; [apply costs_call | intros _; apply costs_call]
      | intros e; apply costs_ret]]. lia.
  - eapply costs_weaken; [| apply costs_ret]. lia.
Qed.

Lemma retrieveContext_costs body :
  costs s ((1 + length (frameworks body)) * (W CallGetEmbedding + W CallQueryPinecone))
    (retrieveContext body).
Proof.
  unfold Handler.retrieveContext.
  eapply costs_weaken; [| apply costs_bind; [apply costs_call |]].
  2:{ intros _. apply costs_bind.
      - apply costs_tryCatch; [apply costs_call | intros e; apply costs_ret].
      - intros _. apply costs_forEach. intros x st. apply queryFrameworkContext_costs. }
  lia.
Qed.

Lemma continuations_costs rounds : forall continuationRound body content,
  costs s (rounds * W CallChatCompletion)
    (continuations rounds continuationRound body content).
Proof.
  induction rounds as [| rounds IH]; intros continuationRound body content;
    cbn [Handler.continuations].
  - apply costs_ret.
  - destruct (numLt _ _); [| eapply costs_weaken; [| apply costs_ret]; lia].
    eapply costs_weaken; [| apply costs_bind].
    2:{ apply costs_tryCatch;
          [apply costs_bind; [apply costs_call | intros a; apply costs_ret]
          | intros e; apply costs_ret]. }
    2:{ intros [continuation |].
        - destruct (nonBlank continuation).
          + destruct (numLt _ _); [apply IH |].
            eapply costs_weaken; [| apply costs_ret]. lia.
          + eapply costs_weaken; [| apply costs_ret]. lia.
        - eapply costs_weaken; [| apply costs_ret]. lia. }
    lia.
Qed.

Lemma generateContent_costs body :
  costs s (11 * W CallChatCompletion) (generateContent body).
Proof.
  unfold Handler.generateContent.
  eapply costs_weaken; [| apply costs_bind; [apply costs_call |]].
  2:{ intros [| a c]; [eapply costs_weaken; [| apply costs_ret]; apply Nat.le_0_l |].
      apply (continuations_costs 10). }
  lia.
Qed.

Lemma generateOne_costs totalPages basePageIndex imgInGroup state :
  costs s (W (CallGenerateImage 0)) (generateOne totalPages basePageIndex imgInGroup state).
Proof.
  destruct state as [imageCounter images]. unfold Handler.generateOne.
  destruct (numLt _ _); [| eapply costs_weaken; [| apply costs_ret]; lia].
  eapply costs_weaken; [| apply costs_bind; [apply costs_call |]].
  2:{ intros [data |]; [destruct (_ <? _)%nat |]; apply costs_ret. }
  rewrite weight_image. lia.
Qed.

(** The image loops ask for at most one image per turn of the inner loop. *)
Lemma generateImages_costs body :
  costs s
    (let '(imagesPerCount, pagesPerImage) := imageCounts (imageFrequency body) in
     if ((0 <? imagesPerCount) && (0 <? pagesPerImage))%Z
     then numberOfImageGroups (minWith50 (numPages body)) pagesPerImage *
          (Z.to_nat imagesPerCount * W (CallGenerateImage 0))
     else 0)%nat
    (generateImages body).
Proof.
  unfold Handler.generateImages.
  destruct (imageCounts (imageFrequency body)) as [imagesPerCount pagesPerImage].
  destruct (_ && _); [| apply costs_ret].
  eapply costs_weaken; [| apply costs_bind].
  2:{ apply costs_forEach. intros groupIndex st. unfold Handler.generateGroup.
      apply costs_forEach. intros imgInGroup st0. apply generateOne_costs. }
  2:{ intros st. apply costs_ret. }
  rewrite !length_seq. lia.
Qed.

Lemma exportDocument_costs body content images :
  costs s (W (BuildDocument [])) (exportDocument body content images).
Proof.
  unfold Handler.exportDocument.
  destruct (isString (js "pdf") _).
  { eapply costs_weaken; [| apply costs_bind; [apply costs_call | intros a; apply costs_ret]].
    rewrite weight_build. lia. }
  destruct (isString (js "docx") _).
  { eapply costs_weaken; [| apply costs_bind; [apply costs_call | intros a; apply costs_ret]].
    rewrite weight_build. lia. }
  destruct (isString (js "ppt") _).
  { eapply costs_weaken; [| apply costs_bind; [apply costs_call | intros a; apply costs_ret]].
    rewrite weight_build. lia. }
  eapply costs_weaken; [| apply costs_ret]. lia.
Qed.

Local Abbreviation requestBound body :=
  ((1 + length (frameworks body)) * (W CallGetEmbedding + W CallQueryPinecone) +
   (11 * W CallChatCompletion +
    ((let '(imagesPerCount, pagesPerImage) := imageCounts (imageFrequency body) in
      if ((0 <? imagesPerCount) && (0 <? pagesPerImage))%Z
      then numberOfImageGroups (minWith50 (numPages body)) pagesPerImage *
           (Z.to_nat imagesPerCount * W (CallGenerateImage 0))
      else 0) +
     W (BuildDocument []))))%nat.

Lemma generateWhitepaper_costs body : costs s (requestBound body) (generateWhitepaper body).
Proof.
  unfold Handler.generateWhitepaper.
  apply costs_bind; [apply retrieveContext_costs |]. intros _.
  apply costs_bind.
  - eapply costs_weaken; [| apply costs_tryCatch;
      [apply costs_bind; [apply generateContent_costs | intros a; apply costs_ret]
      | intros e; apply costs_ret]]. lia.
  - intros [content | response]; [| eapply costs_weaken; [| apply costs_ret]; lia].
    destruct (negb (nonBlank content)); [eapply costs_weaken; [| apply costs_ret]; lia |].
    apply costs_bind; [apply generateImages_costs |]. intros images.
    eapply costs_weaken; [| apply costs_bind;
      [apply exportDocument_costs | intros a; apply costs_ret]]. lia.
Qed.

Lemma POST_costs body : (calls s (snd (POST (JsonValue body))) <= requestBound body)%nat.
Proof.
  unfold Handler.POST, handle.
  destruct (negb (truthy (prompt body))).
  - unfold ret. cbn. lia.
  - pose proof (generateWhitepaper_costs body []) as H.
    destruct (generateWhitepaper body []) as [[response | e] log]; exact H.
Qed.

End Bounds.

Lemma numberOfImageGroups_le_50 numPages_ pagesPerImage :
  0 < pagesPerImage -> (numberOfImageGroups (minWith50 numPages_) pagesPerImage <= 50)%nat.
Proof.
  intros HM. destruct numPages_ as [n |]; cbn; [| lia].
  destruct (Z.le_gt_cases 0 (Z.min n 50)) as [Hpos | Hneg].
  - assert (Z.min n 50 / pagesPerImage <= 50).
    { transitivity (Z.min n 50); [| lia]. apply Z.div_le_upper_bound; nia. }
    lia.
  - assert (Z.min n 50 / pagesPerImage < 0) by (apply Z.div_lt_upper_bound; lia).
    lia.
Qed.

(** Whatever the services answer, a request costs at most one embedding
    and one vector search for the prompt and for each framework, eleven
    calls to the chat model, one document, and one image per turn of the
    image loops, which is at most 50 times the images of a group. *)
Theorem calls_are_bounded body :
  let log := snd (POST (JsonValue body)) in
  (calls Embedding log <= 1 + length (frameworks body))%nat /\
  (calls VectorSearch log <= 1 + length (frameworks body))%nat /\
  (calls Chat log <= 11)%nat /\
  (calls Builder log <= 1)%nat /\
  (calls ImageModel log <= 50 * Z.to_nat (fst (imageCounts (imageFrequency body))))%nat.
Proof.
  cbv zeta.
  pose proof (POST_costs Embedding body) as H1.
  pose proof (POST_costs VectorSearch body) as H2.
  pose proof (POST_costs Chat body) as H3.
  pose proof (POST_costs Builder body) as H4.
  pose proof (POST_costs ImageModel body) as H5.
  cbn [weight serviceOf service_eqb] in *.
  destruct (imageCounts (imageFrequency body)) as [imagesPerCount pagesPerImage].
  cbn [fst].
  destruct ((0 <? imagesPerCount) && (0 <? pagesPerImage)) eqn:E.
  - apply andb_true_iff in E as [_ HM]. apply Z.ltb_lt in HM.
    pose proof (numberOfImageGroups_le_50 (numPages body) pagesPerImage HM).
    split; [lia |]. split; [lia |]. split; [lia |]. split; [lia |]. nia.
  - split; [lia |]. split; [lia |]. split; [lia |]. split; [lia |]. lia.
Qed.

(** ** The images *)

Lemma generateOne_keeps totalPages basePageIndex imgInGroup state log :
  exists state',
    generateOne totalPages basePageIndex imgInGroup state log =
      (Returned state',
       log ++ map CallGenerateImage
                (attemptAt totalPages (basePageIndex + Z.of_nat imgInGroup))) /\
    forall pages,
      (sublist (map pageIndex (snd state)) (map Z.to_nat pages) /\
       Forall (fun img => (100 < length (base64 img))%nat) (snd state)) ->
      (sublist (map pageIndex (snd state'))
         (map Z.to_nat (pages ++ attemptAt totalPages (basePageIndex + Z.of_nat imgInGroup))) /\
       Forall (fun img => (100 < length (base64 img))%nat) (snd state')).
Proof.
  destruct state as [imageCounter images]. unfold Handler.generateOne, attemptAt.
  destruct (numLt _ _).
  - unfold bind, call. cbn [map].
    destruct (generateImage _ _) as [data |].
    + destruct (100 <? length data)%nat eqn:Hbig.
      * eexists. unfold ret. split; [reflexivity |]. cbn [snd].
        intros pages [Hsub Hall]. rewrite !map_app. split.
        -- apply sublist_app; [exact Hsub | reflexivity].
        -- apply Forall_app. split; [exact Hall |].
           constructor; [| constructor]. apply Nat.ltb_lt. exact Hbig.
      * eexists. unfold ret. split; [reflexivity |]. cbn [snd].
        intros pages [Hsub Hall]. rewrite map_app. split; [| exact Hall].
        apply sublist_inserts_r. exact Hsub.
    + eexists. unfold ret. split; [reflexivity |]. cbn [snd].
      intros pages [Hsub Hall]. rewrite map_app. split; [| exact Hall].
      apply sublist_inserts_r. exact Hsub.
  - eexists. unfold ret. cbn [map]. rewrite app_nil_r. split; [reflexivity |].
    cbn [snd]. intros pages H. rewrite app_nil_r. exact H.
Qed.

(** The images handed to the document builders: each has more than 100
    characters of data, and their tags follow the image requests in order,
    at most one image per request. *)
Theorem kept_images_follow_requests body log images log' :
  generateImages body log = (Returned images, log') ->
  sublist (map pageIndex images) (map Z.to_nat (attemptedPages body)) /\
  Forall (fun img => (100 < length (base64 img))%nat) images /\
  (length images <= length (attemptedPages body))%nat.
Proof.
  intros Hrun.
  assert (Hkeep : sublist (map pageIndex images) (map Z.to_nat (attemptedPages body)) /\
                  Forall (fun img => (100 < length (base64 img))%nat) images).
  { revert Hrun. unfold Handler.generateImages, attemptedPages.
    destruct (imageCounts (imageFrequency body)) as [imagesPerCount pagesPerImage].
    destruct ((0 <? imagesPerCount) && (0 <? pagesPerImage)).
    2:{ unfold ret. intros [= <- <-]. split; constructor. }
    destruct (forEach_collect
                (fun groupIndex =>
                   flat_map
                     (fun imgInGroup =>
                        attemptAt (minWith50 (numPages body))
                          ((Z.of_nat groupIndex + 1) * pagesPerImage - 1 + Z.of_nat imgInGroup))
                     (seq 0 (Z.to_nat imagesPerCount)))
                (fun pages (state : nat * list Image) =>
                   sublist (map pageIndex (snd state)) (map Z.to_nat pages) /\
                   Forall (fun img => (100 < length (base64 img))%nat) (snd state))
                (generateGroup (minWith50 (numPages body)) imagesPerCount pagesPerImage)
                (seq 0 (numberOfImageGroups (minWith50 (numPages body)) pagesPerImage)))
      with (s := (O, @nil Image)) (log := log) as (state & E & K).
    { intros groupIndex st log0. unfold Handler.generateGroup.
      apply (forEach_collect
               (fun imgInGroup =>
                  attemptAt (minWith50 (numPages body))
                    ((Z.of_nat groupIndex + 1) * pagesPerImage - 1 + Z.of_nat imgInGroup))
               (fun pages (state : nat * list Image) =>
                  sublist (map pageIndex (snd state)) (map Z.to_nat pages) /\
                  Forall (fun img => (100 < length (base64 img))%nat) (snd state))).
      intros imgInGroup st0 log1. apply generateOne_keeps. }
    rewrite (bind_returned _ _ _ _ _ E). unfold ret. intros [= <- <-].
    apply (K []). split; constructor. }
  destruct Hkeep as [Hsub Hall]. split; [exact Hsub |]. split; [exact Hall |].
  apply sublist_length in Hsub. rewrite !length_map in Hsub. exact Hsub.
Qed.

(** In every run, whatever its outcome, the image requests are the planned
    ones in their order, or none when the run stops before the image stage;
    and none are planned when a count of the image frequency is not
    positive (also for a frequency that cannot be read) or when [numPages]
    is missing. *)
Theorem image_requests_follow_the_plan body :
  (imageCalls (snd (POST (JsonValue body))) = [] \/
   imageCalls (snd (POST (JsonValue body))) = attemptedPages body) /\
  (fst (imageCounts (imageFrequency body)) <= 0 \/
   snd (imageCounts (imageFrequency body)) <= 0 \/
   numPages body = None ->
   imageCalls (snd (POST (JsonValue body))) = []).
Proof.
  assert (Hplan : imageCalls (snd (POST (JsonValue body))) = [] \/
                  imageCalls (snd (POST (JsonValue body))) = attemptedPages body).
  { unfold Handler.POST, handle.
    destruct (negb (truthy (prompt body))); [left; reflexivity |].
    pose proof (generateWhitepaper_run widthOfTextAtSize encodingError embedImage getEmbedding
                  getFrameworkEmbedding queryPinecone queryFramework chatCompletion
                  chatContinuation postProcess generateImage now body []) as Hrun.
    destruct (getEmbedding (prompt body)) as [u | e].
    - destruct Hrun as (pre & Fpre & [(error & E) |
        (content & images & post & outcome & _ & _ & Fpost & _ & E)]); rewrite E.
      + left. cbn [snd app]. apply imageCalls_none. exact Fpre.
      + right. assert (Hlog : imageCalls ([] ++ pre ++
                   map CallGenerateImage (attemptedPages body) ++ post)
                   = attemptedPages body).
        { cbn [app]. rewrite !imageCalls_app, (imageCalls_none pre Fpre),
            (imageCalls_none post Fpost), imageCalls_planned, app_nil_r. reflexivity. }
        destruct outcome; exact Hlog.
    - rewrite Hrun. left. reflexivity. }
  split; [exact Hplan |]. intros Hnone.
  assert (Hempty : attemptedPages body = []).
  { unfold attemptedPages.
    destruct (imageCounts (imageFrequency body)) as [imagesPerCount pagesPerImage].
    cbn [fst snd] in Hnone.
    destruct ((0 <? imagesPerCount) && (0 <? pagesPerImage)) eqn:E; [| reflexivity].
    apply andb_true_iff in E as [HN HM]. apply Z.ltb_lt in HN, HM.
    destruct Hnone as [H | [H | H]]; [lia | lia |]. rewrite H. reflexivity. }
  destruct Hplan as [H | H]; [exact H | rewrite H; exact Hempty].
Qed.

End Route.

(** ** The image frequency sent by the form *)

Lemma digit_not_space c : isDigit c = true -> isWhiteSpace c = false.
Proof.
  unfold isDigit, isWhiteSpace. intros H.
  apply andb_true_iff in H as [H1 H2]. apply Nat.leb_le in H1, H2.
  repeat (apply orb_false_iff; split); apply Nat.eqb_neq; lia.
Qed.

Lemma matchLazyPer_found s d : matchPer s = Some d -> matchLazyPer s = Some d.
Proof. intros H. destruct s; cbn [matchLazyPer]; rewrite H; reflexivity. Qed.

Lemma matchLazyPer_skip c s :
  matchPer (c :: s) = None -> isLineTerminator c = false ->
  matchLazyPer (c :: s) = matchLazyPer s.
Proof. intros H Hc. cbn [matchLazyPer]. rewrite H, Hc. reflexivity. Qed.

Lemma matchImageFrequency_digits digits rest digits2 :
  digits <> [] -> Forall (fun c => isDigit c = true) digits ->
  match rest with [] => True | c :: _ => isDigit c = false end ->
  matchAfterCount rest = Some digits2 ->
  matchImageFrequency (digits ++ rest) = Some (digits, digits2).
Proof.
  intros Hne Hd Hrest Hafter. destruct digits as [| d a]; [congruence |].
  pose proof (Headings.span_app isDigit (d :: a) rest Hd Hrest) as Hspan.
  inversion Hd as [| ? ? Hd1 _]; subst.
  cbn [app] in *. cbn [matchImageFrequency]. cbv zeta. rewrite Hd1, Hspan, Hafter.
  reflexivity.
Qed.

Lemma frequency_text_matches a b unit :
  a <> [] -> b <> [] ->
  Forall (fun c => isDigit c = true) a -> Forall (fun c => isDigit c = true) b ->
  match unit with [] => True | c :: _ => isDigit c = false end ->
  matchImageFrequency (a ++ js " image per " ++ b ++ unit) = Some (a, b).
Proof.
  intros Ha Hb Da Db Hunit.
  apply matchImageFrequency_digits; [exact Ha | exact Da | reflexivity |].
  destruct b as [| d2 b]; [congruence |].
  inversion Db as [| ? ? Hd2 _]; subst.
  pose proof (Headings.span_app isDigit (d2 :: b) unit Db Hunit) as Hspan.
  assert (Hper : matchPer (js "per " ++ (d2 :: b) ++ unit) = Some (d2 :: b)).
  { unfold matchPer. cbn [js list_ascii_of_string app] in *.
    cbn [startsWithNoCase skipn span].
    replace (chr_eqb (lower "p") (lower "p") && (chr_eqb (lower "e") (lower "e") &&
             (chr_eqb (lower "r") (lower "r") && true))) with true by reflexivity.
    replace (isWhiteSpace " ") with true by reflexivity.
    rewrite (digit_not_space d2 Hd2). rewrite Hspan. reflexivity. }
  unfold matchAfterCount.
  change (js " image per " ++ (d2 :: b) ++ unit)
    with (SP :: js "image" ++ SP :: js "per " ++ (d2 :: b) ++ unit).
  cbn [span js list_ascii_of_string app].
  replace (isWhiteSpace SP) with true by reflexivity.
  replace (isWhiteSpace "i") with false by reflexivity.
  replace (startsWithNoCase _ _) with true by reflexivity.
  cbn [skipn].
  change (" "%char :: "p"%char :: "e"%char :: "r"%char :: " "%char :: d2 :: b ++ unit)
    with (SP :: js "per " ++ (d2 :: b) ++ unit).
  rewrite matchLazyPer_skip by reflexivity.
  apply matchLazyPer_found. exact Hper.
Qed.

(** The route reads the frequency text of the form back as the two numbers
    typed into it, for pages and for slides, when these are below [2^53]:
    beyond, [parseInt] gives the nearest double. *)
Theorem form_frequency_is_read_back imagesPerPages pagesForImages ppt :
  imagesPerPages <> [] -> pagesForImages <> [] ->
  Forall (fun c => isDigit c = true) imagesPerPages ->
  Forall (fun c => isDigit c = true) pagesForImages ->
  digitsValue imagesPerPages < 2 ^ 53 -> digitsValue pagesForImages < 2 ^ 53 ->
  imageCounts (Some (JString (Form.frequencyText imagesPerPages pagesForImages ppt)))
  = (digitsValue imagesPerPages, digitsValue pagesForImages).
Proof.
  intros Ha Hb Da Db Va Vb. unfold Form.frequencyText, imageCounts.
  rewrite (frequency_text_matches imagesPerPages pagesForImages
             (if ppt then js " slides" else js " pages") Ha Hb Da Db)
    by (destruct ppt; reflexivity).
  unfold parseInt, toDouble.
  apply Z.ltb_lt in Va, Vb. rewrite Va, Vb.
  destruct imagesPerPages; [congruence | reflexivity].
Qed.

(** ** The theorems on concrete services *)

Lemma invalid_requests_answered_400_witness :
  Service.post InvalidJson =
    (errorResponse 400 (js "Invalid JSON in request body") None, []) /\
  Service.post (JsonValue Outage.noPrompt) =
    (errorResponse 400 (js "Prompt is required") None, []).
Proof.
  destruct (invalid_requests_answered_400 halfEm printable decode800x600 Service.embeddingOk
              Service.frameworkEmbeddingOk Service.queryOk Service.frameworkQueryOk
              Service.chatAnswer Service.chatNothing Service.keepContent Service.imageOk
              Service.clock Outage.noPrompt) as [H1 H2].
  split; [exact H1 | apply H2; reflexivity].
Defined.

(** Without an API key the embedding throws, and the answer says so. *)
Lemma embedding_failure_answered_500_witness :
  POST halfEm printable decode800x600 Outage.embeddingDown Service.frameworkEmbeddingOk
    Service.queryOk Service.frameworkQueryOk Service.chatAnswer Service.chatNothing
    Service.keepContent Service.imageOk Service.clock
    (JsonValue (Service.requestFor "pdf" 4)) =
  (errorResponse 500 (js "Failed to generate whitepaper")
     (Some (failureMessage (js "OpenAI API key must be set"))),
   [CallGetEmbedding]).
Proof.
  apply (embedding_failure_answered_500 halfEm printable decode800x600 Outage.embeddingDown
           Service.frameworkEmbeddingOk Service.queryOk Service.frameworkQueryOk
           Service.chatAnswer Service.chatNothing Service.keepContent Service.imageOk
           Service.clock (Service.requestFor "pdf" 4) (js "OpenAI API key must be set"));
    reflexivity.
Defined.



(** Four pages, one image per two pages: two requests, two images kept. *)
Lemma kept_images_follow_requests_witness :
  sublist (map pageIndex (match fst (generateImages Service.imageOk
                                       (Service.requestFor "pdf" 4) []) with
                          | Returned images => images
                          | Thrown _ => []
                          end))
    (map Z.to_nat (attemptedPages (Service.requestFor "pdf" 4))) /\
  Forall (fun img => (100 < length (base64 img))%nat)
    (match fst (generateImages Service.imageOk (Service.requestFor "pdf" 4) []) with
     | Returned images => images
     | Thrown _ => []
     end) /\
  (length (match fst (generateImages Service.imageOk (Service.requestFor "pdf" 4) []) with
           | Returned images => images
           | Thrown _ => []
           end)
   <= length (attemptedPages (Service.requestFor "pdf" 4)))%nat.
Proof.
  apply (kept_images_follow_requests Service.imageOk (Service.requestFor "pdf" 4) [] _
           (snd (generateImages Service.imageOk (Service.requestFor "pdf" 4) []))).
  vm_compute. reflexivity.
Defined.

(** A frequency that cannot be read: no image is asked for. *)
Lemma image_requests_follow_the_plan_witness :
  imageCalls (snd (Service.post (JsonValue Outage.noFrequency))) = [].
Proof.
  destruct (image_requests_follow_the_plan halfEm printable decode800x600 Service.embeddingOk
              Service.frameworkEmbeddingOk Service.queryOk Service.frameworkQueryOk
              Service.chatAnswer Service.chatNothing Service.keepContent Service.imageOk
              Service.clock Outage.noFrequency) as [_ H].
  apply H. left. vm_compute. discriminate.
Defined.

(** The default of the form: one image per two pages. *)
Lemma form_frequency_is_read_back_witness :
  imageCounts (Some (JString (js "1 image per 2 pages"))) = (1, 2).
Proof.
  apply (form_frequency_is_read_back (js "1") (js "2") false).
  - discriminate.
  - discriminate.
  - repeat constructor.
  - repeat constructor.
  - reflexivity.
  - reflexivity.
Defined.

End HandlerExtras.

(* ===================================================================== *)
(** * Further properties of the DOCX and PPTX builders                   *)
(* ===================================================================== *)

Module OfficeExtras.

Import OfficeSpec.

(** ** Headings *)

(** A text that starts with [##] starts with [#]. *)
Lemma startsWith_sub s : startsWith (js "##") s = true -> startsWith (js "#") s = true.
Proof.
  destruct s as [| c r]; cbn; [discriminate |].
  intros H. apply andb_true_iff in H as [H _]. rewrite H. reflexivity.
Qed.

Lemma subHeading_is_heading s :
  Docx.trimmedStartsWith (js "##") s = true -> Docx.trimmedStartsWith (js "#") s = true.
Proof. apply startsWith_sub. Qed.

(** ** The DOCX loop *)

(** The inner loop over the images places at most one placeholder: that of
    the first image tagged with the estimated page, unless the page has one
    already. *)
Lemma placeImages_spec c images : forall children placed,
  Docx.placeImages c images children placed =
    if bool_decide (c ∈ placed) then (children, placed)
    else match taggedFor images c with
         | Some img => (children ++ [Docx.placeholder img], {[ c ]} ∪ placed)
         | None => (children, placed)
         end.
Proof.
  unfold taggedFor.
  induction images as [| img rest IH]; intros children placed; cbn [Docx.placeImages List.find].
  - destruct (bool_decide _); reflexivity.
  - destruct (Nat.eqb (pageIndex img) c) eqn:E.
    + apply Nat.eqb_eq in E. rewrite E. cbn [andb].
      destruct (bool_decide (c ∈ placed)) eqn:D; cbn [negb].
      * rewrite IH, D. reflexivity.
      * rewrite IH. rewrite bool_decide_eq_true_2 by set_solver. reflexivity.
    + cbn [andb]. apply IH.
Qed.

Lemma docxLoop_blocks images paragraphs : forall i children placed,
  (forall p, p ∈ placed <-> (p * 50 < i)%nat /\ taggedFor images p <> None) ->
  Docx.docxLoop images i paragraphs children placed =
    children ++ docxBlocks images i paragraphs.
Proof.
  induction paragraphs as [| paragraph rest IH]; intros i children placed Hinv;
    cbn [Docx.docxLoop docxBlocks].
  - symmetry. apply app_nil_r.
  - rewrite placeImages_spec. unfold docxBlock.
    pose proof (Nat.div_mod_eq i 50) as Hdiv.
    pose proof (Nat.mod_upper_bound i 50 ltac:(lia)) as Hrem.
    set (q := (i / 50)%nat) in *. set (r := (i mod 50)%nat) in *. clearbody q r.
    destruct (Nat.eqb_spec r 0) as [Hmod | Hmod].
    + assert (Hc : (q * 50 = i)%nat) by lia.
      rewrite bool_decide_eq_false_2 by (rewrite Hinv; lia).
      destruct (taggedFor images q) as [img |] eqn:Htag.
      * rewrite IH; [rewrite <- !app_assoc; reflexivity |].
        intros p. rewrite elem_of_union, elem_of_singleton, Hinv.
        split.
        -- intros [-> | [H1 H2]]; [split; [lia | congruence] | split; [lia | exact H2]].
        -- intros [H1 H2]. destruct (decide (p = q)) as [-> | Hne]; [left; reflexivity |].
           right. split; [lia | exact H2].
      * rewrite IH; [rewrite <- !app_assoc; reflexivity |].
        intros p. rewrite Hinv. split.
        -- intros [H1 H2]. split; [lia | exact H2].
        -- intros [H1 H2]. split; [| exact H2].
           destruct (decide (p = q)) as [-> | Hne]; [congruence | lia].
    + assert (Hc : (q * 50 < i)%nat) by lia.
      assert (Hnext : forall p, p ∈ placed <->
                        (p * 50 < S i)%nat /\ taggedFor images p <> None).
      { intros p. rewrite Hinv. split; intros [H1 H2]; (split; [lia | exact H2]). }
      destruct (taggedFor images q) as [img |] eqn:Htag.
      * rewrite bool_decide_eq_true_2 by (rewrite Hinv; split; [exact Hc | congruence]).
        rewrite IH by exact Hnext. rewrite <- !app_assoc. reflexivity.
      * destruct (bool_decide _); (rewrite IH by exact Hnext);
          rewrite <- !app_assoc; reflexivity.
Qed.

Lemma filter_text_blocks images paragraphs : forall i,
  List.filter (fun p => negb (isPlaceholder p)) (docxBlocks images i paragraphs) =
    map Docx.textParagraph paragraphs.
Proof.
  induction paragraphs as [| paragraph rest IH]; intros i; [reflexivity |].
  cbn [docxBlocks map]. rewrite List.filter_app, IH. unfold docxBlock.
  destruct (_ =? _)%nat; [destruct (taggedFor _ _) |]; reflexivity.
Qed.

Lemma In_docxBlocks images q paragraphs : forall i,
  In q (docxBlocks images i paragraphs) <->
  exists k paragraph,
    paragraphs !! k = Some paragraph /\
    (q = Docx.textParagraph paragraph \/
     (((i + k) mod 50 = 0)%nat /\
      exists img, taggedFor images ((i + k) / 50) = Some img /\ q = Docx.placeholder img)).
Proof.
  induction paragraphs as [| paragraph rest IH]; intros i; cbn [docxBlocks].
  - split; [intros [] | intros (k & p & H & _); discriminate].
  - rewrite in_app_iff, IH. split.
    + intros [H | (k & p & Hk & H)].
      * exists 0%nat, paragraph. split; [reflexivity |]. rewrite Nat.add_0_r.
        unfold docxBlock in H. apply in_app_iff in H as [H | [<- | []]]; [| left; reflexivity].
        right. destruct (Nat.eqb_spec (i mod 50) 0) as [Hmod | Hmod]; [| destruct H].
        split; [exact Hmod |].
        destruct (taggedFor images (i / 50)) as [img |]; [| destruct H].
        destruct H as [<- | []]. exists img. auto.
      * exists (S k), p. split; [exact Hk |].
        replace (i + S k)%nat with (S i + k)%nat by lia. exact H.
    + intros (k & p & Hk & H). destruct k as [| k].
      * left. injection Hk as <-. rewrite Nat.add_0_r in H. unfold docxBlock.
        apply in_app_iff. destruct H as [-> | (Hmod & img & Htag & ->)];
          [right; left; reflexivity |].
        left. rewrite Hmod, Htag. left. reflexivity.
      * right. exists k, p. split; [exact Hk |].
        replace (S i + k)%nat with (i + S k)%nat by lia. exact H.
Qed.

(** ** The DOCX document *)

(** The paragraphs of the DOCX document in closed form: every paragraph of
    the content gives one paragraph of the document, in order, and the
    placeholder of the first image tagged [p] stands directly before
    paragraph number [50 * p]. *)
Theorem docx_children_in_closed_form content images numPages :
  Docx.generateWhitepaperDOCX content images numPages =
    docxBlocks images 0 (docxParagraphs content).
Proof.
  unfold Docx.generateWhitepaperDOCX.
  rewrite docxLoop_blocks; [reflexivity |].
  intros p. split; [set_solver | lia].
Qed.

(** Without the placeholders, the document is the list of the paragraphs of
    the content, each one cleaned and styled on its own: no paragraph is
    lost, repeated or moved. *)
Theorem docx_keeps_every_paragraph content images numPages :
  List.filter (fun p => negb (isPlaceholder p))
    (Docx.generateWhitepaperDOCX content images numPages) =
  map Docx.textParagraph (docxParagraphs content).
Proof.
  unfold Docx.generateWhitepaperDOCX.
  rewrite docxLoop_blocks by (intros p; split; [set_solver | lia]).
  apply filter_text_blocks.
Qed.

(** The placeholders of the document are those of the images that are the
    first with their tag and whose page the content reaches, a page being
    estimated at 50 paragraphs; this holds for the tag 0 as well. *)
Theorem docx_placeholders content images numPages q :
  In q (Docx.generateWhitepaperDOCX content images numPages) /\ isPlaceholder q = true <->
  exists img,
    q = Docx.placeholder img /\
    taggedFor images (pageIndex img) = Some img /\
    (pageIndex img * 50 < length (docxParagraphs content))%nat.
Proof.
  unfold Docx.generateWhitepaperDOCX.
  rewrite docxLoop_blocks by (intros p; split; [set_solver | lia]).
  cbn [app]. rewrite In_docxBlocks. cbn [Nat.add]. split.
  - intros [(k & paragraph & Hk & [H | (Hmod & img & Htag & H)]) Hph].
    + exfalso. rewrite H in Hph. discriminate.
    + exists img. split; [exact H |].
      assert (Hidx : pageIndex img = (k / 50)%nat).
      { unfold taggedFor in Htag. apply find_some in Htag as [_ Heq].
        apply Nat.eqb_eq in Heq. exact Heq. }
      rewrite Hidx. split; [exact Htag |].
      apply lookup_lt_Some in Hk. pose proof (Nat.div_mod_eq k 50). lia.
  - intros (img & -> & Htag & Hlt). split; [| reflexivity].
    destruct (lookup_lt_is_Some_2 (docxParagraphs content) (pageIndex img * 50) Hlt)
      as [paragraph Hk].
    exists (pageIndex img * 50)%nat, paragraph. split; [exact Hk |]. right.
    split; [apply Nat.Div0.mod_mul |]. exists img.
    rewrite Nat.div_mul by lia. split; [exact Htag | reflexivity].
Qed.

(** The second heading level is never used: a paragraph that starts with
    [##] starts with [#]. Every paragraph of the document is a placeholder
    at size 20, a first-level heading in bold at size 18 or plain text at
    size 12. *)
Theorem docx_has_one_heading_level content images numPages q :
  In q (Docx.generateWhitepaperDOCX content images numPages) ->
  (isPlaceholder q = true /\ Docx.size (Docx.run q) = 20%Z /\ Docx.heading q = None) \/
  (isPlaceholder q = false /\ Docx.size (Docx.run q) = 18%Z /\
   Docx.bold (Docx.run q) = true /\ Docx.heading q = Some Docx.HEADING_1) \/
  (isPlaceholder q = false /\ Docx.size (Docx.run q) = 12%Z /\
   Docx.bold (Docx.run q) = false /\ Docx.heading q = None).
Proof.
  unfold Docx.generateWhitepaperDOCX.
  rewrite docxLoop_blocks by (intros p; split; [set_solver | lia]).
  cbn [app]. rewrite In_docxBlocks.
  intros (k & paragraph & _ & [-> | (_ & img & _ & ->)]).
  - right. unfold Docx.textParagraph, isPlaceholder.
    cbn [Docx.run Docx.italics Docx.size Docx.bold Docx.heading].
    pose proof (subHeading_is_heading (Docx.removeMarkdown paragraph)) as Hsub.
    destruct (Docx.trimmedStartsWith (js "#") (Docx.removeMarkdown paragraph)).
    + left. auto.
    + right. destruct (Docx.trimmedStartsWith (js "##") (Docx.removeMarkdown paragraph));
        [specialize (Hsub eq_refl); discriminate | auto].
  - left. auto.
Qed.

(** ** The cleaned text *)

Lemma span_suffix (P : ascii -> Prop) p s : Forall P s -> Forall P (snd (span p s)).
Proof.
  induction 1 as [| c r Hc Hr IH]; cbn; [constructor |].
  destruct (p c); [| constructor; assumption].
  destruct (span p r). exact IH.
Qed.

Lemma stripMarker_keeps (P : ascii -> Prop) s : Forall P s -> Forall P (Docx.stripMarker s).
Proof.
  intros H. unfold Docx.stripMarker.
  pose proof (span_suffix P isHash s H) as H1.
  destruct (span isHash s) as [[| c m] r]; [exact H |].
  apply span_suffix. exact H1.
Qed.

Lemma removeMarkdown_clean s :
  Forall (fun c => c <> STAR /\ c <> UNDERSCORE) (Docx.removeMarkdown s).
Proof.
  unfold Docx.removeMarkdown. apply Forall_and. split.
  - apply Chars.replaceChar_space_keeps; [discriminate |]. apply Chars.removeChar_free.
  - apply Chars.replaceChar_free. discriminate.
Qed.

(** The text of a DOCX paragraph made from the content has neither [*] nor
    [_]: the emphasis markers are removed and every underscore becomes a
    space. *)
Theorem docx_text_has_no_emphasis content images numPages q :
  In q (Docx.generateWhitepaperDOCX content images numPages) ->
  isPlaceholder q = false ->
  Forall (fun c => c <> STAR /\ c <> UNDERSCORE) (Docx.text (Docx.run q)).
Proof.
  unfold Docx.generateWhitepaperDOCX.
  rewrite docxLoop_blocks by (intros p; split; [set_solver | lia]).
  cbn [app]. rewrite In_docxBlocks.
  intros (k & paragraph & _ & [-> | (_ & img & _ & ->)]) Hph; [| discriminate].
  cbn [Docx.textParagraph Docx.run Docx.text].
  apply stripMarker_keeps, removeMarkdown_clean.
Qed.

(** ** The PPTX loop *)

Lemma slideImages_app a b : slideImages (a ++ b) = slideImages a ++ slideImages b.
Proof. unfold slideImages. apply omap_app. Qed.

Lemma PptInv_title images paragraphs : PptInv images (Pptx.titleSlide paragraphs).
Proof.
  unfold Pptx.titleSlide. constructor; cbn.
  - reflexivity.
  - intros k ops img H. rewrite lookup_nil in H. discriminate.
  - intros img. destruct (List.find _ _); intros [].
  - constructor; [| constructor]. destruct (List.find _ _); cbn; lia.
  - constructor; [| constructor]. destruct (List.find _ _); [| constructor].
    constructor; [| constructor]. left. auto.
Qed.

Lemma PptInv_newSlide images st : PptInv images st -> PptInv images (Pptx.newSlide st).
Proof.
  intros [H1 H2 H3 H4 H5]. constructor; cbn.
  - rewrite length_app. cbn. lia.
  - intros k ops img Hk Hin. apply lookup_app_Some in Hk as [Hk | [Hlen Hk]].
    + exact (H2 k ops img Hk Hin).
    + destruct (k - length (Pptx.doneSlides st))%nat as [| d] eqn:Ed; [| discriminate].
      injection Hk as <-. destruct (H3 img Hin) as (Hidx & Himg & _).
      split; [lia | exact Himg].
  - intros img [].
  - unfold Pptx.slides. cbn. apply Forall_app. split; [exact H4 |].
    constructor; [cbn; lia | constructor].
  - unfold Pptx.slides. cbn. apply Forall_app. split; [exact H5 | repeat constructor].
Qed.

Lemma PptInv_addText images st text x y w h fontSize bold centered :
  PptInv images st ->
  slideOpForm (Pptx.AddText text x y w h fontSize bold centered) ->
  PptInv images (Pptx.addOp (Pptx.AddText text x y w h fontSize bold centered) st).
Proof.
  intros [H1 H2 H3 H4 H5] Hop. unfold Pptx.slides in *.
  apply Forall_app in H4 as [H4d H4c]. apply Forall_app in H5 as [H5d H5c].
  inversion_clear H4c as [| ? ? H4c' _]. inversion_clear H5c as [| ? ? H5c' _].
  constructor; cbn.
  - exact H1.
  - exact H2.
  - intros img. rewrite slideImages_app. cbn. rewrite app_nil_r. apply H3.
  - apply Forall_app. split; [exact H4d |]. constructor; [| constructor].
    rewrite slideImages_app. cbn. rewrite app_nil_r. exact H4c'.
  - apply Forall_app. split; [exact H5d |]. constructor; [| constructor].
    apply Forall_app. split; [exact H5c' | constructor; [exact Hop | constructor]].
Qed.

Lemma PptInv_addImage images st img :
  PptInv images st ->
  In img images -> S (pageIndex img) = Pptx.currentSlideIndex st ->
  pageIndex img ∉ Pptx.imagesPlaced st ->
  PptInv images
    (Pptx.markPlaced (pageIndex img) (Pptx.addOp (Pptx.AddImage img 1 2 8 4.5) st)).
Proof.
  intros [H1 H2 H3 H4 H5] Himg Hidx Hfresh. unfold Pptx.slides in *.
  apply Forall_app in H4 as [H4d H4c]. apply Forall_app in H5 as [H5d H5c].
  inversion_clear H4c as [| ? ? H4c' _]. inversion_clear H5c as [| ? ? H5c' _].
  assert (Hnone : slideImages (Pptx.slide st) = []).
  { destruct (slideImages (Pptx.slide st)) as [| other rest] eqn:E; [reflexivity |].
    exfalso. destruct (H3 other ltac:(left; reflexivity)) as (Ho & _ & Hp).
    apply Hfresh. replace (pageIndex img) with (pageIndex other) by lia. exact Hp. }
  constructor; cbn.
  - exact H1.
  - exact H2.
  - intros img'. rewrite slideImages_app, Hnone. cbn. intros [<- | []].
    split; [exact Hidx |]. split; [exact Himg |].
    apply elem_of_union. left. apply elem_of_singleton. reflexivity.
  - apply Forall_app. split; [exact H4d |]. constructor; [| constructor].
    rewrite slideImages_app, Hnone. cbn. lia.
  - apply Forall_app. split; [exact H5d |]. constructor; [| constructor].
    apply Forall_app. split; [exact H5c' |]. constructor; [| constructor].
    cbn. repeat split; reflexivity.
Qed.

Lemma addParagraph_Inv images paragraph st :
  PptInv images st ->
  PptInv images (Pptx.addParagraph images paragraph st) /\
  (Pptx.currentSlideIndex (Pptx.addParagraph images paragraph st)
     <= S (Pptx.currentSlideIndex st))%nat.
Proof.
  intros HI. unfold Pptx.addParagraph.
  set (st1 := if _ && _ then Pptx.newSlide st else st).
  assert (HI1 : PptInv images st1).
  { unfold st1. destruct (_ && _); [apply PptInv_newSlide |]; exact HI. }
  assert (Hidx1 : (Pptx.currentSlideIndex st1 <= S (Pptx.currentSlideIndex st))%nat).
  { unfold st1. destruct (_ && _); cbn; lia. }
  clearbody st1. cbv zeta.
  set (found := Pptx.imageForSlide images st1).
  set (st2 := match found with Some img => _ | None => st1 end).
  assert (HI2 : PptInv images st2 /\ Pptx.currentSlideIndex st2 = Pptx.currentSlideIndex st1).
  { unfold st2. destruct found as [img |] eqn:Efound; [| split; [exact HI1 | reflexivity]].
    unfold found, Pptx.imageForSlide in Efound.
    apply find_some in Efound as [Himg Hcond].
    apply andb_true_iff in Hcond as [Htag Hfresh].
    apply Nat.eqb_eq in Htag. rewrite Hfresh.
    apply negb_true_iff, bool_decide_eq_false in Hfresh.
    split; [| reflexivity].
    apply PptInv_addImage; [exact HI1 | exact Himg | lia | exact Hfresh]. }
  destruct HI2 as [HI2 Hidx2]. clearbody st2.
  set (clean := Docx.removeMarkdown paragraph).
  destruct (nonBlank (firstn 500 (Docx.stripMarker clean))) eqn:Eblank;
    [| split; [exact HI2 | lia]].
  split; [| cbn; lia].
  apply PptInv_addText; [exact HI2 |]. right.
  split; [rewrite length_take; lia |]. split; [exact Eblank |]. split; [reflexivity |].
  split; [apply Forall_take, stripMarker_keeps, removeMarkdown_clean |].
  pose proof (subHeading_is_heading clean) as Hsub.
  destruct (Docx.trimmedStartsWith (js "#") clean); [left; auto |].
  destruct (Docx.trimmedStartsWith (js "##") clean);
    [specialize (Hsub eq_refl); discriminate | right; auto].
Qed.

(** [currentSlideIndex < numSlides] holds of every smaller index. *)
Lemma indexBelow_le i j numSlides :
  Pptx.indexBelow i numSlides = true -> (j <= i)%nat -> Pptx.indexBelow j numSlides = true.
Proof.
  destruct numSlides as [q | | |]; cbn [Pptx.indexBelow]; try (intros H _; exact H).
  intros H Hle. apply Geometry.Qltb_lt in H. apply Geometry.Qltb_lt.
  assert (inject_Z (Z.of_nat j) <= inject_Z (Z.of_nat i))%Q by (rewrite <- Zle_Qle; lia).
  lra.
Qed.

(** The loop adds slides only while the index is below [numSlides], and at
    most one for a paragraph. *)
Lemma pptLoop_Inv images numSlides paragraphs : forall st,
  PptInv images st ->
  (Pptx.currentSlideIndex st <= 1)%nat \/
    Pptx.indexBelow (Pptx.currentSlideIndex st - 1) numSlides = true ->
  PptInv images (Pptx.pptLoop images numSlides paragraphs st) /\
  ((Pptx.currentSlideIndex (Pptx.pptLoop images numSlides paragraphs st) <= 1)%nat \/
   Pptx.indexBelow
     (Pptx.currentSlideIndex (Pptx.pptLoop images numSlides paragraphs st) - 1)
     numSlides = true) /\
  (Pptx.currentSlideIndex (Pptx.pptLoop images numSlides paragraphs st)
     <= Pptx.currentSlideIndex st + length paragraphs)%nat.
Proof.
  induction paragraphs as [| paragraph rest IH]; intros st HI Hb; cbn [Pptx.pptLoop length];
    [split; [assumption | split; [assumption | lia]] |].
  destruct (Pptx.indexBelow (Pptx.currentSlideIndex st) numSlides) eqn:Hlt;
    [| split; [assumption | split; [assumption | lia]]].
  destruct (addParagraph_Inv images paragraph st HI) as [HI' Hidx].
  destruct (IH (Pptx.addParagraph images paragraph st) HI') as (H1 & H2 & H3).
  - right. apply (indexBelow_le _ _ _ Hlt). lia.
  - split; [exact H1 |]. split; [exact H2 | lia].
Qed.

Lemma generator_PptInv content images numSlides :
  exists st,
    Pptx.generateWhitepaperPPT content images numSlides = Pptx.slides st /\
    PptInv images st /\
    ((Pptx.currentSlideIndex st <= 1)%nat \/
     Pptx.indexBelow (Pptx.currentSlideIndex st - 1) numSlides = true) /\
    (Pptx.currentSlideIndex st <= 1 + length (pptParagraphs content))%nat.
Proof.
  eexists. split; [reflexivity |].
  apply (pptLoop_Inv images numSlides (pptParagraphs content)
           (Pptx.titleSlide (pptParagraphs content)));
    [apply PptInv_title | left; cbn; lia].
Qed.

(** ** The PPTX presentation *)

(** The presentation has the title slide and at most one more slide for
    each paragraph. A slide is added only while the number of slides is
    below [numSlides], whatever number that is: for a real number there
    are at most [max(1, ceil(numSlides))] slides (three for 2.5), and the
    title slide stays alone when [numSlides] is [NaN] or minus infinity. *)
Theorem ppt_slide_count content images numSlides :
  (1 <= length (Pptx.generateWhitepaperPPT content images numSlides)
     <= 1 + length (pptParagraphs content))%nat /\
  match numSlides with
  | Real q =>
      (Z.of_nat (length (Pptx.generateWhitepaperPPT content images numSlides))
         <= Z.max 1 (Qceiling q))%Z
  | PlusInfinity => True
  | MinusInfinity | NotANumber =>
      length (Pptx.generateWhitepaperPPT content images numSlides) = 1%nat
  end.
Proof.
  destruct (generator_PptInv content images numSlides) as (st & -> & HI & Hb & Hlen).
  pose proof (ppt_index _ _ HI) as Hidx.
  unfold Pptx.slides. rewrite length_app. cbn [length].
  split; [lia |].
  destruct numSlides as [q | | |]; cbn [Pptx.indexBelow] in Hb.
  - destruct Hb as [Hb | Hb]; [lia |].
    apply Geometry.Qltb_lt in Hb.
    pose proof (Qle_ceiling q) as Hceil.
    assert (Hlt : (inject_Z (Z.of_nat (Pptx.currentSlideIndex st - 1))
                   < inject_Z (Qceiling q))%Q) by lra.
    rewrite <- Zlt_Qlt in Hlt. lia.
  - exact I.
  - destruct Hb as [Hb | Hb]; [lia | discriminate].
  - destruct Hb as [Hb | Hb]; [lia | discriminate].
Qed.

(** A slide carries at most one picture, and a picture stands on the slide
    whose position, counted from 0 with the title slide, is the image's
    [pageIndex]; so no image is placed twice. *)
Theorem ppt_images_on_their_slides content images numSlides k ops :
  Pptx.generateWhitepaperPPT content images numSlides !! k = Some ops ->
  (length (slideImages ops) <= 1)%nat /\
  forall img, In img (slideImages ops) -> pageIndex img = k /\ In img images.
Proof.
  destruct (generator_PptInv content images numSlides) as (st & -> & HI & _ & _).
  intros Hk. split.
  - pose proof (ppt_single _ _ HI) as Hs. rewrite List.Forall_forall in Hs.
    apply Hs. apply list_elem_of_In. eapply list_elem_of_lookup_2. exact Hk.
  - intros img Hin. unfold Pptx.slides in Hk.
    apply lookup_app_Some in Hk as [Hk | [Hlen Hk]].
    + exact (ppt_done _ _ HI k ops img Hk Hin).
    + destruct (k - length (Pptx.doneSlides st))%nat as [| d] eqn:Ed; [| discriminate].
      injection Hk as <-. destruct (ppt_current _ _ HI img Hin) as (Hidx & Himg & _).
      pose proof (ppt_index _ _ HI). split; [lia | exact Himg].
Qed.

(** What stands on the slides: apart from the title, set at 44 points,
    every text box holds at most 500 characters, is not blank, has neither
    [*] nor [_], and is in bold at 18 points or plain at 12 points (the
    size 16 of the second heading level is never used); every picture has
    the same frame. *)
Theorem ppt_slide_contents content images numSlides ops op :
  In ops (Pptx.generateWhitepaperPPT content images numSlides) -> In op ops ->
  slideOpForm op.
Proof.
  destruct (generator_PptInv content images numSlides) as (st & -> & HI & _ & _).
  intros Hops Hop. pose proof (ppt_ops _ _ HI) as Hall.
  rewrite List.Forall_forall in Hall. specialize (Hall ops Hops).
  rewrite List.Forall_forall in Hall. exact (Hall op Hop).
Qed.

(** ** The theorems on a short report *)

(** The report has an image tagged 0: its placeholder opens the document. *)
Lemma docx_placeholders_witness :
  exists img,
    nth 0 exampleDocx (Docx.placeholder (imageFor 9)) = Docx.placeholder img /\
    taggedFor reportImages (pageIndex img) = Some img /\
    (pageIndex img * 50 < length (docxParagraphs shortReport))%nat.
Proof.
  apply (proj1 (docx_placeholders shortReport reportImages (Some 1%Z)
                  (nth 0 exampleDocx (Docx.placeholder (imageFor 9))))).
  split; [vm_compute; left; reflexivity | vm_compute; reflexivity].
Defined.

(** The section title [## Outlook] is set as a first-level heading. *)
Lemma docx_has_one_heading_level_witness :
  Docx.heading (nth 3 exampleDocx (Docx.placeholder (imageFor 9))) = Some Docx.HEADING_1 /\
  Docx.size (Docx.run (nth 3 exampleDocx (Docx.placeholder (imageFor 9)))) = 18%Z.
Proof.
  destruct (docx_has_one_heading_level shortReport reportImages (Some 1%Z)
              (nth 3 exampleDocx (Docx.placeholder (imageFor 9))))
    as [(H & _) | [(_ & H1 & _ & H2) | (_ & H & _)]].
  - vm_compute. right. right. right. left. reflexivity.
  - vm_compute in H. discriminate.
  - split; [exact H2 | exact H1].
  - vm_compute in H. discriminate.
Defined.

(** The body paragraph [Demand *grows*.] loses its asterisks. *)
Lemma docx_text_has_no_emphasis_witness :
  Forall (fun c => c <> STAR /\ c <> UNDERSCORE)
    (Docx.text (Docx.run (nth 2 exampleDocx (Docx.placeholder (imageFor 9))))).
Proof.
  apply (docx_text_has_no_emphasis shortReport reportImages (Some 1%Z)).
  - vm_compute. right. right. left. reflexivity.
  - vm_compute. reflexivity.
Defined.

(** The second slide of the presentation carries the image tagged 1. *)
Lemma ppt_images_on_their_slides_witness :
  slideImages (nth 1 exampleSlides []) = [imageFor 1] /\
  (length (slideImages (nth 1 exampleSlides [])) <= 1)%nat /\
  forall img, In img (slideImages (nth 1 exampleSlides [])) ->
    pageIndex img = 1%nat /\ In img reportImages.
Proof.
  split; [vm_compute; reflexivity |].
  apply (ppt_images_on_their_slides shortReport reportImages (Real 5) 1%nat).
  vm_compute. reflexivity.
Defined.

(** The text box under that image. *)
Lemma ppt_slide_contents_witness :
  slideOpForm (nth 1 (nth 1 exampleSlides []) (Pptx.AddImage (imageFor 9) 0 0 0 0)).
Proof.
  apply (ppt_slide_contents shortReport reportImages (Real 5) (nth 1 exampleSlides [])).
  - vm_compute. right. left. reflexivity.
  - vm_compute. right. left. reflexivity.
Defined.

End OfficeExtras.
